(** * RISC-V debug-bus target driver (src/target/riscv/riscv.c)

    A shallow embedding of the debug-bus access engine, the Debug RAM
    helpers and the examine/poll state machine, with the JTAG layer as an
    explicit environment: every queued scan is recorded, every
    [jtag_execute_queue] consumes one reply of the adapter. *)

From Stdlib Require Import String ZArith List Bool Lia.
Import ListNotations.
Local Open Scope Z_scope.

(** ** Fixed-width integers

    C integers are modelled by [Z]; a conversion to an unsigned type of
    [w] bits is written out as a reduction modulo [2^w]. *)

Definition u8 (z : Z) : Z := z mod 2 ^ 8.
Definition u16 (z : Z) : Z := z mod 2 ^ 16.
Definition u32 (z : Z) : Z := z mod 2 ^ 32.
Definition u64 (z : Z) : Z := z mod 2 ^ 64.

(** [#define get_field(reg, mask) (((reg) & (mask)) / ((mask) & ~((mask) << 1)))] *)
Definition get_field (reg mask : Z) : Z :=
  Z.quot (Z.land reg mask) (Z.land mask (Z.lnot (Z.shiftl mask 1))).

(** ** Constants of riscv.c *)

Definition DEBUG_ROM_START : Z := 0x800.
Definition DEBUG_ROM_RESUME : Z := DEBUG_ROM_START + 4.
Definition DEBUG_ROM_EXCEPTION : Z := DEBUG_ROM_START + 8.
Definition DEBUG_RAM_START : Z := 0x400.

Definition DTMINFO : Z := 0x10.
Definition DTMINFO_ADDRBITS : Z := Z.shiftl 0xf 4.
Definition DTMINFO_VERSION : Z := 0xf.

Definition DBUS : Z := 0x11.
Definition DBUS_OP_START : Z := 0.
Definition DBUS_OP_SIZE : Z := 2.
Definition DBUS_DATA_START : Z := 2.
Definition DBUS_DATA_SIZE : Z := 34.
Definition DBUS_ADDRESS_START : Z := 36.

Inductive dbus_op_t : Set :=
| DBUS_OP_NOP
| DBUS_OP_READ
| DBUS_OP_WRITE
| DBUS_OP_CONDITIONAL_WRITE.

(** The enumerator values of [dbus_op_t]. *)
Definition dbus_op_code (op : dbus_op_t) : Z :=
  match op with
  | DBUS_OP_NOP => 0
  | DBUS_OP_READ => 1
  | DBUS_OP_WRITE => 2
  | DBUS_OP_CONDITIONAL_WRITE => 3
  end.

Definition dbus_op_eqb (a b : dbus_op_t) : bool :=
  dbus_op_code a =? dbus_op_code b.

(** [dbus_result_t].  [dbus_scan] also returns the transport's [retval]
    through this type, so a result is kept as the integer it is; the
    comparisons of the callers are against these two enumerators. *)
Definition DBUS_RESULT_SUCCESS : Z := 0.
Definition DBUS_RESULT_NO_WRITE : Z := 1.
Definition DBUS_RESULT_FAILED : Z := 2.
Definition DBUS_RESULT_BUSY : Z := 3.

Definition DMCONTROL : Z := 0x10.
Definition DMCONTROL_HALTNOT : Z := Z.shiftl 1 33.
Definition DMCONTROL_INTERRUPT : Z := Z.shiftl 1 32.

Definition DMINFO : Z := 0x11.
Definition DMINFO_DRAMSIZE : Z := Z.shiftl 0x3f 10.
Definition DMINFO_AUTHTYPE : Z := Z.shiftl 3 2.

Definition DBUS_ADDRESS_UNKNOWN : Z := 0xffff.

(** Modelled from the spec: the error codes belong to helper/log.h, which
    is not among the sources; success is 0 and the generic failure a
    negative code, so that a failure is told from every result code. *)
Definition ERROR_OK : Z := 0.
Definition ERROR_FAIL : Z := -4.

(** ** Debug RAM index to debug-bus address *)

(** [static uint16_t dram_address(unsigned int index)] *)
Definition dram_address (index : Z) : Z :=
  if index <? 0x10 then u16 index
  else u16 (u32 (0x40 + index - 0x10)).

(** The size of Debug RAM as [riscv_examine] computes it from [dminfo]. *)
Definition dramsize_of_dminfo (dminfo : Z) : Z :=
  u32 (get_field (u32 dminfo) DMINFO_DRAMSIZE + 1).

(** ** Bit buffers

    A buffer is the integer whose bit [i] is bit [i] of the little-endian
    byte array the C code passes around. *)

(** Modelled from the spec: [buf_set_u64] belongs to
    helper/binarybuffer.h, which is not among the sources.  The register
    layout of the spec (operation in bits 0..1, data in bits 2..35,
    address from bit 36) is what [dbus_scan] builds with it:
    [buf_set_u64 buffer first num value] stores the low [num] bits of
    [value] at bits [first .. first+num-1] and leaves the others. *)
Definition buf_set_u64 (buffer first num value : Z) : Z :=
  Z.lor (Z.land buffer (Z.lnot (Z.shiftl (Z.ones num) first)))
        (Z.shiftl (Z.land value (Z.ones num)) first).

(** Modelled from the spec: [buf_get_u64] belongs to
    helper/binarybuffer.h, which is not among the sources; it reads the
    [num] bits from bit [first] on, the way the spec decodes the result
    code and the data of a scan. *)
Definition buf_get_u64 (buffer first num : Z) : Z :=
  Z.land (Z.shiftr buffer first) (Z.ones num).

(** Modelled from the spec: [buf_get_u32] belongs to
    helper/binarybuffer.h, which is not among the sources; as
    [buf_get_u64], with a 32-bit result. *)
Definition buf_get_u32 (buffer first num : Z) : Z :=
  u32 (buf_get_u64 buffer first num).

(** ** Instruction encodings

    opcodes.h is not among the sources.  The spec calls the words staged
    in Debug RAM a relative jump (JAL) and a probe sequence of RISC-V
    instructions; they are encoded here in the RISC-V base formats. *)

(** Modelled from the spec: [bits] of opcodes.h is missing; the field
    [hi..lo] of a word. *)
Definition bits (value hi lo : Z) : Z :=
  Z.land (Z.shiftr value lo) (Z.shiftl 1 (hi + 1 - lo) - 1).

(** Modelled from the spec: [bit] of opcodes.h is missing; bit [b] of a
    word. *)
Definition bit (value b : Z) : Z := Z.land (Z.shiftr value b) 1.

(** Modelled from the spec: the register numbers and the opcode patterns
    of opcodes.h and encoding.h are missing; these are the RISC-V ones. *)
Definition ZERO : Z := 0.
Definition S1 : Z := 9.
Definition MATCH_JAL : Z := 0x6f.
Definition MATCH_XORI : Z := 0x4013.
Definition MATCH_SRLI : Z := 0x5013.
Definition MATCH_SW : Z := 0x2023.

(** Modelled from the spec: [jal] of opcodes.h is missing; the relative
    jump of the spec, a J-type word with the offset [imm] scattered over
    bits 31..12. *)
Definition jal (rd imm : Z) : Z :=
  u32 (Z.lor (Z.shiftl (bit imm 20) 31)
      (Z.lor (Z.shiftl (bits imm 10 1) 21)
      (Z.lor (Z.shiftl (bit imm 11) 20)
      (Z.lor (Z.shiftl (bits imm 19 12) 12)
      (Z.lor (Z.shiftl rd 7) MATCH_JAL))))).

(** Modelled from the spec: [xori] of opcodes.h is missing; an I-type
    word of the probe sequence. *)
Definition xori (dest src imm : Z) : Z :=
  u32 (Z.lor (Z.shiftl (bits (u16 imm) 11 0) 20)
      (Z.lor (Z.shiftl src 15) (Z.lor (Z.shiftl dest 7) MATCH_XORI))).

(** Modelled from the spec: [srli] of opcodes.h is missing; an I-type
    shift of the probe sequence. *)
Definition srli (dest src shamt : Z) : Z :=
  u32 (Z.lor (Z.shiftl (bits (u8 shamt) 4 0) 20)
      (Z.lor (Z.shiftl src 15) (Z.lor (Z.shiftl dest 7) MATCH_SRLI))).

(** Modelled from the spec: [sw] of opcodes.h is missing; an S-type
    store of the probe sequence. *)
Definition sw (src base offset : Z) : Z :=
  u32 (Z.lor (Z.shiftl (bits (u16 offset) 11 5) 25)
      (Z.lor (Z.shiftl src 20)
      (Z.lor (Z.shiftl base 15)
      (Z.lor (Z.shiftl (bits (u16 offset) 4 0) 7) MATCH_SW)))).

(** The signed offset a JAL word carries (the J-type immediate, bit 0
    implicit): the decoder used to read a staged jump back. *)
Definition jal_offset (insn : Z) : Z :=
  let imm := Z.lor (Z.shiftl (bit insn 31) 20)
            (Z.lor (Z.shiftl (bits insn 19 12) 12)
            (Z.lor (Z.shiftl (bit insn 20) 11)
                   (Z.shiftl (bits insn 30 21) 1))) in
  if Z.testbit imm 20 then imm - 2 ^ 21 else imm.

(** ** The target and its environment *)

(** [riscv_info_t].  [dram] is the pointer to the host copy of Debug
    RAM: [None] for NULL, [Some n] for a block of [n] bytes. *)
Record riscv_info_t : Set := mk_info {
  addrbits : Z;
  xlen : Z;
  dbus_address : Z;
  dbus_op : dbus_op_t;
  dramsize : Z;
  dram : option Z;
  dram_valid : Z
}.

(** Modelled from the spec: [enum target_state] belongs to target.h, which
    is not among the sources; riscv.c names three of its values, and the
    spec calls the initial one Unexamined. *)
Inductive target_state : Set :=
| TARGET_UNKNOWN
| TARGET_RUNNING
| TARGET_HALTED
| TARGET_RESET
| TARGET_DEBUG_RUNNING.

(** A command handed to the JTAG queue: an IR scan of a selector, or a DR
    scan of one field ([out_value] is [None] for a NULL out buffer). *)
Inductive jtag_cmd : Set :=
| IrScan (num_bits : Z) (out_value : Z)
| DrScan (num_bits : Z) (out_value : option Z).

(** What one [jtag_execute_queue] answers: its return value and the
    content of the in buffer of the DR scan it executed. *)
Record jtag_reply : Set := mk_reply {
  retval : Z;
  in_value : Z
}.

(** The messages of [LOG_ERROR], with their arguments. *)
Inductive log_msg : Set :=
| dbus_scan_failed
| dbus_read_failed (address result : Z)
| dbus_write_failed (value address result : Z)
| dtminfo_read_failed
| dram_check_mismatch (expected index actual : Z)
| authentication_required (dminfo : Z).

(** [struct target] with what riscv.c reaches through it, the two
    file-scope selectors, and the environment: the commands queued so far
    (in order), the number of queue executions, the adapter's reply to the
    [n]-th execution, whether the allocator has memory, and the content
    an uninitialised [uint64_t] local happens to have. *)
Record target : Type := mk_target {
  state : target_state;
  examined : bool;
  ir_length : Z;
  arch_info : option riscv_info_t;
  select_dtminfo_num_bits : Z;
  select_dbus_num_bits : Z;
  jtag_queue : list jtag_cmd;
  jtag_executions : nat;
  jtag_replies : nat -> jtag_reply;
  heap_available : bool;
  uninitialised : Z;
  log : list log_msg
}.

Definition with_state (v : target_state) (t : target) : target :=
  mk_target v (examined t) (ir_length t) (arch_info t)
    (select_dtminfo_num_bits t) (select_dbus_num_bits t) (jtag_queue t)
    (jtag_executions t) (jtag_replies t) (heap_available t)
    (uninitialised t) (log t).

Definition with_examined (v : bool) (t : target) : target :=
  mk_target (state t) v (ir_length t) (arch_info t)
    (select_dtminfo_num_bits t) (select_dbus_num_bits t) (jtag_queue t)
    (jtag_executions t) (jtag_replies t) (heap_available t)
    (uninitialised t) (log t).

Definition with_arch_info (v : option riscv_info_t) (t : target) : target :=
  mk_target (state t) (examined t) (ir_length t) v
    (select_dtminfo_num_bits t) (select_dbus_num_bits t) (jtag_queue t)
    (jtag_executions t) (jtag_replies t) (heap_available t)
    (uninitialised t) (log t).

Definition with_selectors (v : Z) (t : target) : target :=
  mk_target (state t) (examined t) (ir_length t) (arch_info t)
    v v (jtag_queue t)
    (jtag_executions t) (jtag_replies t) (heap_available t)
    (uninitialised t) (log t).

Definition with_jtag_queue (v : list jtag_cmd) (t : target) : target :=
  mk_target (state t) (examined t) (ir_length t) (arch_info t)
    (select_dtminfo_num_bits t) (select_dbus_num_bits t) v
    (jtag_executions t) (jtag_replies t) (heap_available t)
    (uninitialised t) (log t).

Definition with_jtag_executions (v : nat) (t : target) : target :=
  mk_target (state t) (examined t) (ir_length t) (arch_info t)
    (select_dtminfo_num_bits t) (select_dbus_num_bits t) (jtag_queue t)
    v (jtag_replies t) (heap_available t)
    (uninitialised t) (log t).

Definition with_log (v : list log_msg) (t : target) : target :=
  mk_target (state t) (examined t) (ir_length t) (arch_info t)
    (select_dtminfo_num_bits t) (select_dbus_num_bits t) (jtag_queue t)
    (jtag_executions t) (jtag_replies t) (heap_available t)
    (uninitialised t) v.

Definition with_cache (address : Z) (op : dbus_op_t) (i : riscv_info_t)
  : riscv_info_t :=
  mk_info (addrbits i) (xlen i) address op (dramsize i) (dram i)
    (dram_valid i).

Definition with_addrbits (v : Z) (i : riscv_info_t) : riscv_info_t :=
  mk_info v (xlen i) (dbus_address i) (dbus_op i) (dramsize i) (dram i)
    (dram_valid i).

Definition with_dramsize (v : Z) (i : riscv_info_t) : riscv_info_t :=
  mk_info (addrbits i) (xlen i) (dbus_address i) (dbus_op i) v (dram i)
    (dram_valid i).

Definition with_dram (v : option Z) (i : riscv_info_t) : riscv_info_t :=
  mk_info (addrbits i) (xlen i) (dbus_address i) (dbus_op i) (dramsize i) v
    (dram_valid i).

Definition with_dram_valid (v : Z) (i : riscv_info_t) : riscv_info_t :=
  mk_info (addrbits i) (xlen i) (dbus_address i) (dbus_op i) (dramsize i)
    (dram i) v.

(** ** Outcomes

    A call returns ([Done]), stops the program ([Fault]: a failed
    [assert], or a dereference of a NULL [arch_info]), or is still inside
    a retry loop when the fuel given to the model is used up
    ([OutOfFuel]).  Every outcome carries the target as it is then. *)
Inductive fault : Set := AssertionFailed | NullPointer.

Inductive outcome (A : Type) : Type :=
| Done (a : A) (t : target)
| Fault (f : fault) (t : target)
| OutOfFuel (t : target).
Arguments Done {A} a t.
Arguments Fault {A} f t.
Arguments OutOfFuel {A} t.

Definition M (A : Type) : Type := target -> outcome A.

Definition ret {A : Type} (a : A) : M A := fun t => Done a t.

Definition bind {A B : Type} (m : M A) (k : A -> M B) : M B :=
  fun t =>
    match m t with
    | Done a t' => k a t'
    | Fault f t' => Fault f t'
    | OutOfFuel t' => OutOfFuel t'
    end.

Notation "x <- m ;; k" := (bind m (fun x => k))
  (at level 61, m at next level, right associativity).
Notation "m ;;; k" := (bind m (fun _ => k))
  (at level 61, right associativity).

Definition final {A : Type} (o : outcome A) : target :=
  match o with
  | Done _ t => t
  | Fault _ t => t
  | OutOfFuel t => t
  end.

Definition get : M target := fun t => Done t t.
Definition modify (f : target -> target) : M unit := fun t => Done tt (f t).
Definition stop {A : Type} (f : fault) : M A := fun t => Fault f t.
Definition out_of_fuel {A : Type} : M A := fun t => OutOfFuel t.

(** [assert(c)] *)
Definition assert (c : bool) : M unit :=
  if c then ret tt else stop AssertionFailed.

(** [(riscv_info_t * ) target->arch_info], dereferenced. *)
Definition get_info : M riscv_info_t :=
  fun t =>
    match arch_info t with
    | Some i => Done i t
    | None => Fault NullPointer t
    end.

Definition set_info (i : riscv_info_t) : M unit :=
  modify (with_arch_info (Some i)).

Definition LOG_ERROR (m : log_msg) : M unit :=
  modify (fun t => with_log (log t ++ [m]) t).

(** ** The JTAG layer, as riscv.c uses it *)

Definition jtag_add_ir_scan (num_bits out_value : Z) : M unit :=
  modify (fun t => with_jtag_queue (jtag_queue t ++ [IrScan num_bits out_value]) t).

(** Only the low [num_bits] bits of the out buffer are shifted. *)
Definition jtag_add_dr_scan (num_bits : Z) (out_value : option Z) : M unit :=
  modify (fun t =>
    with_jtag_queue
      (jtag_queue t ++
       [DrScan num_bits (option_map (fun o => o mod 2 ^ num_bits) out_value)])
      t).

Definition jtag_execute_queue : M jtag_reply :=
  fun t =>
    Done (jtag_replies t (jtag_executions t))
         (with_jtag_executions (S (jtag_executions t)) t).

(** ** The debug-bus access engine *)

(** The content of the out buffer of [dbus_scan] after its three
    [buf_set_u64].  The C array is not initialised; the stores cover every
    bit that is shifted, and [dbus_out_any_buffer] below shows that the
    bits sent do not depend on what the array held, so the model starts
    from [0]. *)
Definition dbus_out_from (buffer0 abits : Z) (op : dbus_op_t)
    (address data_out : Z) : Z :=
  buf_set_u64
    (buf_set_u64
       (buf_set_u64 buffer0 DBUS_OP_START DBUS_OP_SIZE (dbus_op_code op))
       DBUS_DATA_START DBUS_DATA_SIZE data_out)
    DBUS_ADDRESS_START abits address.

Definition dbus_out : Z -> dbus_op_t -> Z -> Z -> Z := dbus_out_from 0.

(** [static dbus_result_t dbus_scan(target, data_in, op, address, data_out)].
    [data_in] is [None] for a NULL pointer and [Some v] for a pointer to a
    [uint64_t] holding [v]; the second component of the result is what
    the pointer designates afterwards. *)
Definition dbus_scan (data_in : option Z) (op : dbus_op_t)
    (address data_out : Z) : M (Z * option Z) :=
  info <- get_info ;;
  assert (negb (addrbits info =? 0)) ;;;
  jtag_add_dr_scan (addrbits info + DBUS_OP_SIZE + DBUS_DATA_SIZE)
    (Some (dbus_out (addrbits info) op address data_out)) ;;;
  set_info (with_cache address op info) ;;;
  reply <- jtag_execute_queue ;;
  if negb (retval reply =? ERROR_OK) then
    LOG_ERROR dbus_scan_failed ;;;
    ret (retval reply, data_in)
  else
    ret (buf_get_u64 (in_value reply) DBUS_OP_START DBUS_OP_SIZE,
         match data_in with
         | Some _ =>
             Some (buf_get_u64 (in_value reply) DBUS_DATA_START DBUS_DATA_SIZE)
         | None => None
         end).

(** The loop [while (result == DBUS_RESULT_BUSY) result = dbus_scan(...);]
    that [dbus_read] has twice and [dbus_write] once, entered with
    [result]; [fuel] bounds the number of iterations of the model only. *)
Fixpoint scan_while_busy (fuel : nat) (data_in : option Z) (op : dbus_op_t)
    (address data_out result : Z) {struct fuel} : M (Z * option Z) :=
  if result =? DBUS_RESULT_BUSY then
    match fuel with
    | O => out_of_fuel
    | S fuel' =>
        r <- dbus_scan data_in op address data_out ;;
        scan_while_busy fuel' (snd r) op address data_out (fst r)
    end
  else ret (result, data_in).

Definition deref (p : option Z) (otherwise : Z) : Z :=
  match p with
  | Some v => v
  | None => otherwise
  end.

(** [static uint64_t dbus_read(target, address, next_address)] *)
Definition dbus_read (fuel : nat) (address next_address : Z) : M Z :=
  info <- get_info ;;
  t0 <- get ;;
  let value := uninitialised t0 in
  (if negb (address =? dbus_address info)
      || dbus_op_eqb (dbus_op info) DBUS_OP_NOP
   then
     scan_while_busy fuel None DBUS_OP_READ address 0 DBUS_RESULT_BUSY ;;;
     ret tt
   else ret tt) ;;;
  r <- scan_while_busy fuel (Some value) DBUS_OP_READ next_address 0
         DBUS_RESULT_BUSY ;;
  (if negb (fst r =? DBUS_RESULT_SUCCESS)
   then LOG_ERROR (dbus_read_failed address (fst r))
   else ret tt) ;;;
  ret (deref (snd r) value).

(** [static void dbus_write(target, address, value)] *)
Definition dbus_write (fuel : nat) (address value : Z) : M unit :=
  r <- scan_while_busy fuel None DBUS_OP_WRITE address value
         DBUS_RESULT_BUSY ;;
  if negb (fst r =? DBUS_RESULT_SUCCESS)
  then LOG_ERROR (dbus_write_failed value address (fst r))
  else ret tt.

(** [static uint32_t dtminfo_read(target)] *)
Definition dtminfo_read : M Z :=
  t0 <- get ;;
  jtag_add_ir_scan (select_dtminfo_num_bits t0) DTMINFO ;;;
  jtag_add_dr_scan 32 None ;;;
  reply <- jtag_execute_queue ;;
  if negb (retval reply =? ERROR_OK) then
    LOG_ERROR dtminfo_read_failed ;;;
    ret (u32 (retval reply))
  else
    jtag_add_ir_scan (select_dbus_num_bits t0) DBUS ;;;
    ret (buf_get_u32 (in_value reply) 0 32).

(** ** Debug RAM *)

(** [static uint32_t dram_read32(target, index, set_interrupt)] *)
Definition dram_read32 (fuel : nat) (index : Z) (set_interrupt : bool)
  : M Z :=
  let address := dram_address index in
  v <- dbus_read fuel address address ;;
  ret (u32 v).

(** [static void dram_write32(target, index, value, set_interrupt)] *)
Definition dram_write32 (fuel : nat) (index value : Z)
    (set_interrupt : bool) : M unit :=
  let dbus_value := Z.lor DMCONTROL_HALTNOT value in
  let dbus_value :=
    if set_interrupt then Z.lor dbus_value DMCONTROL_INTERRUPT
    else dbus_value in
  dbus_write fuel (dram_address index) dbus_value.

(** [static void dram_check32(target, index, expected)] *)
Definition dram_check32 (fuel : nat) (index expected : Z) : M unit :=
  actual <- dram_read32 fuel index false ;;
  if negb (expected =? actual)
  then LOG_ERROR (dram_check_mismatch expected index actual)
  else ret tt.

(** The second argument of [jal] in [dram_write_jump]:
    [(uint32_t) (DEBUG_ROM_RESUME - (DEBUG_RAM_START + 4*index))]. *)
Definition resume_jump_offset (index : Z) : Z :=
  u32 (DEBUG_ROM_RESUME - (DEBUG_RAM_START + 4 * index)).

(** [static void dram_write_jump(target, index, set_interrupt)] *)
Definition dram_write_jump (fuel : nat) (index : Z) (set_interrupt : bool)
  : M unit :=
  dram_write32 fuel index (jal 0 (resume_jump_offset index)) set_interrupt.

(** ** Target functions *)

(** Allocation: the block asked for, or NULL when the allocator has no
    memory. *)
Definition allocate (size : Z) : M (option Z) :=
  t0 <- get ;;
  ret (if heap_available t0 then Some size else None).

(** [static int riscv_init_target(cmd_ctx, target)]; [calloc] hands out
    the structure with every field zero. *)
Definition riscv_init_target : M Z :=
  p <- allocate 1 ;;
  match p with
  | None =>
      modify (with_arch_info None) ;;;
      ret ERROR_FAIL
  | Some _ =>
      set_info (mk_info 0 0 DBUS_ADDRESS_UNKNOWN DBUS_OP_NOP 0 None 0) ;;;
      t0 <- get ;;
      modify (with_selectors (ir_length t0)) ;;;
      ret ERROR_OK
  end.

Definition target_was_examined : M bool :=
  t0 <- get ;; ret (examined t0).

Definition target_set_examined : M unit := modify (with_examined true).

(** [static int riscv_examine(target)] *)
Definition riscv_examine (fuel : nat) : M Z :=
  was <- target_was_examined ;;
  if was then ret ERROR_OK
  else
    dtminfo <- dtminfo_read ;;
    info <- get_info ;;
    set_info (with_addrbits (u8 (get_field dtminfo DTMINFO_ADDRBITS)) info) ;;;
    v <- dbus_read fuel DMINFO 0 ;;
    let dminfo := u32 v in
    info <- get_info ;;
    let size := dramsize_of_dminfo dminfo in
    set_info (with_dramsize size info) ;;;
    p <- allocate (u32 (size * 4)) ;;
    info <- get_info ;;
    set_info (with_dram p info) ;;;
    match p with
    | None => ret ERROR_FAIL
    | Some _ =>
        info <- get_info ;;
        set_info (with_dram_valid 0 info) ;;;
        if negb (get_field dminfo DMINFO_AUTHTYPE =? 0) then
          LOG_ERROR (authentication_required dminfo) ;;;
          ret ERROR_FAIL
        else
          dram_write32 fuel 0 (xori S1 ZERO (-1)) false ;;;
          dram_write32 fuel 1 (srli S1 S1 31) false ;;;
          dram_write32 fuel 2 (sw S1 ZERO DEBUG_RAM_START) false ;;;
          dram_write32 fuel 3 (srli S1 S1 31) false ;;;
          dram_write32 fuel 4 (sw S1 ZERO (DEBUG_RAM_START + 4)) false ;;;
          dram_write_jump fuel 5 true ;;;
          dram_check32 fuel 0 (xori S1 ZERO (-1)) ;;;
          dram_check32 fuel 1 (srli S1 S1 31) ;;;
          dram_check32 fuel 2 (sw S1 ZERO DEBUG_RAM_START) ;;;
          dram_check32 fuel 3 (srli S1 S1 31) ;;;
          dram_check32 fuel 4 (sw S1 ZERO (DEBUG_RAM_START + 4)) ;;;
          target_set_examined ;;;
          ret ERROR_OK
    end.

(** The three assignments and the empty branch of [riscv_poll]. *)
Definition poll_state (haltnot interrupt : bool) (old : target_state)
  : target_state :=
  if haltnot && interrupt then TARGET_DEBUG_RUNNING
  else if haltnot && negb interrupt then TARGET_HALTED
  else if negb haltnot && interrupt then old
  else if negb haltnot && negb interrupt then TARGET_RUNNING
  else old.

(** [static int riscv_poll(target)] *)
Definition riscv_poll (fuel : nat) : M Z :=
  info <- get_info ;;
  value <-
    (if (dbus_address info <? 0x10) || (dbus_address info =? DMCONTROL)
     then dbus_read fuel (dbus_address info) 0
     else dbus_read fuel 0 0) ;;
  let haltnot := negb (get_field value DMCONTROL_HALTNOT =? 0) in
  let interrupt := negb (get_field value DMCONTROL_INTERRUPT =? 0) in
  t0 <- get ;;
  modify (with_state (poll_state haltnot interrupt (state t0))) ;;;
  ret ERROR_OK.

(** ** Reading a run

    Definitions used to state what a call did: the replies ahead of a
    target, the command a debug-bus scan puts on the queue, the target
    after one or several scans, and decoders for the fields of a queued
    command. *)

(** The reply to the [n]-th queue execution from now. *)
Definition reply_at (t : target) (n : nat) : jtag_reply :=
  jtag_replies t (jtag_executions t + n).

(** The result [dbus_scan] returns on a reply. *)
Definition reply_result (r : jtag_reply) : Z :=
  if retval r =? ERROR_OK
  then buf_get_u64 (in_value r) DBUS_OP_START DBUS_OP_SIZE
  else retval r.

(** What [data_in] designates after a scan answered by [r]. *)
Definition store (data_in : option Z) (r : jtag_reply) : option Z :=
  if retval r =? ERROR_OK then
    match data_in with
    | Some _ =>
        Some (buf_get_u64 (in_value r) DBUS_DATA_START DBUS_DATA_SIZE)
    | None => None
    end
  else data_in.

(** What [data_in] designates after the [n] scans from scan [start] on. *)
Fixpoint stored (t : target) (start n : nat) (data_in : option Z)
  : option Z :=
  match n with
  | O => data_in
  | S m => stored t (S start) m (store data_in (reply_at t start))
  end.

(** The scans [start], ..., [start+k-1] from now are answered BUSY and
    scan [start+k] is answered something else. *)
Fixpoint busy_until (t : target) (start k : nat) : bool :=
  match k with
  | O => negb (reply_result (reply_at t start) =? DBUS_RESULT_BUSY)
  | S k' =>
      (reply_result (reply_at t start) =? DBUS_RESULT_BUSY)
      && busy_until t (S start) k'
  end.

(** The adapter executes the queue of scan [n] from now and answers the
    result code [code]. *)
Definition stub_answers (t : target) (n : nat) (code : Z) : bool :=
  (retval (reply_at t n) =? ERROR_OK)
  && (buf_get_u64 (in_value (reply_at t n)) DBUS_OP_START DBUS_OP_SIZE
      =? code).

(** From scan [start] on, the adapter answers BUSY exactly [k] times and
    then SUCCESS. *)
Fixpoint stub_busy_then_success (t : target) (start k : nat) : bool :=
  match k with
  | O => stub_answers t start DBUS_RESULT_SUCCESS
  | S k' =>
      stub_answers t start DBUS_RESULT_BUSY
      && stub_busy_then_success t (S start) k'
  end.

(** The DR scan [dbus_scan] queues on a bus of [abits] address bits. *)
Definition dbus_cmd (abits : Z) (op : dbus_op_t) (address data_out : Z)
  : jtag_cmd :=
  DrScan (abits + DBUS_OP_SIZE + DBUS_DATA_SIZE)
    (Some (dbus_out abits op address data_out
           mod 2 ^ (abits + DBUS_OP_SIZE + DBUS_DATA_SIZE))).

(** The target after one [dbus_scan] that passed its assertion. *)
Definition after_scan (op : dbus_op_t) (address data_out : Z) (t : target)
  : target :=
  match arch_info t with
  | None => t
  | Some i =>
      let r := reply_at t 0 in
      with_log
        (if retval r =? ERROR_OK then log t else log t ++ [dbus_scan_failed])
        (with_jtag_executions (S (jtag_executions t))
           (with_arch_info (Some (with_cache address op i))
              (with_jtag_queue
                 (jtag_queue t ++ [dbus_cmd (addrbits i) op address data_out])
                 t)))
  end.

Fixpoint after_scans (n : nat) (op : dbus_op_t) (address data_out : Z)
    (t : target) : target :=
  match n with
  | O => t
  | S m => after_scans m op address data_out (after_scan op address data_out t)
  end.

(** The fields of a queued debug-bus scan. *)
Definition scan_op (c : jtag_cmd) : option Z :=
  match c with
  | DrScan _ (Some out) => Some (buf_get_u64 out DBUS_OP_START DBUS_OP_SIZE)
  | _ => None
  end.

Definition scan_data (c : jtag_cmd) : option Z :=
  match c with
  | DrScan _ (Some out) =>
      Some (buf_get_u64 out DBUS_DATA_START DBUS_DATA_SIZE)
  | _ => None
  end.

Definition scan_address (c : jtag_cmd) : option Z :=
  match c with
  | DrScan n (Some out) =>
      Some (buf_get_u64 out DBUS_ADDRESS_START
              (n - DBUS_OP_SIZE - DBUS_DATA_SIZE))
  | _ => None
  end.

(** Does a call come back (with a value or by stopping the program), or
    is it still looping when the fuel ends? *)
Definition terminates {A : Type} (o : outcome A) : bool :=
  match o with
  | OutOfFuel _ => false
  | _ => true
  end.

(** ** Relations between the target before and after a call *)

(** [m] relates every target to the one it leaves behind, whatever the
    outcome. *)
Definition keeps {A : Type} (R : target -> target -> Prop) (m : M A)
  : Prop :=
  forall t, R t (final (m t)).

(** The lifecycle state is untouched. *)
Definition same_state (t t' : target) : Prop := state t' = state t.

(** The validity mask of the Debug RAM copy is untouched or cleared. *)
Definition mask_kept_or_cleared (t t' : target) : Prop :=
  forall i, arch_info t = Some i ->
    exists i', arch_info t' = Some i' /\
               (dram_valid i' = dram_valid i \/ dram_valid i' = 0).

(** The validity mask of the Debug RAM copy is untouched. *)
Definition same_mask (t t' : target) : Prop :=
  forall i, arch_info t = Some i ->
    exists i', arch_info t' = Some i' /\ dram_valid i' = dram_valid i.

(** A queued command is a debug-bus READ with an all-zero data field. *)
Definition read_only_scan (c : jtag_cmd) : Prop :=
  scan_op c = Some (dbus_op_code DBUS_OP_READ) /\ scan_data c = Some 0.

(** The address width is untouched and only READ scans with a zero data
    field were queued. *)
Definition queued_reads_only (t t' : target) : Prop :=
  forall i, arch_info t = Some i -> 0 <= addrbits i ->
    exists i' l, arch_info t' = Some i' /\ addrbits i' = addrbits i /\
                 jtag_queue t' = jtag_queue t ++ l /\
                 Forall read_only_scan l.

(** The cache names [address] with an operation other than NOP: the
    negation of the test [dbus_read] makes before its first loop. *)
Definition cache_shows (i : riscv_info_t) (address : Z) : bool :=
  (dbus_address i =? address)
  && negb (dbus_op_eqb (dbus_op i) DBUS_OP_NOP).

(** The address [riscv_poll] reads. *)
Definition poll_address (i : riscv_info_t) : Z :=
  if (dbus_address i <? 0x10) || (dbus_address i =? DMCONTROL)
  then dbus_address i else 0.

(** The 34-bit word [dram_write32] hands to [dbus_write]. *)
Definition dram_word (value : Z) (set_interrupt : bool) : Z :=
  if set_interrupt
  then Z.lor (Z.lor DMCONTROL_HALTNOT value) DMCONTROL_INTERRUPT
  else Z.lor DMCONTROL_HALTNOT value.

(** The jump offset of the instruction a queued scan carries in the low
    32 bits of its data field. *)
Definition staged_jump_offset (c : jtag_cmd) : option Z :=
  option_map (fun d => jal_offset (u32 d)) (scan_data c).

(** ** Sample sessions *)

(** A reply of an adapter that executed the queue: result code and data
    in the layout of the debug-bus register. *)
Definition answer (code data : Z) : jtag_reply :=
  mk_reply ERROR_OK (code + 4 * data).

(** A reply of an adapter that could not execute the queue. *)
Definition transport_failure : jtag_reply := mk_reply ERROR_FAIL 0.

Definition replies (l : list jtag_reply) (rest : jtag_reply)
  : nat -> jtag_reply :=
  fun n => nth n l rest.

Definition sample_info (abits address : Z) (op : dbus_op_t)
  : riscv_info_t :=
  mk_info abits 0 address op 0 None 0.

(** A target with an attached session, an empty queue and log, and the
    given replies ahead. *)
Definition sample_session (i : riscv_info_t) (r : nat -> jtag_reply)
  : target :=
  mk_target TARGET_UNKNOWN false 5 (Some i) 5 5 [] 0 r true 0 [].

(** A target before [riscv_init_target]. *)
Definition fresh_target (r : nat -> jtag_reply) : target :=
  mk_target TARGET_UNKNOWN false 5 None 0 0 [] 0 r true 0 [].

(** A session whose adapter answers BUSY to every scan. *)
Definition always_busy_session : target :=
  sample_session (sample_info 5 DBUS_ADDRESS_UNKNOWN DBUS_OP_NOP)
    (fun _ => answer DBUS_RESULT_BUSY 0).

(** ** More of riscv.c *)

(** [#define set_field(reg, mask, val)
     (((reg) & ~(mask)) | (((val) * ((mask) & ~((mask) << 1))) & (mask)))] *)
Definition set_field (reg mask val : Z) : Z :=
  Z.lor (Z.land reg (Z.lnot mask))
        (Z.land (val * Z.land mask (Z.lnot (Z.shiftl mask 1))) mask).

(** [static void riscv_deinit_target(target)]: [info->dram] is read
    through the pointer before both blocks are freed. *)
Definition riscv_deinit_target : M unit :=
  info <- get_info ;;
  modify (with_arch_info None).

(** [static int riscv_halt(target)].  The first word staged is
    [csrsi(CSR_DCSR, DCSR_HALT)]; [csrsi] and the two constants belong to
    opcodes.h and encoding.h, which are not among the sources, so the
    word is the parameter [halt_insn]. *)
Definition riscv_halt (halt_insn : Z) (fuel : nat) : M Z :=
  dram_write32 fuel 0 halt_insn false ;;;
  dram_write_jump fuel 1 true ;;;
  ret ERROR_OK.

(** The [LOG_ERROR("dbus_scan failed jtag scan")] lines of the [n] scans
    from scan [start] on: one for each queue execution that failed. *)
Fixpoint scan_failures (t : target) (start n : nat) : list log_msg :=
  match n with
  | O => []
  | S m =>
      (if retval (reply_at t start) =? ERROR_OK then []
       else [dbus_scan_failed])
      ++ scan_failures t (S start) m
  end.

(** From scan [start] on, the adapter executes every queue, answering
    BUSY exactly [k] times and then the result code [code]. *)
Fixpoint stub_busy_then (t : target) (start k : nat) (code : Z) : bool :=
  match k with
  | O => stub_answers t start code
  | S k' =>
      stub_answers t start DBUS_RESULT_BUSY
      && stub_busy_then t (S start) k' code
  end.

(** The data field of a reply, as [dbus_scan] stores it. *)
Definition reply_data (r : jtag_reply) : Z :=
  buf_get_u64 (in_value r) DBUS_DATA_START DBUS_DATA_SIZE.

(** The transition table of [riscv_poll], by cases on the two bits. *)
Definition poll_table (haltnot interrupt : bool) (old : target_state)
  : target_state :=
  match haltnot, interrupt with
  | true, true => TARGET_DEBUG_RUNNING
  | true, false => TARGET_HALTED
  | false, false => TARGET_RUNNING
  | false, true => old
  end.





(** ** The ESP32-H2 target (src/target/espressif/esp32h2.c)

    The chip glue calls into layers that are not among the sources
    (memory access, the debug module interface, core control).  Each
    such call is an event: it is recorded, and answered by the
    environment with a return code and, for reads, a value. *)

(** Modelled from the spec: [BIT] belongs to helper/bits.h, which is not
    among the sources; [BIT(nr)] is the word with bit [nr] set alone. *)
Definition BIT (nr : Z) : Z := Z.shiftl 1 nr.

Definition ESP32H2_WDT_WKEY_VALUE : Z := 0x50d83aa1.
Definition ESP32H2_TIMG0_BASE : Z := 0x60009000.
Definition ESP32H2_TIMG1_BASE : Z := 0x6000A000.
Definition ESP32H2_TIMGWDT_CFG0_OFF : Z := 0x48.
Definition ESP32H2_TIMGWDT_PROTECT_OFF : Z := 0x64.
Definition ESP32H2_TIMG0WDT_CFG0 : Z :=
  ESP32H2_TIMG0_BASE + ESP32H2_TIMGWDT_CFG0_OFF.
Definition ESP32H2_TIMG1WDT_CFG0 : Z :=
  ESP32H2_TIMG1_BASE + ESP32H2_TIMGWDT_CFG0_OFF.
Definition ESP32H2_TIMG0WDT_PROTECT : Z :=
  ESP32H2_TIMG0_BASE + ESP32H2_TIMGWDT_PROTECT_OFF.
Definition ESP32H2_TIMG1WDT_PROTECT : Z :=
  ESP32H2_TIMG1_BASE + ESP32H2_TIMGWDT_PROTECT_OFF.
Definition ESP32H2_LP_CLKRST_BASE : Z := 0x600B0400.
Definition ESP32H2_LP_CLKRST_RESET_CAUSE_REG : Z :=
  ESP32H2_LP_CLKRST_BASE + 0x10.
Definition ESP32H2_LP_WDT_BASE : Z := 0x600B1C00.
Definition ESP32H2_LP_WDT_CONFIG0_REG : Z := ESP32H2_LP_WDT_BASE + 0x0.
Definition ESP32H2_LP_WDT_WPROTECT_REG : Z := ESP32H2_LP_WDT_BASE + 0x18.
Definition ESP32H2_LP_WDT_SWD_PROTECT_REG : Z := ESP32H2_LP_WDT_BASE + 0x20.
Definition ESP32H2_LP_WDT_SWD_CFG_REG : Z := ESP32H2_LP_WDT_BASE + 0x1C.
Definition ESP32H2_RTCCNTL_RESET_STATE_REG : Z :=
  ESP32H2_LP_CLKRST_RESET_CAUSE_REG.

Definition ESP32H2_GPIO_BASE : Z := 0x60091000.
Definition ESP32H2_GPIO_STRAP_REG_OFF : Z := 0x0038.
Definition ESP32H2_GPIO_STRAP_REG : Z :=
  ESP32H2_GPIO_BASE + ESP32H2_GPIO_STRAP_REG_OFF.

(** [#define IS_1XXX(v) (((v) & 0x08) == 0x08)] *)
Definition IS_1XXX (v : Z) : bool := Z.land v 0x08 =? 0x08.
(** [#define IS_0100(v) (((v) & 0x0f) == 0x04)] *)
Definition IS_0100 (v : Z) : bool := Z.land v 0x0f =? 0x04.
(** [#define ESP32H2_IS_FLASH_BOOT(_r_) (IS_1XXX(_r_) || IS_0100(_r_))] *)
Definition ESP32H2_IS_FLASH_BOOT (r : Z) : bool := IS_1XXX r || IS_0100 r.
Definition ESP32H2_FLASH_BOOT_MODE : Z := 0x08.

Definition ESP32H2_RTCCNTL_RESET_CAUSE_MASK : Z := BIT 5 - 1.
(** [#define ESP32H2_RESET_CAUSE(reg_val)
     ((reg_val) & ESP32H2_RTCCNTL_RESET_CAUSE_MASK)] *)
Definition ESP32H2_RESET_CAUSE (reg_val : Z) : Z :=
  Z.land reg_val ESP32H2_RTCCNTL_RESET_CAUSE_MASK.

(** [enum esp32h2_reset_reason] *)
Definition ESP32H2_CHIP_POWER_ON_RESET : Z := 0x01.
Definition ESP32H2_RTC_SW_SYS_RESET : Z := 0x03.
Definition ESP32H2_DEEPSLEEP_RESET : Z := 0x05.
Definition ESP32H2_TG0WDT_SYS_RESET : Z := 0x07.
Definition ESP32H2_TG1WDT_SYS_RESET : Z := 0x08.
Definition ESP32H2_RTCWDT_SYS_RESET : Z := 0x09.
Definition ESP32H2_INTRUSION_RESET : Z := 0x0A.
Definition ESP32H2_TG0WDT_CPU_RESET : Z := 0x0B.
Definition ESP32H2_RTC_SW_CPU_RESET : Z := 0x0C.
Definition ESP32H2_RTCWDT_CPU_RESET : Z := 0x0D.
Definition ESP32H2_RTCWDT_BROWN_OUT_RESET : Z := 0x0F.
Definition ESP32H2_RTCWDT_RTC_RESET : Z := 0x10.
Definition ESP32H2_TG1WDT_CPU_RESET : Z := 0x11.
Definition ESP32H2_SUPER_WDT_RESET : Z := 0x12.
Definition ESP32H2_GLITCH_RTC_RESET : Z := 0x13.
Definition ESP32H2_EFUSE_RESET : Z := 0x14.
Definition ESP32H2_USB_UART_CHIP_RESET : Z := 0x15.
Definition ESP32H2_USB_JTAG_CHIP_RESET : Z := 0x16.
Definition ESP32H2_POWER_GLITCH_RESET : Z := 0x18.

(** [static const char *esp32h2_get_reset_reason(reset_number)] *)
Definition esp32h2_get_reset_reason (reset_number : Z) : string :=
  let cause := ESP32H2_RESET_CAUSE reset_number in
  if cause =? ESP32H2_CHIP_POWER_ON_RESET then "Power on reset"%string
  else if cause =? ESP32H2_RTC_SW_SYS_RESET then "Software core reset"%string
  else if cause =? ESP32H2_DEEPSLEEP_RESET then "Deep-sleep core reset"%string
  else if cause =? ESP32H2_TG0WDT_SYS_RESET then "TG0WDT0 core reset"%string
  else if cause =? ESP32H2_TG1WDT_SYS_RESET then "TG0WDT1 core reset"%string
  else if cause =? ESP32H2_RTCWDT_SYS_RESET then "RTC WDT core reset"%string
  else if cause =? ESP32H2_INTRUSION_RESET then "Instrusion CPU reset"%string
  else if cause =? ESP32H2_TG0WDT_CPU_RESET then "TG0WDT CPU reset"%string
  else if cause =? ESP32H2_RTC_SW_CPU_RESET then "Software CPU reset"%string
  else if cause =? ESP32H2_RTCWDT_CPU_RESET then "RTC WDT CPU reset"%string
  else if cause =? ESP32H2_RTCWDT_BROWN_OUT_RESET
       then "Brown-out reset"%string
  else if cause =? ESP32H2_RTCWDT_RTC_RESET
       then "RTC WDT core and rtc module reset"%string
  else if cause =? ESP32H2_TG1WDT_CPU_RESET then "TG1WDT CPU reset"%string
  else if cause =? ESP32H2_SUPER_WDT_RESET
       then "Super watchdog reset digital core and rtc module"%string
  else if cause =? ESP32H2_GLITCH_RTC_RESET
       then "Glitch reset digital core and rtc module"%string
  else if cause =? ESP32H2_EFUSE_RESET then "Efuse core reset"%string
  else if cause =? ESP32H2_USB_UART_CHIP_RESET
       then "USB (UART) core reset"%string
  else if cause =? ESP32H2_USB_JTAG_CHIP_RESET
       then "USB (JTAG) core reset"%string
  else if cause =? ESP32H2_POWER_GLITCH_RESET
       then "Power glitch reset digital core and rtc module"%string
  else "Unknown reset cause"%string.

(** The enumerators of [enum esp32h2_reset_reason]. *)
Definition esp32h2_reset_reasons : list Z :=
  [ESP32H2_CHIP_POWER_ON_RESET; ESP32H2_RTC_SW_SYS_RESET;
   ESP32H2_DEEPSLEEP_RESET; ESP32H2_TG0WDT_SYS_RESET;
   ESP32H2_TG1WDT_SYS_RESET; ESP32H2_RTCWDT_SYS_RESET;
   ESP32H2_INTRUSION_RESET; ESP32H2_TG0WDT_CPU_RESET;
   ESP32H2_RTC_SW_CPU_RESET; ESP32H2_RTCWDT_CPU_RESET;
   ESP32H2_RTCWDT_BROWN_OUT_RESET; ESP32H2_RTCWDT_RTC_RESET;
   ESP32H2_TG1WDT_CPU_RESET; ESP32H2_SUPER_WDT_RESET;
   ESP32H2_GLITCH_RTC_RESET; ESP32H2_EFUSE_RESET;
   ESP32H2_USB_UART_CHIP_RESET; ESP32H2_USB_JTAG_CHIP_RESET;
   ESP32H2_POWER_GLITCH_RESET].

(** The values a five-bit field can take. *)
Definition five_bit_values : list Z := map Z.of_nat (seq 0 32).

Definition is_reset_reason (c : Z) : bool :=
  existsb (Z.eqb c) esp32h2_reset_reasons.

(** On a five-bit cause: the text is the default one exactly off the
    enumerators, and two causes with the text of an enumerator are
    equal. *)
Definition reset_reason_check (c : Z) : bool :=
  Bool.eqb (String.eqb (esp32h2_get_reset_reason c) "Unknown reset cause")
           (negb (is_reset_reason c))
  && forallb
       (fun d =>
          implb (is_reset_reason c
                 && String.eqb (esp32h2_get_reset_reason c)
                               (esp32h2_get_reset_reason d))
                (c =? d))
       five_bit_values.

(** [s_existent_regs] *)
Definition s_existent_regs : list string :=
  ["zero"; "ra"; "sp"; "gp"; "tp"; "t0"; "t1"; "t2"; "t3"; "t4"; "t5"; "t6";
   "fp"; "pc"; "mstatus"; "misa"; "mtvec"; "mscratch"; "mepc"; "mcause";
   "mtval"; "priv";
   "s1"; "s2"; "s3"; "s4"; "s5"; "s6"; "s7"; "s8"; "s9"; "s10"; "s11";
   "a0"; "a1"; "a2"; "a3"; "a4"; "a5"; "a6"; "a7";
   "pmpcfg0"; "pmpcfg1"; "pmpcfg2"; "pmpcfg3";
   "pmpaddr0"; "pmpaddr1"; "pmpaddr2"; "pmpaddr3"; "pmpaddr4"; "pmpaddr5";
   "pmpaddr6"; "pmpaddr7";
   "pmpaddr8"; "pmpaddr9"; "pmpaddr10"; "pmpaddr11"; "pmpaddr12";
   "pmpaddr13"; "pmpaddr14"; "pmpaddr15";
   "tselect"; "tdata1"; "tdata2"; "tcontrol"; "dcsr"; "dpc"; "dscratch0";
   "dscratch1"; "hpmcounter16"]%string.

(** A register of [target->reg_cache->reg_list], with the two fields
    [esp32h2_examine] uses. *)
Record reg : Set := mk_reg {
  reg_name : string;
  reg_exist : bool
}.

(** The inner loop of [esp32h2_examine]: search [names] for [name] with
    [strcmp], leaving the loop at the first match. *)
Fixpoint listed (name : string) (names : list string) : bool :=
  match names with
  | [] => false
  | n :: rest => if String.eqb name n then true else listed name rest
  end.

(** The body of the outer loop of [esp32h2_examine] on one register. *)
Definition keep_existent (r : reg) : reg :=
  if reg_exist r
  then mk_reg (reg_name r) (listed (reg_name r) s_existent_regs)
  else r.

(** [static int esp32h2_examine(target)].  [riscv_target.examine] builds
    the register cache in a layer that is not among the sources; its
    return value and the register list it leaves are the arguments. *)
Definition esp32h2_examine (examine_ret : Z) (reg_list : list reg)
  : Z * list reg :=
  if negb (examine_ret =? ERROR_OK) then (examine_ret, reg_list)
  else (ERROR_OK, map keep_existent reg_list).

(** A call into a layer that is not among the sources. *)
Inductive esp_call : Set :=
| target_write_u32 (address value : Z)
| target_read_u32 (address : Z)
| dmi_read (address : Z)
| esp_riscv_core_halt
| esp_riscv_core_resume
| esp_riscv_core_ebreaks_enable
| semi_ops_post_reset
| rtos_post_reset_cleanup
| esp_riscv_poll.

(** What the environment answers to a call: the return code and, for a
    read, the value stored through the pointer. *)
Record esp_answer : Set := mk_answer {
  res : Z;
  value_read : Z
}.

(** The lines of [LOG_ERROR], [LOG_WARNING] and [LOG_INFO]. *)
Inductive esp_log_line : Set :=
| esp_error (text : string) (code : Z)
| esp_warning (text : string) (code : Z)
| esp_reset_cause (cause : Z) (reason : string).

(** [struct esp32h2_common] and what [esp32h2_poll] reaches from the
    target ([was_reset]; whether [r->dmi_read] and [r->dmi_write],
    [semi_ops->post_reset] and the RTOS clean-up hook are set), with the
    environment: the calls made so far and the answer to the [n]-th
    call. *)
Record esp32h2 : Type := mk_esp32h2 {
  was_reset : bool;
  has_dmi : bool;
  has_post_reset : bool;
  has_rtos_cleanup : bool;
  esp_calls : list esp_call;
  esp_answers : nat -> esp_answer;
  esp_log : list esp_log_line
}.

Definition with_was_reset (v : bool) (s : esp32h2) : esp32h2 :=
  mk_esp32h2 v (has_dmi s) (has_post_reset s) (has_rtos_cleanup s)
    (esp_calls s) (esp_answers s) (esp_log s).

Definition esp_call_of (c : esp_call) (s : esp32h2)
  : esp_answer * esp32h2 :=
  (esp_answers s (length (esp_calls s)),
   mk_esp32h2 (was_reset s) (has_dmi s) (has_post_reset s)
     (has_rtos_cleanup s) (esp_calls s ++ [c]) (esp_answers s) (esp_log s)).

Definition esp_log_add (l : esp_log_line) (s : esp32h2) : esp32h2 :=
  mk_esp32h2 (was_reset s) (has_dmi s) (has_post_reset s)
    (has_rtos_cleanup s) (esp_calls s) (esp_answers s) (esp_log s ++ [l]).

(** [static int esp32h2_wdt_disable(target)] *)
Definition esp32h2_wdt_disable (s : esp32h2) : Z * esp32h2 :=
  let '(a, s) :=
    esp_call_of
      (target_write_u32 ESP32H2_TIMG0WDT_PROTECT ESP32H2_WDT_WKEY_VALUE) s in
  if negb (res a =? ERROR_OK) then
    (res a,
     esp_log_add
       (esp_error "Failed to write ESP32H2_TIMG0WDT_PROTECT" (res a)) s)
  else
  let '(a, s) := esp_call_of (target_write_u32 ESP32H2_TIMG0WDT_CFG0 0) s in
  if negb (res a =? ERROR_OK) then
    (res a,
     esp_log_add (esp_error "Failed to write ESP32H2_TIMG0WDT_CFG0" (res a)) s)
  else
  let '(a, s) :=
    esp_call_of
      (target_write_u32 ESP32H2_TIMG1WDT_PROTECT ESP32H2_WDT_WKEY_VALUE) s in
  if negb (res a =? ERROR_OK) then
    (res a,
     esp_log_add
       (esp_error "Failed to write ESP32H2_TIMG1WDT_PROTECT" (res a)) s)
  else
  let '(a, s) := esp_call_of (target_write_u32 ESP32H2_TIMG1WDT_CFG0 0) s in
  if negb (res a =? ERROR_OK) then
    (res a,
     esp_log_add (esp_error "Failed to write ESP32H2_TIMG1WDT_CFG0" (res a)) s)
  else
  let '(a, s) :=
    esp_call_of
      (target_write_u32 ESP32H2_LP_WDT_WPROTECT_REG ESP32H2_WDT_WKEY_VALUE)
      s in
  if negb (res a =? ERROR_OK) then
    (res a,
     esp_log_add
       (esp_error "Failed to write ESP32H2_LP_WDT_WPROTECT_REG" (res a)) s)
  else
  let '(a, s) :=
    esp_call_of (target_write_u32 ESP32H2_LP_WDT_CONFIG0_REG 0) s in
  if negb (res a =? ERROR_OK) then
    (res a,
     esp_log_add
       (esp_error "Failed to write ESP32H2_LP_WDT_CONFIG0_REG" (res a)) s)
  else
  let '(a, s) :=
    esp_call_of
      (target_write_u32 ESP32H2_LP_WDT_SWD_PROTECT_REG ESP32H2_WDT_WKEY_VALUE)
      s in
  if negb (res a =? ERROR_OK) then
    (res a,
     esp_log_add
       (esp_error "Failed to write ESP32H2_LP_WDT_SWD_PROTECT_REG" (res a)) s)
  else
  let '(a, s) :=
    esp_call_of (target_write_u32 ESP32H2_LP_WDT_SWD_CFG_REG 0x40000000) s in
  if negb (res a =? ERROR_OK) then
    (res a,
     esp_log_add
       (esp_error "Failed to write ESP32H2_LP_WDT_SWD_CFG_REG" (res a)) s)
  else (ERROR_OK, s).

(** The eight writes of [esp32h2_wdt_disable], in program order: for
    each watchdog the write-protection key, then the configuration. *)
Definition wdt_writes : list esp_call :=
  [target_write_u32 ESP32H2_TIMG0WDT_PROTECT ESP32H2_WDT_WKEY_VALUE;
   target_write_u32 ESP32H2_TIMG0WDT_CFG0 0;
   target_write_u32 ESP32H2_TIMG1WDT_PROTECT ESP32H2_WDT_WKEY_VALUE;
   target_write_u32 ESP32H2_TIMG1WDT_CFG0 0;
   target_write_u32 ESP32H2_LP_WDT_WPROTECT_REG ESP32H2_WDT_WKEY_VALUE;
   target_write_u32 ESP32H2_LP_WDT_CONFIG0_REG 0;
   target_write_u32 ESP32H2_LP_WDT_SWD_PROTECT_REG ESP32H2_WDT_WKEY_VALUE;
   target_write_u32 ESP32H2_LP_WDT_SWD_CFG_REG 0x40000000].

(** The number of the next [n] calls that are answered [ERROR_OK] before
    the first one that is not. *)
Fixpoint answered_ok (s : esp32h2) (start n : nat) : nat :=
  match n with
  | O => O
  | S m =>
      if res (esp_answers s start) =? ERROR_OK
      then S (answered_ok s (S start) m)
      else O
  end.

(** [static int esp32h2_on_reset(target)] *)
Definition esp32h2_on_reset (s : esp32h2) : Z * esp32h2 :=
  (ERROR_OK, with_was_reset true s).

(** [static int esp32h2_poll(target)].  [DM_DMSTATUS] and
    [DM_DMSTATUS_ALLHALTED] belong to riscv/debug_defines.h, which is not
    among the sources: the register address and the mask are
    parameters. *)
Definition esp32h2_poll (DM_DMSTATUS DM_DMSTATUS_ALLHALTED : Z)
    (s : esp32h2) : Z * esp32h2 :=
  let s :=
    if was_reset s && has_dmi s then
      let '(a, s) := esp_call_of (dmi_read DM_DMSTATUS) s in
      let dmstatus := u32 (value_read a) in
      if negb (res a =? ERROR_OK) then
        esp_log_add (esp_error "Failed to read DMSTATUS" (res a)) s
      else
        let s := with_was_reset false s in
        let '(a, s) := esp_call_of (target_read_u32 ESP32H2_GPIO_STRAP_REG) s in
        let '(strap_reg, s) :=
          if negb (res a =? ERROR_OK) then
            (ESP32H2_FLASH_BOOT_MODE,
             esp_log_add
               (esp_warning "Failed to read ESP32H2_GPIO_STRAP_REG" (res a)) s)
          else (u32 (value_read a), s) in
        let '(a, s) :=
          esp_call_of (target_read_u32 ESP32H2_RTCCNTL_RESET_STATE_REG) s in
        let s :=
          if negb (res a =? ERROR_OK) then
            esp_log_add
              (esp_warning "Failed to read read reset cause register" (res a))
              s
          else
            esp_log_add
              (esp_reset_cause (ESP32H2_RESET_CAUSE (u32 (value_read a)))
                 (esp32h2_get_reset_reason (u32 (value_read a)))) s in
        let s :=
          if ESP32H2_IS_FLASH_BOOT strap_reg
             && (get_field dmstatus DM_DMSTATUS_ALLHALTED =? 0)
          then
            let '(a, s) := esp_call_of esp_riscv_core_halt s in
            if res a =? ERROR_OK then
              let '(r, s) := esp32h2_wdt_disable s in
              if negb (r =? ERROR_OK)
              then esp_log_add (esp_error "Failed to disable WDTs" r) s
              else s
            else esp_log_add (esp_error "Failed to halt core" (res a)) s
          else s in
        let s :=
          if has_post_reset s
          then snd (esp_call_of semi_ops_post_reset s)
          else s in
        let s :=
          if has_rtos_cleanup s then
            let '(a, s) := esp_call_of rtos_post_reset_cleanup s in
            if negb (res a =? ERROR_OK)
            then esp_log_add
                   (esp_warning "Failed to do rtos-specific cleanup" (res a)) s
            else s
          else s in
        if ESP32H2_IS_FLASH_BOOT strap_reg then
          let '(a, s) := esp_call_of esp_riscv_core_ebreaks_enable s in
          let s :=
            if negb (res a =? ERROR_OK)
            then esp_log_add
                   (esp_error "Failed to enable EBREAKS handling" (res a)) s
            else s in
          if get_field dmstatus DM_DMSTATUS_ALLHALTED =? 0 then
            let '(a, s) := esp_call_of esp_riscv_core_resume s in
            if negb (res a =? ERROR_OK)
            then esp_log_add (esp_error "Failed to resume core" (res a)) s
            else s
          else s
        else s
    else s in
  let '(a, s) := esp_call_of esp_riscv_poll s in
  (res a, s).

(** The calls made between two states. *)
Definition calls_since (s s' : esp32h2) : list esp_call :=
  skipn (length (esp_calls s)) (esp_calls s').

(** The blocks of [esp32h2_poll], named so that each can be followed on
    its own. *)

(** Lines 305-316: halt the core and disable the watchdogs. *)
Definition halt_and_disable (strap_reg dmstatus DM_DMSTATUS_ALLHALTED : Z)
    (s : esp32h2) : esp32h2 :=
  if ESP32H2_IS_FLASH_BOOT strap_reg
     && (get_field dmstatus DM_DMSTATUS_ALLHALTED =? 0)
  then
    let '(a, s) := esp_call_of esp_riscv_core_halt s in
    if res a =? ERROR_OK then
      let '(r, s) := esp32h2_wdt_disable s in
      if negb (r =? ERROR_OK)
      then esp_log_add (esp_error "Failed to disable WDTs" r) s
      else s
    else esp_log_add (esp_error "Failed to halt core" (res a)) s
  else s.

(** Lines 317-324: the semihosting and RTOS hooks. *)
Definition post_reset_hooks (s : esp32h2) : esp32h2 :=
  let s :=
    if has_post_reset s
    then snd (esp_call_of semi_ops_post_reset s)
    else s in
  if has_rtos_cleanup s then
    let '(a, s) := esp_call_of rtos_post_reset_cleanup s in
    if negb (res a =? ERROR_OK)
    then esp_log_add
           (esp_warning "Failed to do rtos-specific cleanup" (res a)) s
    else s
  else s.

(** Lines 325-337: enable the ebreaks and resume the core. *)
Definition ebreaks_and_resume (strap_reg dmstatus DM_DMSTATUS_ALLHALTED : Z)
    (s : esp32h2) : esp32h2 :=
  if ESP32H2_IS_FLASH_BOOT strap_reg then
    let '(a, s) := esp_call_of esp_riscv_core_ebreaks_enable s in
    let s :=
      if negb (res a =? ERROR_OK)
      then esp_log_add
             (esp_error "Failed to enable EBREAKS handling" (res a)) s
      else s in
    if get_field dmstatus DM_DMSTATUS_ALLHALTED =? 0 then
      let '(a, s) := esp_call_of esp_riscv_core_resume s in
      if negb (res a =? ERROR_OK)
      then esp_log_add (esp_error "Failed to resume core" (res a)) s
      else s
    else s
  else s.

(** Lines 288-303: read the strapping pins and the reset cause. *)
Definition read_strap_and_cause (s : esp32h2) : Z * esp32h2 :=
  let '(a, s) := esp_call_of (target_read_u32 ESP32H2_GPIO_STRAP_REG) s in
  let '(strap_reg, s) :=
    if negb (res a =? ERROR_OK) then
      (ESP32H2_FLASH_BOOT_MODE,
       esp_log_add
         (esp_warning "Failed to read ESP32H2_GPIO_STRAP_REG" (res a)) s)
    else (u32 (value_read a), s) in
  let '(a, s) :=
    esp_call_of (target_read_u32 ESP32H2_RTCCNTL_RESET_STATE_REG) s in
  (strap_reg,
   if negb (res a =? ERROR_OK) then
     esp_log_add
       (esp_warning "Failed to read read reset cause register" (res a)) s
   else
     esp_log_add
       (esp_reset_cause (ESP32H2_RESET_CAUSE (u32 (value_read a)))
          (esp32h2_get_reset_reason (u32 (value_read a)))) s).

(** Lines 279-339: what [esp32h2_poll] does before it calls
    [esp_riscv_poll]. *)
Definition reset_handling (DM_DMSTATUS DM_DMSTATUS_ALLHALTED : Z)
    (s : esp32h2) : esp32h2 :=
  if was_reset s && has_dmi s then
    let '(a, s) := esp_call_of (dmi_read DM_DMSTATUS) s in
    let dmstatus := u32 (value_read a) in
    if negb (res a =? ERROR_OK) then
      esp_log_add (esp_error "Failed to read DMSTATUS" (res a)) s
    else
      let '(strap_reg, s) := read_strap_and_cause (with_was_reset false s) in
      ebreaks_and_resume strap_reg dmstatus DM_DMSTATUS_ALLHALTED
        (post_reset_hooks
           (halt_and_disable strap_reg dmstatus DM_DMSTATUS_ALLHALTED s))
  else s.

(** The strapping value [esp32h2_poll] works with when the state before
    the poll is [s]: the answer to its second call, or
    [ESP32H2_FLASH_BOOT_MODE] when that read fails. *)
Definition strap_seen (s : esp32h2) : Z :=
  let a := esp_answers s (S (length (esp_calls s))) in
  if res a =? ERROR_OK then u32 (value_read a) else ESP32H2_FLASH_BOOT_MODE.

(** The debug module status [esp32h2_poll] works with: the answer to its
    first call. *)
Definition dmstatus_seen (s : esp32h2) : Z :=
  u32 (value_read (esp_answers s (length (esp_calls s)))).

(** One write of [esp32h2_wdt_disable] with its check, and a sequence of
    them: the function is eight of these in a row. *)
Fixpoint write_all (writes : list (Z * Z * string)) (s : esp32h2)
  : Z * esp32h2 :=
  match writes with
  | [] => (ERROR_OK, s)
  | (address, value, text) :: rest =>
      let '(a, s) := esp_call_of (target_write_u32 address value) s in
      if negb (res a =? ERROR_OK)
      then (res a, esp_log_add (esp_error text (res a)) s)
      else write_all rest s
  end.

Definition wdt_table : list (Z * Z * string) :=
  [(ESP32H2_TIMG0WDT_PROTECT, ESP32H2_WDT_WKEY_VALUE,
    "Failed to write ESP32H2_TIMG0WDT_PROTECT"%string);
   (ESP32H2_TIMG0WDT_CFG0, 0,
    "Failed to write ESP32H2_TIMG0WDT_CFG0"%string);
   (ESP32H2_TIMG1WDT_PROTECT, ESP32H2_WDT_WKEY_VALUE,
    "Failed to write ESP32H2_TIMG1WDT_PROTECT"%string);
   (ESP32H2_TIMG1WDT_CFG0, 0,
    "Failed to write ESP32H2_TIMG1WDT_CFG0"%string);
   (ESP32H2_LP_WDT_WPROTECT_REG, ESP32H2_WDT_WKEY_VALUE,
    "Failed to write ESP32H2_LP_WDT_WPROTECT_REG"%string);
   (ESP32H2_LP_WDT_CONFIG0_REG, 0,
    "Failed to write ESP32H2_LP_WDT_CONFIG0_REG"%string);
   (ESP32H2_LP_WDT_SWD_PROTECT_REG, ESP32H2_WDT_WKEY_VALUE,
    "Failed to write ESP32H2_LP_WDT_SWD_PROTECT_REG"%string);
   (ESP32H2_LP_WDT_SWD_CFG_REG, 0x40000000,
    "Failed to write ESP32H2_LP_WDT_SWD_CFG_REG"%string)].

Definition write_of (w : Z * Z * string) : esp_call :=
  target_write_u32 (fst (fst w)) (snd (fst w)).

(** [s'] is [s] after the calls [cs]: the same environment and the same
    target, with [cs] appended to the calls made. *)
Definition extends_by (cs : list esp_call) (s s' : esp32h2) : Prop :=
  esp_calls s' = esp_calls s ++ cs
  /\ esp_answers s' = esp_answers s
  /\ was_reset s' = was_reset s
  /\ has_dmi s' = has_dmi s
  /\ has_post_reset s' = has_post_reset s
  /\ has_rtos_cleanup s' = has_rtos_cleanup s.

(** The calls of the three blocks of [esp32h2_poll] that follow the
    reads, when the state before the poll is [s]. *)
Definition halt_calls (DM_DMSTATUS_ALLHALTED : Z) (s : esp32h2)
  : list esp_call :=
  let L := length (esp_calls s) in
  if ESP32H2_IS_FLASH_BOOT (strap_seen s)
     && (get_field (dmstatus_seen s) DM_DMSTATUS_ALLHALTED =? 0)
  then esp_riscv_core_halt ::
       (if res (esp_answers s (L + 3)) =? ERROR_OK
        then firstn (S (answered_ok s (L + 4) 8)) wdt_writes
        else [])
  else [].

Definition hook_calls (s : esp32h2) : list esp_call :=
  (if has_post_reset s then [semi_ops_post_reset] else [])
  ++ (if has_rtos_cleanup s then [rtos_post_reset_cleanup] else []).

Definition resume_calls (DM_DMSTATUS_ALLHALTED : Z) (s : esp32h2)
  : list esp_call :=
  if ESP32H2_IS_FLASH_BOOT (strap_seen s) then
    esp_riscv_core_ebreaks_enable ::
    (if get_field (dmstatus_seen s) DM_DMSTATUS_ALLHALTED =? 0
     then [esp_riscv_core_resume] else [])
  else [].

(** Two states to run [esp32h2_poll] from: a target just reset whose
    every call is answered [ERROR_OK] with the value 8 (strapped for
    flash boot), and one whose calls all fail. *)
Definition esp32h2_just_reset : esp32h2 :=
  mk_esp32h2 true true true false [] (fun _ => mk_answer ERROR_OK 8) [].

Definition esp32h2_unreachable : esp32h2 :=
  mk_esp32h2 true true true false [] (fun _ => mk_answer ERROR_FAIL 0) [].

(** ** The flasher stub of the ESP32-C3
    (contrib/loaders/flash/esp/esp32c3/stub_flasher_chip.c)

    [esp_rom_spiflash_erase_area] drives three functions of the ROM,
    which is not among the sources.  A call of the ROM is an event,
    recorded and answered by the environment; the function tells
    [ESP_ROM_SPIFLASH_RESULT_OK] from any other answer, so an answer is
    whether the call returned [ESP_ROM_SPIFLASH_RESULT_OK]. *)

(** A value converted to [int32_t]. *)
Definition s32 (z : Z) : Z := (z + 2 ^ 31) mod 2 ^ 32 - 2 ^ 31.

(** The fields of [rom_spiflash_legacy_data->chip] that the function
    reads, each a [uint32_t]. *)
Record esp_rom_spiflash_chip_t : Set := mk_chip {
  chip_size : Z;
  block_size : Z;
  sector_size : Z
}.

(** The two results [esp_rom_spiflash_erase_area] returns. *)
Inductive esp_rom_spiflash_result_t : Set :=
| ESP_ROM_SPIFLASH_RESULT_OK
| ESP_ROM_SPIFLASH_RESULT_ERR.

Inductive rom_call : Set :=
| esp_rom_spiflash_unlock
| esp_rom_spiflash_erase_sector (sector_num : Z)
| esp_rom_spiflash_erase_block (block_num : Z).

(** The ROM calls made so far, and whether the [n]-th call returns
    [ESP_ROM_SPIFLASH_RESULT_OK]. *)
Record rom : Type := mk_rom {
  rom_calls : list rom_call;
  rom_ok : nat -> bool
}.

Definition rom_do (c : rom_call) (f : rom) : bool * rom :=
  (rom_ok f (length (rom_calls f)), mk_rom (rom_calls f ++ [c]) (rom_ok f)).

(** How a run of the stub ends: it returns; or it divides by zero, which
    C leaves undefined; or the model runs out of fuel. *)
Inductive stub_run (A : Type) : Type :=
| Returns (a : A)
| Undefined
| NoFuel.
Arguments Returns {A} a.
Arguments Undefined {A}.
Arguments NoFuel {A}.

(** [while (0 != head_sector_num) { ... }]: [None] when the loop leaves
    the function with [ESP_ROM_SPIFLASH_RESULT_ERR], else [sector_no]
    after the loop. *)
Fixpoint erase_head (fuel : nat) (sector_no head_sector_num : Z) (f : rom)
  : stub_run (option Z * rom) :=
  match fuel with
  | O => NoFuel
  | S fuel =>
      if negb (0 =? head_sector_num) then
        let '(ok, f) := rom_do (esp_rom_spiflash_erase_sector sector_no) f in
        if negb ok then Returns (None, f)
        else erase_head fuel (u32 (sector_no + 1))
               (s32 (head_sector_num - 1)) f
      else Returns (Some sector_no, f)
  end.

(** [while (total_sector_num > sector_num_per_block) { ... }]: the
    comparison is between an [int32_t] and a [uint32_t], hence unsigned.
    The loop leaves [sector_no] and [total_sector_num]. *)
Fixpoint erase_blocks (fuel : nat)
    (sector_num_per_block sector_no total_sector_num : Z) (f : rom)
  : stub_run (option (Z * Z) * rom) :=
  match fuel with
  | O => NoFuel
  | S fuel =>
      if u32 total_sector_num >? sector_num_per_block then
        let '(ok, f) :=
          rom_do
            (esp_rom_spiflash_erase_block (sector_no / sector_num_per_block))
            f in
        if negb ok then Returns (None, f)
        else erase_blocks fuel sector_num_per_block
               (u32 (sector_no + sector_num_per_block))
               (s32 (u32 (u32 total_sector_num - sector_num_per_block))) f
      else Returns (Some (sector_no, total_sector_num), f)
  end.

(** [while (0 < total_sector_num) { ... }] *)
Fixpoint erase_tail (fuel : nat) (sector_no total_sector_num : Z) (f : rom)
  : stub_run (esp_rom_spiflash_result_t * rom) :=
  match fuel with
  | O => NoFuel
  | S fuel =>
      if 0 <? total_sector_num then
        let '(ok, f) := rom_do (esp_rom_spiflash_erase_sector sector_no) f in
        if negb ok then Returns (ESP_ROM_SPIFLASH_RESULT_ERR, f)
        else erase_tail fuel (u32 (sector_no + 1))
               (s32 (total_sector_num - 1)) f
      else Returns (ESP_ROM_SPIFLASH_RESULT_OK, f)
  end.

(** [esp_rom_spiflash_result_t esp_rom_spiflash_erase_area(uint32_t
    start_addr, uint32_t area_len)].  [fuel] bounds the iterations of
    each loop. *)
Definition esp_rom_spiflash_erase_area (fuel : nat)
    (chip : esp_rom_spiflash_chip_t) (start_addr area_len : Z) (f : rom)
  : stub_run (esp_rom_spiflash_result_t * rom) :=
  if u32 (start_addr + area_len) >? chip_size chip
  then Returns (ESP_ROM_SPIFLASH_RESULT_ERR, f) else
  if sector_size chip =? 0 then Undefined else
  if negb (0 =? start_addr mod sector_size chip)
  then Returns (ESP_ROM_SPIFLASH_RESULT_ERR, f) else
  let '(ok, f) := rom_do esp_rom_spiflash_unlock f in
  if negb ok then Returns (ESP_ROM_SPIFLASH_RESULT_ERR, f) else
  let sector_no := start_addr / sector_size chip in
  let sector_num_per_block := block_size chip / sector_size chip in
  let total_sector_num :=
    s32 (if 0 =? area_len mod sector_size chip
         then area_len / sector_size chip
         else u32 (1 + area_len / sector_size chip)) in
  if sector_num_per_block =? 0 then Undefined else
  let head_sector_num :=
    s32 (u32 (sector_num_per_block - sector_no mod sector_num_per_block)) in
  let head_sector_num :=
    if head_sector_num >=? total_sector_num
    then total_sector_num else head_sector_num in
  let total_sector_num := s32 (total_sector_num - head_sector_num) in
  match erase_head fuel sector_no head_sector_num f with
  | NoFuel => NoFuel
  | Undefined => Undefined
  | Returns (None, f) => Returns (ESP_ROM_SPIFLASH_RESULT_ERR, f)
  | Returns (Some sector_no, f) =>
      match erase_blocks fuel sector_num_per_block sector_no
              total_sector_num f with
      | NoFuel => NoFuel
      | Undefined => Undefined
      | Returns (None, f) => Returns (ESP_ROM_SPIFLASH_RESULT_ERR, f)
      | Returns (Some (sector_no, total_sector_num), f) =>
          erase_tail fuel sector_no total_sector_num f
      end
  end.

(** The geometry of the erase, in the words of the function: the first
    sector, the sectors of a block, the sectors the area takes, those of
    them erased one by one up to the next block, and what is left. *)
Definition first_sector (chip : esp_rom_spiflash_chip_t) (start_addr : Z)
  : Z := start_addr / sector_size chip.

Definition sectors_per_block (chip : esp_rom_spiflash_chip_t) : Z :=
  block_size chip / sector_size chip.

Definition sectors_of_area (chip : esp_rom_spiflash_chip_t) (area_len : Z)
  : Z :=
  if 0 =? area_len mod sector_size chip
  then area_len / sector_size chip
  else 1 + area_len / sector_size chip.

Definition head_sectors (chip : esp_rom_spiflash_chip_t)
    (start_addr area_len : Z) : Z :=
  Z.min (sectors_per_block chip
         - first_sector chip start_addr mod sectors_per_block chip)
        (sectors_of_area chip area_len).

Definition whole_blocks (chip : esp_rom_spiflash_chip_t)
    (start_addr area_len : Z) : Z :=
  let rest := sectors_of_area chip area_len
              - head_sectors chip start_addr area_len in
  if rest =? 0 then 0 else (rest - 1) / sectors_per_block chip.

(** [n] consecutive numbers from [s]. *)
Fixpoint zrange (s : Z) (n : nat) : list Z :=
  match n with
  | O => []
  | S n => s :: zrange (s + 1) n
  end.

(** The ROM calls of an erase that meets no failure. *)
Definition erase_plan (chip : esp_rom_spiflash_chip_t)
    (start_addr area_len : Z) : list rom_call :=
  let spb := sectors_per_block chip in
  let s0 := first_sector chip start_addr in
  let head := head_sectors chip start_addr area_len in
  let blocks := whole_blocks chip start_addr area_len in
  let tail := sectors_of_area chip area_len - head - blocks * spb in
  esp_rom_spiflash_unlock
  :: map esp_rom_spiflash_erase_sector (zrange s0 (Z.to_nat head))
  ++ map esp_rom_spiflash_erase_block
       (zrange ((s0 + head) / spb) (Z.to_nat blocks))
  ++ map esp_rom_spiflash_erase_sector
       (zrange (s0 + head + blocks * spb) (Z.to_nat tail)).


(** Calls made in a row up to the first that fails. *)
Fixpoint run_calls (cs : list rom_call) (f : rom) : bool * rom :=
  match cs with
  | [] => (true, f)
  | c :: rest =>
      let '(ok, f) := rom_do c f in
      if negb ok then (false, f) else run_calls rest f
  end.

(** The number of the next [n] ROM calls that succeed before the first
    that fails. *)
Fixpoint rom_ok_run (f : rom) (start n : nat) : nat :=
  match n with
  | O => O
  | S m => if rom_ok f start then S (rom_ok_run f (S start) m) else O
  end.

(** The chip geometry the function is written for: sectors that are not
    empty, and blocks of at least a sector that an [int32_t] can count. *)
Definition sane_geometry (chip : esp_rom_spiflash_chip_t) : Prop :=
  0 < sector_size chip <= block_size chip /\ block_size chip < 2 ^ 31.

(** An area whose sectors an [int32_t] can count, and whose sector
    numbers fit [uint32_t]. *)
Definition countable_area (chip : esp_rom_spiflash_chip_t)
    (start_addr area_len : Z) : Prop :=
  0 <= start_addr < 2 ^ 32
  /\ 0 <= area_len < 2 ^ 32
  /\ sectors_of_area chip area_len < 2 ^ 31
  /\ first_sector chip start_addr + sectors_of_area chip area_len < 2 ^ 32.

(** A 4 MiB chip with 64 KiB blocks and 4 KiB sectors, and a ROM whose
    calls all succeed. *)
Definition chip_4MiB : esp_rom_spiflash_chip_t :=
  mk_chip 0x400000 0x10000 0x1000.

Definition rom_all_ok : rom := mk_rom [] (fun _ => true).


(** The stack data pool of the stub: [s_stack_data_pool] as an address
    and [s_stack_data_pool_sz]. *)
Record stub_pool : Set := mk_pool {
  s_stack_data_pool : Z;
  s_stack_data_pool_sz : Z
}.

(** The two fields of [esp_apptrace_mem_block_t] that
    [esp_apptrace_get_up_buffers] sets. *)
Record esp_apptrace_mem_block_t : Set := mk_block {
  block_start : Z;
  block_sz : Z
}.

(** [void stub_stack_data_pool_init(uint8_t *data, size_t sz)] *)
Definition stub_stack_data_pool_init (data sz : Z) : stub_pool :=
  mk_pool data sz.

(** [void esp_apptrace_get_up_buffers(esp_apptrace_mem_block_t
    mem_blocks_cfg[2])]: the two elements of the array after the call. *)
Definition esp_apptrace_get_up_buffers (p : stub_pool)
  : esp_apptrace_mem_block_t * esp_apptrace_mem_block_t :=
  let b0_start := s_stack_data_pool p in
  let b0_sz := s_stack_data_pool_sz p / 2 in
  let b1_start := s_stack_data_pool p + b0_sz in
  let b1_sz := b0_sz in
  (mk_block b0_start b0_sz, mk_block b1_start b1_sz).

(** The addresses of a block. *)
Definition in_block (b : esp_apptrace_mem_block_t) (a : Z) : Prop :=
  block_start b <= a < block_start b + block_sz b.

(** * Properties *)

(** ** Bit-level facts *)

Lemma testbit_buf_set_u64 buffer first num value n :
  0 <= first -> 0 <= num -> 0 <= n ->
  Z.testbit (buf_set_u64 buffer first num value) n =
  if (first <=? n) && (n <? first + num) then Z.testbit value (n - first)
  else Z.testbit buffer n.
Proof.
  intros Hf Hnum Hn. unfold buf_set_u64.
  rewrite Z.lor_spec, Z.land_spec, Z.lnot_spec by lia.
  rewrite !Z.shiftl_spec by lia.
  rewrite Z.land_spec.
  destruct (Z.leb_spec first n); simpl.
  - rewrite !Z.testbit_ones_nonneg by lia.
    destruct (Z.ltb_spec n (first + num)).
    + replace (n - first <? num) with true by (symmetry; apply Z.ltb_lt; lia).
      replace (0 <=? n - first) with true by (symmetry; apply Z.leb_le; lia).
      simpl. rewrite andb_false_r, andb_true_r. reflexivity.
    + replace (n - first <? num) with false by (symmetry; apply Z.ltb_ge; lia).
      rewrite !andb_false_r. simpl. rewrite andb_true_r, orb_false_r. reflexivity.
  - rewrite !(Z.testbit_neg_r _ (n - first)) by lia.
    simpl. rewrite andb_true_r, orb_false_r. reflexivity.
Qed.

Lemma testbit_buf_get_u64 buffer first num n :
  0 <= first -> 0 <= num -> 0 <= n ->
  Z.testbit (buf_get_u64 buffer first num) n =
  (n <? num) && Z.testbit buffer (n + first).
Proof.
  intros. unfold buf_get_u64.
  rewrite Z.land_spec, Z.shiftr_spec, Z.testbit_ones_nonneg by lia.
  destruct (n <? num); simpl; [ apply andb_true_r | apply andb_false_r ].
Qed.

Lemma testbit_dbus_out_from buffer0 abits op address data_out n :
  0 <= abits -> 0 <= n ->
  Z.testbit (dbus_out_from buffer0 abits op address data_out) n =
  if n <? 2 then Z.testbit (dbus_op_code op) n
  else if n <? 36 then Z.testbit data_out (n - 2)
  else if n <? 36 + abits then Z.testbit address (n - 36)
  else Z.testbit buffer0 n.
Proof.
  intros Hab Hn. unfold dbus_out_from, DBUS_OP_START, DBUS_OP_SIZE,
    DBUS_DATA_START, DBUS_DATA_SIZE, DBUS_ADDRESS_START.
  rewrite !testbit_buf_set_u64 by lia.
  destruct (Z.ltb_spec n 2), (Z.ltb_spec n 36), (Z.ltb_spec n (36 + abits)),
    (Z.leb_spec 36 n), (Z.leb_spec 2 n), (Z.leb_spec 0 n), (Z.ltb_spec n (2 + 34)),
    (Z.ltb_spec n (0 + 2));
    simpl; try lia; try reflexivity; f_equal; lia.
Qed.

Lemma testbit_wire buffer0 abits op address data_out n :
  0 <= abits -> 0 <= n ->
  Z.testbit (dbus_out_from buffer0 abits op address data_out
             mod 2 ^ (abits + 2 + 34)) n =
  if n <? 2 then Z.testbit (dbus_op_code op) n
  else if n <? 36 then Z.testbit data_out (n - 2)
  else if n <? 36 + abits then Z.testbit address (n - 36)
  else false.
Proof.
  intros Hab Hn.
  rewrite Z.testbit_mod_pow2 by lia.
  rewrite testbit_dbus_out_from by lia.
  destruct (Z.ltb_spec n 2), (Z.ltb_spec n 36), (Z.ltb_spec n (36 + abits)),
    (Z.ltb_spec n (abits + 2 + 34)); simpl; try lia; reflexivity.
Qed.

Lemma dbus_out_any_buffer buffer0 abits op address data_out :
  0 <= abits ->
  dbus_out_from buffer0 abits op address data_out mod 2 ^ (abits + 2 + 34) =
  dbus_out abits op address data_out mod 2 ^ (abits + 2 + 34).
Proof.
  intros Hab. apply Z.bits_inj'. intros n Hn. unfold dbus_out.
  rewrite !testbit_wire by lia. reflexivity.
Qed.

Lemma wire_op_field abits op address data_out :
  0 <= abits ->
  buf_get_u64 (dbus_out abits op address data_out mod 2 ^ (abits + 2 + 34))
    DBUS_OP_START DBUS_OP_SIZE = dbus_op_code op.
Proof.
  intros Hab.
  transitivity (dbus_op_code op mod 2 ^ 2); [ | destruct op; reflexivity ].
  apply Z.bits_inj'. intros n Hn. unfold dbus_out, DBUS_OP_START, DBUS_OP_SIZE.
  rewrite testbit_buf_get_u64, testbit_wire, Z.testbit_mod_pow2 by lia.
  rewrite Z.add_0_r.
  destruct (Z.ltb_spec n 2); simpl; reflexivity.
Qed.

Lemma wire_data_field abits op address data_out :
  0 <= abits ->
  buf_get_u64 (dbus_out abits op address data_out mod 2 ^ (abits + 2 + 34))
    DBUS_DATA_START DBUS_DATA_SIZE = data_out mod 2 ^ 34.
Proof.
  intros Hab.
  apply Z.bits_inj'. intros n Hn. unfold dbus_out, DBUS_DATA_START, DBUS_DATA_SIZE.
  rewrite testbit_buf_get_u64, testbit_wire, Z.testbit_mod_pow2 by lia.
  destruct (Z.ltb_spec n 34), (Z.ltb_spec (n + 2) 2), (Z.ltb_spec (n + 2) 36);
    simpl; try lia; try reflexivity.
  f_equal; lia.
Qed.

Lemma wire_address_field abits op address data_out :
  0 <= abits ->
  buf_get_u64 (dbus_out abits op address data_out mod 2 ^ (abits + 2 + 34))
    DBUS_ADDRESS_START abits = address mod 2 ^ abits.
Proof.
  intros Hab.
  apply Z.bits_inj'. intros n Hn. unfold dbus_out, DBUS_ADDRESS_START.
  rewrite testbit_buf_get_u64, testbit_wire, Z.testbit_mod_pow2 by lia.
  destruct (Z.ltb_spec n abits), (Z.ltb_spec (n + 36) 2),
    (Z.ltb_spec (n + 36) 36), (Z.ltb_spec (n + 36) (36 + abits));
    simpl; try lia; try reflexivity.
  f_equal; lia.
Qed.

Lemma land_bit_mask v k :
  0 <= k ->
  Z.land v (Z.shiftl 1 k) = if Z.testbit v k then 2 ^ k else 0.
Proof.
  intros Hk. rewrite Z.shiftl_1_l.
  apply Z.bits_inj'. intros n Hn.
  rewrite Z.land_spec, Z.pow2_bits_eqb by lia.
  destruct (Z.eqb_spec k n).
  - subst. destruct (Z.testbit v n); simpl.
    + rewrite Z.pow2_bits_true; lia.
    + apply eq_sym, Z.bits_0.
  - rewrite andb_false_r. destruct (Z.testbit v k).
    + rewrite Z.pow2_bits_false; lia.
    + symmetry; apply Z.bits_0.
Qed.

Lemma get_field_haltnot v :
  get_field v DMCONTROL_HALTNOT = if Z.testbit v 33 then 1 else 0.
Proof.
  unfold get_field.
  replace (Z.land DMCONTROL_HALTNOT (Z.lnot (Z.shiftl DMCONTROL_HALTNOT 1)))
    with (2 ^ 33) by reflexivity.
  unfold DMCONTROL_HALTNOT. rewrite land_bit_mask by lia.
  destruct (Z.testbit v 33); reflexivity.
Qed.

Lemma get_field_interrupt v :
  get_field v DMCONTROL_INTERRUPT = if Z.testbit v 32 then 1 else 0.
Proof.
  unfold get_field.
  replace (Z.land DMCONTROL_INTERRUPT (Z.lnot (Z.shiftl DMCONTROL_INTERRUPT 1)))
    with (2 ^ 32) by reflexivity.
  unfold DMCONTROL_INTERRUPT. rewrite land_bit_mask by lia.
  destruct (Z.testbit v 32); reflexivity.
Qed.

Lemma land_field_mask v n lo :
  0 <= n -> 0 <= lo ->
  Z.land v (Z.shiftl (Z.ones n) lo) = ((v / 2 ^ lo) mod 2 ^ n) * 2 ^ lo.
Proof.
  intros Hn Hlo.
  rewrite <- Z.shiftl_mul_pow2, <- Z.land_ones, <- Z.shiftr_div_pow2 by lia.
  apply Z.bits_inj'. intros m Hm.
  rewrite Z.land_spec, !Z.shiftl_spec, Z.land_spec by lia.
  destruct (Z.ltb_spec m lo).
  - rewrite !(Z.testbit_neg_r _ (m - lo)) by lia. apply andb_false_r.
  - rewrite Z.shiftr_spec by lia. replace (m - lo + lo) with m by lia.
    reflexivity.
Qed.

Lemma get_field_dramsize v :
  get_field v DMINFO_DRAMSIZE = (v / 2 ^ 10) mod 2 ^ 6.
Proof.
  unfold get_field.
  replace (Z.land DMINFO_DRAMSIZE (Z.lnot (Z.shiftl DMINFO_DRAMSIZE 1)))
    with (2 ^ 10) by reflexivity.
  change DMINFO_DRAMSIZE with (Z.shiftl (Z.ones 6) 10).
  rewrite land_field_mask by lia.
  rewrite Z.quot_div_nonneg.
  - apply Z.div_mul. lia.
  - pose proof (Z.mod_pos_bound (v / 2 ^ 10) (2 ^ 6) ltac:(lia)). lia.
  - lia.
Qed.

Lemma dramsize_of_dminfo_bounds dminfo :
  1 <= dramsize_of_dminfo dminfo <= 64.
Proof.
  unfold dramsize_of_dminfo. rewrite get_field_dramsize.
  generalize (u32 dminfo / 2 ^ 10). intros q.
  pose proof (Z.mod_pos_bound q (2 ^ 6) ltac:(lia)).
  unfold u32. rewrite Z.mod_small; lia.
Qed.

(** ** Running a scan and the retry loop *)

Lemma bind_done {A B} (m : M A) (k : A -> M B) t a t' :
  m t = Done a t' -> bind m k t = k a t'.
Proof. intros H. unfold bind. rewrite H. reflexivity. Qed.

Lemma dbus_scan_done t i data_in op address data_out :
  arch_info t = Some i -> addrbits i <> 0 ->
  dbus_scan data_in op address data_out t =
  Done (reply_result (reply_at t 0), store data_in (reply_at t 0))
       (after_scan op address data_out t).
Proof.
  intros Hi Hab. unfold dbus_scan, after_scan, get_info, bind at 1.
  rewrite Hi.
  apply Z.eqb_neq in Hab. unfold bind at 1. rewrite Hab. simpl.
  unfold reply_result, store, reply_at, bind. simpl.
  rewrite Nat.add_0_r.
  destruct (retval (jtag_replies t (jtag_executions t)) =? ERROR_OK);
    simpl; reflexivity.
Qed.

Lemma dbus_scan_assert t i data_in op address data_out :
  arch_info t = Some i -> addrbits i = 0 ->
  dbus_scan data_in op address data_out t = Fault AssertionFailed t.
Proof.
  intros Hi Hab. unfold dbus_scan, get_info, bind at 1. rewrite Hi.
  unfold bind at 1. rewrite Hab. reflexivity.
Qed.

Lemma dbus_scan_null t data_in op address data_out :
  arch_info t = None ->
  dbus_scan data_in op address data_out t = Fault NullPointer t.
Proof.
  intros Hi. unfold dbus_scan, get_info, bind at 1. rewrite Hi. reflexivity.
Qed.

(** Projections of [after_scan]. *)
Lemma after_scan_info t i op address data_out :
  arch_info t = Some i ->
  arch_info (after_scan op address data_out t) =
  Some (with_cache address op i).
Proof. intros Hi. unfold after_scan. rewrite Hi. reflexivity. Qed.

Lemma after_scan_queue t i op address data_out :
  arch_info t = Some i ->
  jtag_queue (after_scan op address data_out t) =
  jtag_queue t ++ [dbus_cmd (addrbits i) op address data_out].
Proof. intros Hi. unfold after_scan. rewrite Hi. reflexivity. Qed.

Lemma after_scan_reply_at t i op address data_out n :
  arch_info t = Some i ->
  reply_at (after_scan op address data_out t) n = reply_at t (S n).
Proof.
  intros Hi. unfold after_scan, reply_at. rewrite Hi. simpl.
  f_equal. lia.
Qed.

Lemma after_scan_frame t op address data_out :
  state (after_scan op address data_out t) = state t /\
  examined (after_scan op address data_out t) = examined t /\
  uninitialised (after_scan op address data_out t) = uninitialised t /\
  heap_available (after_scan op address data_out t) = heap_available t.
Proof. unfold after_scan. destruct (arch_info t); repeat split. Qed.

Lemma busy_until_shift t t' start k :
  (forall n, reply_at t' n = reply_at t (S n)) ->
  busy_until t' start k = busy_until t (S start) k.
Proof.
  intros H. revert start. induction k as [|k IH]; intros start; simpl.
  - rewrite H. reflexivity.
  - rewrite H, IH. reflexivity.
Qed.

Lemma stored_shift t t' start n data_in :
  (forall n, reply_at t' n = reply_at t (S n)) ->
  stored t' start n data_in = stored t (S start) n data_in.
Proof.
  intros H. revert start data_in.
  induction n as [|n IH]; intros start data_in; simpl.
  - reflexivity.
  - rewrite H, IH. reflexivity.
Qed.

Lemma after_scans_info n t i op address data_out :
  arch_info t = Some i ->
  arch_info (after_scans (S n) op address data_out t) =
  Some (with_cache address op i).
Proof.
  revert t i. induction n as [|n IH]; intros t i Hi.
  - simpl. apply after_scan_info. exact Hi.
  - change (after_scans (S (S n)) op address data_out t)
      with (after_scans (S n) op address data_out
              (after_scan op address data_out t)).
    rewrite (IH _ _ (after_scan_info _ _ _ _ _ Hi)). reflexivity.
Qed.

Lemma after_scans_addrbits n t i op address data_out :
  arch_info t = Some i ->
  exists i', arch_info (after_scans n op address data_out t) = Some i' /\
             addrbits i' = addrbits i /\ dram_valid i' = dram_valid i /\
             dramsize i' = dramsize i.
Proof.
  intros Hi. destruct n as [|n].
  - exists i. simpl. auto.
  - exists (with_cache address op i). split.
    + apply after_scans_info. exact Hi.
    + auto.
Qed.

Lemma after_scans_queue n t i op address data_out :
  arch_info t = Some i ->
  jtag_queue (after_scans n op address data_out t) =
  jtag_queue t ++ repeat (dbus_cmd (addrbits i) op address data_out) n.
Proof.
  revert t i. induction n as [|n IH]; intros t i Hi; simpl.
  - symmetry. apply app_nil_r.
  - rewrite (IH _ _ (after_scan_info _ _ _ _ _ Hi)).
    rewrite (after_scan_queue _ _ _ _ _ Hi). simpl.
    rewrite <- app_assoc. reflexivity.
Qed.

Lemma after_scans_reply_at n t i op address data_out m :
  arch_info t = Some i ->
  reply_at (after_scans n op address data_out t) m = reply_at t (n + m).
Proof.
  revert t i. induction n as [|n IH]; intros t i Hi; simpl.
  - reflexivity.
  - rewrite (IH _ _ (after_scan_info _ _ _ _ _ Hi)).
    rewrite (after_scan_reply_at _ _ _ _ _ _ Hi).
    f_equal; lia.
Qed.

Lemma after_scans_frame n t op address data_out :
  state (after_scans n op address data_out t) = state t /\
  examined (after_scans n op address data_out t) = examined t /\
  uninitialised (after_scans n op address data_out t) = uninitialised t /\
  heap_available (after_scans n op address data_out t) = heap_available t.
Proof.
  revert t. induction n as [|n IH]; intros t; simpl.
  - auto.
  - destruct (IH (after_scan op address data_out t)) as (H1 & H2 & H3 & H4).
    destruct (after_scan_frame t op address data_out) as (G1 & G2 & G3 & G4).
    rewrite H1, H2, H3, H4. auto.
Qed.

Lemma busy_until_after_scans n t i op address data_out start k :
  arch_info t = Some i ->
  busy_until (after_scans n op address data_out t) start k =
  busy_until t (n + start) k.
Proof.
  intros Hi. revert start. induction k as [|k IH]; intros start; simpl.
  - rewrite (after_scans_reply_at _ _ _ _ _ _ _ Hi). reflexivity.
  - rewrite (after_scans_reply_at _ _ _ _ _ _ _ Hi), IH.
    replace (n + S start)%nat with (S (n + start)) by lia. reflexivity.
Qed.

(** The retry loop on a run of [k] BUSY answers followed by another
    answer: [k+1] scans, and the loop is left with that answer. *)
Lemma scan_while_busy_settles k :
  forall fuel t i data_in op address data_out,
    arch_info t = Some i -> addrbits i <> 0 ->
    busy_until t 0 k = true -> (k < fuel)%nat ->
    scan_while_busy fuel data_in op address data_out DBUS_RESULT_BUSY t =
    Done (reply_result (reply_at t k), stored t 0 (S k) data_in)
         (after_scans (S k) op address data_out t).
Proof.
  induction k as [|k IH]; intros fuel t i data_in op address data_out
    Hi Hab Hbusy Hfuel.
  - destruct fuel as [|fuel]; [ lia | ].
    simpl in Hbusy. apply negb_true_iff in Hbusy.
    cbn [scan_while_busy]. change (DBUS_RESULT_BUSY =? DBUS_RESULT_BUSY) with true.
    cbv iota.
    rewrite (bind_done _ _ _ _ _ (dbus_scan_done _ _ _ _ _ _ Hi Hab)).
    cbn [fst snd].
    destruct fuel; cbn [scan_while_busy]; rewrite Hbusy; reflexivity.
  - destruct fuel as [|fuel]; [ lia | ].
    simpl in Hbusy. apply andb_true_iff in Hbusy. destruct Hbusy as [Hb Hrest].
    cbn [scan_while_busy]. change (DBUS_RESULT_BUSY =? DBUS_RESULT_BUSY) with true.
    cbv iota.
    rewrite (bind_done _ _ _ _ _ (dbus_scan_done _ _ _ _ _ _ Hi Hab)).
    cbn [fst snd].
    apply Z.eqb_eq in Hb. rewrite Hb.
    pose proof (after_scan_info _ _ op address data_out Hi) as Hi'.
    pose proof (fun n => after_scan_reply_at t i op address data_out n Hi) as Hsh.
    rewrite (IH fuel _ _ _ _ _ _ Hi' Hab); [ | | lia ].
    + rewrite Hsh.
      rewrite (stored_shift t _ 0 (S k) _ Hsh).
      reflexivity.
    + rewrite (busy_until_shift t _ 0 k Hsh). exact Hrest.
Qed.

(** ** What a call preserves

    A relation [R] between targets that is reflexive and transitive is
    kept by sequencing; if it is also kept by logging and by every scan
    it admits, it is kept by the reads and writes built from
    [dbus_scan], whatever their outcome. *)

Section Frame.
Variable R : target -> target -> Prop.
Hypothesis R_refl : forall t, R t t.
Hypothesis R_trans : forall a b c, R a b -> R b c -> R a c.

Lemma keeps_ret {A} (a : A) : keeps R (ret a).
Proof. intros t. apply R_refl. Qed.

Lemma keeps_bind {A B} (m : M A) (k : A -> M B) :
  keeps R m -> (forall a, keeps R (k a)) -> keeps R (bind m k).
Proof.
  intros Hm Hk t. unfold bind. specialize (Hm t).
  destruct (m t) as [a t'|f t'|t']; simpl in *; try exact Hm.
  apply R_trans with t'; [ exact Hm | apply Hk ].
Qed.

Lemma keeps_get : keeps R get.
Proof. intros t. apply R_refl. Qed.

Lemma keeps_stop {A} f : keeps R (@stop A f).
Proof. intros t. apply R_refl. Qed.

Lemma keeps_out_of_fuel {A} : keeps R (@out_of_fuel A).
Proof. intros t. apply R_refl. Qed.

Lemma keeps_assert c : keeps R (assert c).
Proof. destruct c; [ apply keeps_ret | apply keeps_stop ]. Qed.

Lemma keeps_get_info : keeps R get_info.
Proof. intros t. unfold get_info. destruct (arch_info t); apply R_refl. Qed.

Lemma keeps_with_info {A} (k : riscv_info_t -> M A) :
  (forall i t, arch_info t = Some i -> R t (final (k i t))) ->
  keeps R (bind get_info k).
Proof.
  intros H t. unfold bind, get_info.
  destruct (arch_info t) as [i|] eqn:Hi; [ apply H; exact Hi | apply R_refl ].
Qed.

Lemma keeps_modify f : (forall t, R t (f t)) -> keeps R (modify f).
Proof. intros H t. apply H. Qed.

Lemma keeps_if {A} (c : bool) (m1 m2 : M A) :
  keeps R m1 -> keeps R m2 -> keeps R (if c then m1 else m2).
Proof. destruct c; auto. Qed.

Hypothesis R_log : forall t m, R t (with_log (log t ++ [m]) t).

Lemma keeps_LOG_ERROR m : keeps R (LOG_ERROR m).
Proof. apply keeps_modify. intros t. apply R_log. Qed.

(** Scans: [allowed op data_out] says which scans the relation admits. *)
Variable allowed : dbus_op_t -> Z -> Prop.
Hypothesis R_scan :
  forall t i op address data_out,
    arch_info t = Some i -> addrbits i <> 0 -> allowed op data_out ->
    R t (after_scan op address data_out t).

Lemma keeps_dbus_scan data_in op address data_out :
  allowed op data_out -> keeps R (dbus_scan data_in op address data_out).
Proof.
  intros Hop t. destruct (arch_info t) as [i|] eqn:Hi.
  - destruct (Z.eq_dec (addrbits i) 0) as [Hz|Hnz].
    + rewrite (dbus_scan_assert _ _ _ _ _ _ Hi Hz). apply R_refl.
    + rewrite (dbus_scan_done _ _ _ _ _ _ Hi Hnz). simpl.
      apply R_scan with i; assumption.
  - rewrite (dbus_scan_null _ _ _ _ _ Hi). apply R_refl.
Qed.

Lemma keeps_scan_while_busy fuel :
  forall data_in op address data_out result,
    allowed op data_out ->
    keeps R (scan_while_busy fuel data_in op address data_out result).
Proof.
  induction fuel as [|fuel IH]; intros data_in op address data_out result
    Hop; cbn [scan_while_busy].
  - apply keeps_if; [ apply keeps_out_of_fuel | apply keeps_ret ].
  - apply keeps_if; [ | apply keeps_ret ].
    apply keeps_bind; [ apply keeps_dbus_scan; exact Hop | ].
    intros r. apply IH. exact Hop.
Qed.

Lemma keeps_dbus_read fuel address next_address :
  allowed DBUS_OP_READ 0 -> keeps R (dbus_read fuel address next_address).
Proof.
  intros Hop. unfold dbus_read.
  apply keeps_bind; [ apply keeps_get_info | intros info ].
  apply keeps_bind; [ apply keeps_get | intros t0 ].
  apply keeps_bind.
  - apply keeps_if; [ | apply keeps_ret ].
    apply keeps_bind; [ apply keeps_scan_while_busy; exact Hop | ].
    intros _. apply keeps_ret.
  - intros _.
    apply keeps_bind; [ apply keeps_scan_while_busy; exact Hop | intros r ].
    apply keeps_bind; [ | intros _; apply keeps_ret ].
    apply keeps_if; [ apply keeps_LOG_ERROR | apply keeps_ret ].
Qed.

Lemma keeps_dbus_write fuel address value :
  allowed DBUS_OP_WRITE value -> keeps R (dbus_write fuel address value).
Proof.
  intros Hop. unfold dbus_write.
  apply keeps_bind; [ apply keeps_scan_while_busy; exact Hop | intros r ].
  apply keeps_if; [ apply keeps_LOG_ERROR | apply keeps_ret ].
Qed.

Lemma keeps_dram_read32 fuel index set_interrupt :
  allowed DBUS_OP_READ 0 -> keeps R (dram_read32 fuel index set_interrupt).
Proof.
  intros Hop. unfold dram_read32.
  apply keeps_bind; [ apply keeps_dbus_read; exact Hop | ].
  intros v. apply keeps_ret.
Qed.

Lemma keeps_dram_check32 fuel index expected :
  allowed DBUS_OP_READ 0 -> keeps R (dram_check32 fuel index expected).
Proof.
  intros Hop. unfold dram_check32.
  apply keeps_bind; [ apply keeps_dram_read32; exact Hop | intros actual ].
  apply keeps_if; [ apply keeps_LOG_ERROR | apply keeps_ret ].
Qed.

Lemma keeps_dram_write32 fuel index value set_interrupt :
  (forall v, allowed DBUS_OP_WRITE v) ->
  keeps R (dram_write32 fuel index value set_interrupt).
Proof. intros Hop. unfold dram_write32. apply keeps_dbus_write, Hop. Qed.

Lemma keeps_dram_write_jump fuel index set_interrupt :
  (forall v, allowed DBUS_OP_WRITE v) ->
  keeps R (dram_write_jump fuel index set_interrupt).
Proof. intros Hop. apply keeps_dram_write32, Hop. Qed.
End Frame.

(** ** Reads and writes on the debug bus *)

Lemma source_test_cache_shows i address :
  negb (address =? dbus_address i) || dbus_op_eqb (dbus_op i) DBUS_OP_NOP =
  negb (cache_shows i address).
Proof.
  unfold cache_shows. rewrite (Z.eqb_sym address).
  destruct (dbus_address i =? address), (dbus_op_eqb (dbus_op i) DBUS_OP_NOP);
    reflexivity.
Qed.

(** [dbus_read] on answers that leave each of its loops after finitely
    many BUSY: it returns, having queued the scans of the first loop (if
    it is entered) and of the second. *)
Lemma dbus_read_settles fuel t i address next_address k1 k2 :
  arch_info t = Some i -> addrbits i <> 0 ->
  (cache_shows i address = false ->
   busy_until t 0 k1 = true /\ (k1 < fuel)%nat) ->
  busy_until t (if cache_shows i address then 0 else S k1) k2 = true ->
  (k2 < fuel)%nat ->
  exists v t',
    dbus_read fuel address next_address t = Done v t' /\
    jtag_queue t' =
      jtag_queue t
      ++ repeat (dbus_cmd (addrbits i) DBUS_OP_READ address 0)
           (if cache_shows i address then 0 else S k1)
      ++ repeat (dbus_cmd (addrbits i) DBUS_OP_READ next_address 0) (S k2) /\
    arch_info t' = Some (with_cache next_address DBUS_OP_READ i).
Proof.
  intros Hi Hab H1 H2 Hk2.
  unfold dbus_read.
  unfold get_info at 1, bind at 1. rewrite Hi.
  unfold get at 1, bind at 1.
  rewrite source_test_cache_shows.
  set (n1 := if cache_shows i address then 0%nat else S k1) in *.
  set (t1 := after_scans n1 DBUS_OP_READ address 0 t).
  assert (Hfirst :
    (if negb (cache_shows i address)
     then scan_while_busy fuel None DBUS_OP_READ address 0 DBUS_RESULT_BUSY
          ;;; ret tt
     else ret tt) t = Done tt t1).
  { unfold t1, n1. destruct (cache_shows i address); cbn [negb].
    - reflexivity.
    - destruct (H1 eq_refl) as [Hb Hlt].
      rewrite (bind_done _ _ _ _ _
                 (scan_while_busy_settles k1 fuel t i None DBUS_OP_READ
                    address 0 Hi Hab Hb Hlt)).
      reflexivity. }
  rewrite (bind_done _ _ _ _ _ Hfirst).
  destruct (after_scans_addrbits n1 t i DBUS_OP_READ address 0 Hi)
    as (i1 & Hi1 & Hab1 & _).
  fold t1 in Hi1.
  assert (Hb2 : busy_until t1 0 k2 = true).
  { unfold t1. rewrite (busy_until_after_scans _ _ _ _ _ _ _ _ Hi).
    rewrite Nat.add_0_r. exact H2. }
  assert (Hab1' : addrbits i1 <> 0) by (rewrite Hab1; exact Hab).
  rewrite (bind_done _ _ _ _ _
             (scan_while_busy_settles k2 fuel t1 i1
                (Some (uninitialised t)) DBUS_OP_READ next_address 0
                Hi1 Hab1' Hb2 Hk2)).
  cbn [fst snd].
  set (t2 := after_scans (S k2) DBUS_OP_READ next_address 0 t1).
  assert (Hq : jtag_queue t2 =
    jtag_queue t ++ repeat (dbus_cmd (addrbits i) DBUS_OP_READ address 0) n1
    ++ repeat (dbus_cmd (addrbits i) DBUS_OP_READ next_address 0) (S k2)).
  { unfold t2. rewrite (after_scans_queue _ _ _ _ _ _ Hi1), Hab1.
    unfold t1. rewrite (after_scans_queue _ _ _ _ _ _ Hi).
    rewrite <- app_assoc. reflexivity. }
  assert (Hi2 : arch_info t2 = Some (with_cache next_address DBUS_OP_READ i)).
  { unfold t2. rewrite (after_scans_info _ _ _ _ _ _ Hi1).
    f_equal. unfold with_cache.
    destruct n1.
    - simpl in Hi1. unfold t1 in Hi1. simpl in Hi1. congruence.
    - unfold t1 in Hi1. rewrite (after_scans_info _ _ _ _ _ _ Hi) in Hi1.
      injection Hi1 as <-. reflexivity. }
  destruct (negb (reply_result (reply_at t1 k2) =? DBUS_RESULT_SUCCESS)).
  - eexists _, _. split; [ reflexivity | ]. split; [ exact Hq | exact Hi2 ].
  - eexists _, _. split; [ reflexivity | ]. split; [ exact Hq | exact Hi2 ].
Qed.

Lemma dbus_write_settles fuel t i address value k :
  arch_info t = Some i -> addrbits i <> 0 ->
  busy_until t 0 k = true -> (k < fuel)%nat ->
  exists t',
    dbus_write fuel address value t = Done tt t' /\
    jtag_queue t' =
      jtag_queue t
      ++ repeat (dbus_cmd (addrbits i) DBUS_OP_WRITE address value) (S k) /\
    arch_info t' = Some (with_cache address DBUS_OP_WRITE i).
Proof.
  intros Hi Hab Hb Hk. unfold dbus_write.
  rewrite (bind_done _ _ _ _ _
             (scan_while_busy_settles k fuel t i None DBUS_OP_WRITE
                address value Hi Hab Hb Hk)).
  cbn [fst snd].
  pose proof (after_scans_queue (S k) t i DBUS_OP_WRITE address value Hi) as Hq.
  pose proof (after_scans_info k t i DBUS_OP_WRITE address value Hi) as Hi'.
  destruct (negb (reply_result (reply_at t k) =? DBUS_RESULT_SUCCESS)).
  - eexists. split; [ reflexivity | ]. split; [ exact Hq | exact Hi' ].
  - eexists. split; [ reflexivity | ]. split; [ exact Hq | exact Hi' ].
Qed.

Lemma stub_answers_result t n code :
  stub_answers t n code = true -> reply_result (reply_at t n) = code.
Proof.
  unfold stub_answers, reply_result. intros H.
  apply andb_true_iff in H. destruct H as [H1 H2].
  rewrite H1. apply Z.eqb_eq. exact H2.
Qed.

Lemma stub_busy_then_success_busy_until t k :
  forall start,
    stub_busy_then_success t start k = true -> busy_until t start k = true.
Proof.
  induction k as [|k IH]; intros start H; simpl in *.
  - rewrite (stub_answers_result _ _ _ H). reflexivity.
  - apply andb_true_iff in H. destruct H as [H1 H2].
    rewrite (stub_answers_result _ _ _ H1), (IH _ H2). reflexivity.
Qed.

Lemma dbus_cmd_fields abits op address data_out :
  0 <= abits ->
  scan_op (dbus_cmd abits op address data_out) = Some (dbus_op_code op) /\
  scan_address (dbus_cmd abits op address data_out) =
    Some (address mod 2 ^ abits) /\
  scan_data (dbus_cmd abits op address data_out) =
    Some (data_out mod 2 ^ 34).
Proof.
  intros Hab. unfold dbus_cmd, scan_op, scan_address, scan_data.
  repeat split; f_equal.
  - apply wire_op_field. exact Hab.
  - replace (abits + DBUS_OP_SIZE + DBUS_DATA_SIZE - DBUS_OP_SIZE
             - DBUS_DATA_SIZE) with abits by (unfold DBUS_OP_SIZE, DBUS_DATA_SIZE; lia).
    apply wire_address_field. exact Hab.
  - apply wire_data_field. exact Hab.
Qed.

(** C1 (as amended): [dbus_read address next_address] first scans READ at
    [address], retried while BUSY, unless the cache names [address] with
    an operation other than NOP (READ, WRITE or CONDITIONAL_WRITE); in
    both cases it then scans READ at [next_address], retried while BUSY,
    and returns.  Nothing else is queued. *)
Theorem dbus_read_scans fuel t i address next_address k1 k2 :
  arch_info t = Some i -> addrbits i <> 0 ->
  (cache_shows i address = false ->
   busy_until t 0 k1 = true /\ (k1 < fuel)%nat) ->
  busy_until t (if cache_shows i address then 0 else S k1) k2 = true ->
  (k2 < fuel)%nat ->
  exists v t',
    dbus_read fuel address next_address t = Done v t' /\
    jtag_queue t' =
      jtag_queue t
      ++ (if cache_shows i address then []
          else repeat (dbus_cmd (addrbits i) DBUS_OP_READ address 0) (S k1))
      ++ repeat (dbus_cmd (addrbits i) DBUS_OP_READ next_address 0) (S k2).
Proof.
  intros Hi Hab H1 H2 Hk2.
  destruct (dbus_read_settles fuel t i address next_address k1 k2
              Hi Hab H1 H2 Hk2) as (v & t' & Hrun & Hq & _).
  exists v, t'. split; [ exact Hrun | ].
  rewrite Hq. destruct (cache_shows i address); reflexivity.
Qed.

Lemma dbus_read_scans_witness :
  exists v t',
    dbus_read 3 0x11 0
      (sample_session (sample_info 5 DBUS_ADDRESS_UNKNOWN DBUS_OP_NOP)
         (replies [answer 3 0; answer 0 0; answer 3 7] (answer 0 9)))
    = Done v t' /\
    jtag_queue t' =
      [] ++ repeat (dbus_cmd 5 DBUS_OP_READ 0x11 0) 2
         ++ repeat (dbus_cmd 5 DBUS_OP_READ 0 0) 2.
Proof.
  apply (dbus_read_scans 3
           (sample_session (sample_info 5 DBUS_ADDRESS_UNKNOWN DBUS_OP_NOP)
              (replies [answer 3 0; answer 0 0; answer 3 7] (answer 0 9)))
           (sample_info 5 DBUS_ADDRESS_UNKNOWN DBUS_OP_NOP) 0x11 0 1 1).
  - reflexivity.
  - simpl. lia.
  - intros _. split; [ reflexivity | lia ].
  - reflexivity.
  - lia.
Defined.

(** C1, as stated, fails when the cache names the address with a WRITE:
    no read is pending, yet [dbus_read] issues only the second scan and
    never scans the address itself. *)
Lemma dbus_read_after_write_skips_address_scan :
  cache_shows (sample_info 5 0x11 DBUS_OP_WRITE) 0x11 = true /\
  dbus_op (sample_info 5 0x11 DBUS_OP_WRITE) <> DBUS_OP_READ /\
  jtag_queue
    (final (dbus_read 3 0x11 0
              (sample_session (sample_info 5 0x11 DBUS_OP_WRITE)
                 (replies [] (answer 0 9)))))
  = [dbus_cmd 5 DBUS_OP_READ 0 0] /\
  dbus_cmd 5 DBUS_OP_READ 0 0 <> dbus_cmd 5 DBUS_OP_READ 0x11 0.
Proof.
  split; [ reflexivity | ].
  split; [ discriminate | ].
  split; [ reflexivity | ].
  vm_compute. discriminate.
Qed.

(** C2: on a session (address width nonzero, as [dbus_scan] asserts),
    every [dbus_scan op address data_out] returns and leaves
    [(dbus_address, dbus_op) = (address, op)], whatever the adapter
    answered: any result code, and also a failed queue execution. *)
Theorem dbus_scan_updates_cache t i data_in op address data_out :
  arch_info t = Some i -> addrbits i <> 0 ->
  exists result t' i',
    dbus_scan data_in op address data_out t = Done result t' /\
    arch_info t' = Some i' /\
    dbus_address i' = address /\ dbus_op i' = op.
Proof.
  intros Hi Hab.
  eexists _, _, _. split.
  - apply (dbus_scan_done _ _ _ _ _ _ Hi Hab).
  - split; [ apply (after_scan_info _ _ _ _ _ Hi) | split; reflexivity ].
Qed.

Lemma dbus_scan_updates_cache_witness :
  exists result t' i',
    dbus_scan None DBUS_OP_WRITE 0x10 0x1234
      (sample_session (sample_info 5 0x11 DBUS_OP_READ)
         (replies [] transport_failure))
    = Done result t' /\
    arch_info t' = Some i' /\
    dbus_address i' = 0x10 /\ dbus_op i' = DBUS_OP_WRITE.
Proof.
  apply (dbus_scan_updates_cache
           (sample_session (sample_info 5 0x11 DBUS_OP_READ)
              (replies [] transport_failure))
           (sample_info 5 0x11 DBUS_OP_READ)).
  - reflexivity.
  - simpl. lia.
Defined.

(** C5: against an adapter that answers BUSY exactly [k] times and then
    SUCCESS, [dbus_write address value] returns after queueing exactly
    [k+1] scans, all the same command: operation WRITE, the address
    field [address], the data field [value]; nothing else is queued. *)
Theorem dbus_write_busy_then_success fuel t i address value k :
  arch_info t = Some i -> 0 < addrbits i ->
  stub_busy_then_success t 0 k = true -> (k < fuel)%nat ->
  exists t',
    dbus_write fuel address value t = Done tt t' /\
    jtag_queue t' =
      jtag_queue t
      ++ repeat (dbus_cmd (addrbits i) DBUS_OP_WRITE address value) (S k) /\
    scan_op (dbus_cmd (addrbits i) DBUS_OP_WRITE address value) =
      Some (dbus_op_code DBUS_OP_WRITE) /\
    scan_address (dbus_cmd (addrbits i) DBUS_OP_WRITE address value) =
      Some (address mod 2 ^ addrbits i) /\
    scan_data (dbus_cmd (addrbits i) DBUS_OP_WRITE address value) =
      Some (value mod 2 ^ 34).
Proof.
  intros Hi Hab Hstub Hk.
  destruct (dbus_write_settles fuel t i address value k Hi ltac:(lia)
              (stub_busy_then_success_busy_until _ _ _ Hstub) Hk)
    as (t' & Hrun & Hq & _).
  exists t'. split; [ exact Hrun | ]. split; [ exact Hq | ].
  apply dbus_cmd_fields. lia.
Qed.

Lemma dbus_write_busy_then_success_witness :
  exists t',
    dbus_write 4 0x10 0x1234
      (sample_session (sample_info 5 DBUS_ADDRESS_UNKNOWN DBUS_OP_NOP)
         (replies [answer 3 0; answer 3 0; answer 3 0] (answer 0 0)))
    = Done tt t' /\
    jtag_queue t' = [] ++ repeat (dbus_cmd 5 DBUS_OP_WRITE 0x10 0x1234) 4 /\
    scan_op (dbus_cmd 5 DBUS_OP_WRITE 0x10 0x1234) = Some 2 /\
    scan_address (dbus_cmd 5 DBUS_OP_WRITE 0x10 0x1234) =
      Some (0x10 mod 2 ^ 5) /\
    scan_data (dbus_cmd 5 DBUS_OP_WRITE 0x10 0x1234) =
      Some (0x1234 mod 2 ^ 34).
Proof.
  apply (dbus_write_busy_then_success 4
           (sample_session (sample_info 5 DBUS_ADDRESS_UNKNOWN DBUS_OP_NOP)
              (replies [answer 3 0; answer 3 0; answer 3 0] (answer 0 0)))
           (sample_info 5 DBUS_ADDRESS_UNKNOWN DBUS_OP_NOP) 0x10 0x1234 3).
  - reflexivity.
  - simpl. lia.
  - reflexivity.
  - lia.
Defined.

(** *** Instances of the relations *)

Lemma after_scan_state t op address data_out :
  state (after_scan op address data_out t) = state t.
Proof. apply after_scan_frame. Qed.

Lemma dbus_read_same_state fuel address next_address :
  keeps same_state (dbus_read fuel address next_address).
Proof.
  apply keeps_dbus_read with (allowed := fun _ _ => True); unfold same_state.
  - reflexivity.
  - intros a b c H1 H2. congruence.
  - reflexivity.
  - intros t i op ad d _ _ _. apply after_scan_state.
  - exact I.
Qed.

Lemma same_mask_refl t : same_mask t t.
Proof. intros i Hi. exists i. auto. Qed.

Lemma same_mask_trans a b c : same_mask a b -> same_mask b c -> same_mask a c.
Proof.
  intros H1 H2 i Hi. destruct (H1 i Hi) as (i1 & Hi1 & E1).
  destruct (H2 i1 Hi1) as (i2 & Hi2 & E2).
  exists i2. split; [ exact Hi2 | congruence ].
Qed.

Lemma same_mask_log t m : same_mask t (with_log (log t ++ [m]) t).
Proof. intros i Hi. exists i. auto. Qed.

Lemma same_mask_scan t i op address data_out :
  arch_info t = Some i -> addrbits i <> 0 -> True ->
  same_mask t (after_scan op address data_out t).
Proof.
  intros Hi _ _ j Hj. exists (with_cache address op i). split.
  - apply after_scan_info. exact Hi.
  - rewrite Hi in Hj. injection Hj as <-. reflexivity.
Qed.

Lemma same_mask_weaken t t' : same_mask t t' -> mask_kept_or_cleared t t'.
Proof.
  intros H i Hi. destruct (H i Hi) as (i' & Hi' & E). exists i'. auto.
Qed.

Lemma kept_or_cleared_refl t : mask_kept_or_cleared t t.
Proof. apply same_mask_weaken, same_mask_refl. Qed.

Lemma kept_or_cleared_trans a b c :
  mask_kept_or_cleared a b -> mask_kept_or_cleared b c ->
  mask_kept_or_cleared a c.
Proof.
  intros H1 H2 i Hi. destruct (H1 i Hi) as (i1 & Hi1 & E1).
  destruct (H2 i1 Hi1) as (i2 & Hi2 & E2).
  exists i2. split; [ exact Hi2 | ].
  destruct E1, E2; [ left | right | right | right ]; congruence.
Qed.

Lemma kept_or_cleared_log t m :
  mask_kept_or_cleared t (with_log (log t ++ [m]) t).
Proof. apply same_mask_weaken, same_mask_log. Qed.

Lemma kept_or_cleared_scan t i op address data_out :
  arch_info t = Some i -> addrbits i <> 0 -> True ->
  mask_kept_or_cleared t (after_scan op address data_out t).
Proof. intros Hi Hab _. apply same_mask_weaken, (same_mask_scan t i); auto. Qed.

Lemma read_only_dbus_cmd abits address :
  0 <= abits -> read_only_scan (dbus_cmd abits DBUS_OP_READ address 0).
Proof.
  intros Hab. destruct (dbus_cmd_fields abits DBUS_OP_READ address 0 Hab)
    as (Hop & _ & Hdata).
  split; [ exact Hop | exact Hdata ].
Qed.

Lemma queued_reads_only_refl t : queued_reads_only t t.
Proof.
  intros i Hi _. exists i, []. rewrite app_nil_r. auto.
Qed.

Lemma queued_reads_only_trans a b c :
  queued_reads_only a b -> queued_reads_only b c -> queued_reads_only a c.
Proof.
  intros H1 H2 i Hi Hab.
  destruct (H1 i Hi Hab) as (i1 & l1 & Hi1 & E1 & Q1 & F1).
  destruct (H2 i1 Hi1 ltac:(lia)) as (i2 & l2 & Hi2 & E2 & Q2 & F2).
  exists i2, (l1 ++ l2). repeat split.
  - exact Hi2.
  - congruence.
  - rewrite Q2, Q1, app_assoc. reflexivity.
  - apply Forall_app. auto.
Qed.

Lemma queued_reads_only_log t m :
  queued_reads_only t (with_log (log t ++ [m]) t).
Proof. intros i Hi _. exists i, []. simpl. rewrite app_nil_r. auto. Qed.

Lemma queued_reads_only_scan t i op address data_out :
  arch_info t = Some i -> addrbits i <> 0 ->
  op = DBUS_OP_READ /\ data_out = 0 ->
  queued_reads_only t (after_scan op address data_out t).
Proof.
  intros Hi _ [-> ->] j Hj Hab.
  rewrite Hi in Hj. injection Hj as <-.
  exists (with_cache address DBUS_OP_READ i),
         [dbus_cmd (addrbits i) DBUS_OP_READ address 0].
  repeat split.
  - apply after_scan_info. exact Hi.
  - apply after_scan_queue. exact Hi.
  - constructor; [ apply read_only_dbus_cmd; exact Hab | constructor ].
Qed.

(** *** Poll *)

Lemma state_with_state s t : state (with_state s t) = s.
Proof. reflexivity. Qed.

(** C3: [riscv_poll] decodes halt-acknowledged (bit 33) and
    interrupt-pending (bit 32) of the value it read: (1,1) gives
    DEBUG_RUNNING, (1,0) HALTED, (0,0) RUNNING, and (0,1) leaves the
    state as it was before the poll. *)
Theorem riscv_poll_transition_table fuel t i v t1 :
  arch_info t = Some i ->
  dbus_read fuel (poll_address i) 0 t = Done v t1 ->
  exists t',
    riscv_poll fuel t = Done ERROR_OK t' /\
    state t' =
      match Z.testbit v 33, Z.testbit v 32 with
      | true, true => TARGET_DEBUG_RUNNING
      | true, false => TARGET_HALTED
      | false, false => TARGET_RUNNING
      | false, true => state t
      end.
Proof.
  intros Hi Hread.
  pose proof (dbus_read_same_state fuel (poll_address i) 0 t) as Hst.
  rewrite Hread in Hst. unfold same_state in Hst. simpl in Hst.
  unfold riscv_poll, get_info at 1, bind at 1. rewrite Hi.
  assert (Hsel :
    (if (dbus_address i <? 0x10) || (dbus_address i =? DMCONTROL)
     then dbus_read fuel (dbus_address i) 0
     else dbus_read fuel 0 0) = dbus_read fuel (poll_address i) 0).
  { unfold poll_address.
    destruct ((dbus_address i <? 0x10) || (dbus_address i =? DMCONTROL));
      reflexivity. }
  rewrite Hsel. rewrite (bind_done _ _ _ _ _ Hread).
  unfold bind, get, modify, ret.
  eexists. split; [ reflexivity | ].
  rewrite state_with_state, get_field_haltnot, get_field_interrupt, Hst.
  destruct (Z.testbit v 33), (Z.testbit v 32); reflexivity.
Qed.

Lemma riscv_poll_transition_table_witness :
  exists t',
    riscv_poll 2
      (with_state TARGET_HALTED
         (sample_session (sample_info 5 DMCONTROL DBUS_OP_READ)
            (replies [] (answer 0 (2 ^ 32)))))
    = Done ERROR_OK t' /\
    state t' =
      match Z.testbit (2 ^ 32) 33, Z.testbit (2 ^ 32) 32 with
      | true, true => TARGET_DEBUG_RUNNING
      | true, false => TARGET_HALTED
      | false, false => TARGET_RUNNING
      | false, true => TARGET_HALTED
      end.
Proof.
  apply (riscv_poll_transition_table 2
           (with_state TARGET_HALTED
              (sample_session (sample_info 5 DMCONTROL DBUS_OP_READ)
                 (replies [] (answer 0 (2 ^ 32)))))
           (sample_info 5 DMCONTROL DBUS_OP_READ) (2 ^ 32)
           (final (dbus_read 2 DMCONTROL 0
              (with_state TARGET_HALTED
                 (sample_session (sample_info 5 DMCONTROL DBUS_OP_READ)
                    (replies [] (answer 0 (2 ^ 32)))))))).
  - reflexivity.
  - reflexivity.
Defined.

(** *** Debug RAM addresses *)

(** C6: on every index below the Debug RAM size (which [riscv_examine]
    reads from a 6-bit field, so at most 64), [dram_address] is [i] below
    16 and [0x40 + (i - 16)] from 16 on, and it is injective. *)
Theorem dram_address_map dminfo i j :
  0 <= i < dramsize_of_dminfo dminfo ->
  0 <= j < dramsize_of_dminfo dminfo ->
  dram_address i = (if i <? 16 then i else 0x40 + (i - 16)) /\
  (dram_address i = dram_address j -> i = j).
Proof.
  intros Hi Hj. pose proof (dramsize_of_dminfo_bounds dminfo) as Hb.
  assert (Hmap : forall x, 0 <= x < 64 ->
            dram_address x = if x <? 16 then x else 0x40 + (x - 16)).
  { intros x Hx. unfold dram_address, u16, u32.
    change (x <? 0x10) with (x <? 16).
    destruct (Z.ltb_spec x 16).
    - apply Z.mod_small. lia.
    - rewrite (Z.mod_small (0x40 + x - 0x10)) by lia.
      rewrite Z.mod_small by lia. lia. }
  split.
  - apply Hmap. lia.
  - rewrite (Hmap i), (Hmap j) by lia.
    destruct (Z.ltb_spec i 16), (Z.ltb_spec j 16); lia.
Qed.

Lemma dram_address_map_witness :
  dram_address 17 = (if 17 <? 16 then 17 else 0x40 + (17 - 16)) /\
  (dram_address 17 = dram_address 3 -> 17 = 3).
Proof.
  apply (dram_address_map (17 * 2 ^ 10) 17 3).
  - vm_compute. split; [ discriminate | reflexivity ].
  - vm_compute. split; [ discriminate | reflexivity ].
Defined.

(** *** The resume jump *)

Lemma below_64_cases (P : Z -> bool) :
  forallb P (map Z.of_nat (seq 0 64)) = true ->
  forall x, 0 <= x < 64 -> P x = true.
Proof.
  intros H x Hx. rewrite forallb_forall in H. apply H.
  apply in_map_iff. exists (Z.to_nat x). split; [ lia | ].
  apply in_seq. lia.
Qed.

Lemma jal_offset_resume_jump index :
  0 <= index < 64 ->
  jal_offset (jal 0 (resume_jump_offset index)) =
  DEBUG_ROM_RESUME - (DEBUG_RAM_START + 4 * index).
Proof.
  intros H. apply Z.eqb_eq.
  apply (below_64_cases
           (fun x => jal_offset (jal 0 (resume_jump_offset x))
                     =? DEBUG_ROM_RESUME - (DEBUG_RAM_START + 4 * x)));
    [ vm_compute; reflexivity | exact H ].
Qed.

Lemma jal_range rd imm : 0 <= jal rd imm < 2 ^ 32.
Proof. unfold jal, u32. apply Z.mod_pos_bound. lia. Qed.

Lemma u32_dram_word value set_interrupt :
  0 <= value < 2 ^ 32 ->
  u32 (dram_word value set_interrupt mod 2 ^ 34) = value.
Proof.
  intros Hv. unfold u32.
  rewrite <- !Z.land_ones by lia. rewrite <- Z.land_assoc.
  change (Z.land (Z.ones 34) (Z.ones 32)) with (Z.ones 32).
  unfold dram_word. destruct set_interrupt.
  - rewrite !Z.land_lor_distr_l.
    change (Z.land DMCONTROL_HALTNOT (Z.ones 32)) with 0.
    change (Z.land DMCONTROL_INTERRUPT (Z.ones 32)) with 0.
    rewrite Z.lor_0_l, Z.lor_0_r, Z.land_ones by lia.
    apply Z.mod_small. exact Hv.
  - rewrite !Z.land_lor_distr_l.
    change (Z.land DMCONTROL_HALTNOT (Z.ones 32)) with 0.
    rewrite Z.lor_0_l, Z.land_ones by lia.
    apply Z.mod_small. exact Hv.
Qed.

(** C7 (as amended): on every index of Debug RAM, [dram_write_jump]
    stages, at the bus address the index maps to, a JAL whose offset is
    [DEBUG_ROM_RESUME - (DEBUG_RAM_START + 4*index)]: the byte address of
    word [index] in the hart's view of Debug RAM, computed from the index
    itself and not from the bus address it maps to. *)
Theorem dram_write_jump_offset dminfo index set_interrupt fuel t i k :
  0 <= index < dramsize_of_dminfo dminfo ->
  arch_info t = Some i -> 0 < addrbits i ->
  busy_until t 0 k = true -> (k < fuel)%nat ->
  exists t',
    dram_write_jump fuel index set_interrupt t = Done tt t' /\
    jtag_queue t' =
      jtag_queue t
      ++ repeat (dbus_cmd (addrbits i) DBUS_OP_WRITE (dram_address index)
                   (dram_word (jal 0 (resume_jump_offset index))
                      set_interrupt)) (S k) /\
    resume_jump_offset index =
      DEBUG_ROM_RESUME - (DEBUG_RAM_START + 4 * index) /\
    staged_jump_offset
      (dbus_cmd (addrbits i) DBUS_OP_WRITE (dram_address index)
         (dram_word (jal 0 (resume_jump_offset index)) set_interrupt)) =
    Some (DEBUG_ROM_RESUME - (DEBUG_RAM_START + 4 * index)).
Proof.
  intros Hidx Hi Hab Hb Hk.
  pose proof (dramsize_of_dminfo_bounds dminfo) as Hsz.
  destruct (dbus_write_settles fuel t i (dram_address index)
              (dram_word (jal 0 (resume_jump_offset index)) set_interrupt)
              k Hi ltac:(lia) Hb Hk) as (t' & Hrun & Hq & _).
  exists t'. split; [ | split; [ exact Hq | split ] ].
  - unfold dram_write_jump, dram_write32.
    unfold dram_word in Hrun. destruct set_interrupt; exact Hrun.
  - unfold resume_jump_offset, u32, DEBUG_ROM_RESUME, DEBUG_ROM_START,
      DEBUG_RAM_START.
    apply Z.mod_small. lia.
  - unfold staged_jump_offset.
    destruct (dbus_cmd_fields (addrbits i) DBUS_OP_WRITE (dram_address index)
                (dram_word (jal 0 (resume_jump_offset index)) set_interrupt)
                ltac:(lia)) as (_ & _ & Hd).
    rewrite Hd. simpl option_map.
    rewrite u32_dram_word by apply jal_range.
    rewrite jal_offset_resume_jump by lia. reflexivity.
Qed.

Lemma dram_write_jump_offset_witness :
  exists t',
    dram_write_jump 1 5 true
      (sample_session (sample_info 5 DBUS_ADDRESS_UNKNOWN DBUS_OP_NOP)
         (replies [] (answer 0 0)))
    = Done tt t' /\
    jtag_queue t' =
      [] ++ repeat (dbus_cmd 5 DBUS_OP_WRITE (dram_address 5)
                      (dram_word (jal 0 (resume_jump_offset 5)) true)) 1 /\
    resume_jump_offset 5 = DEBUG_ROM_RESUME - (DEBUG_RAM_START + 4 * 5) /\
    staged_jump_offset
      (dbus_cmd 5 DBUS_OP_WRITE (dram_address 5)
         (dram_word (jal 0 (resume_jump_offset 5)) true)) =
    Some (DEBUG_ROM_RESUME - (DEBUG_RAM_START + 4 * 5)).
Proof.
  apply (dram_write_jump_offset (17 * 2 ^ 10) 5 true 1
           (sample_session (sample_info 5 DBUS_ADDRESS_UNKNOWN DBUS_OP_NOP)
              (replies [] (answer 0 0)))
           (sample_info 5 DBUS_ADDRESS_UNKNOWN DBUS_OP_NOP) 0).
  - vm_compute. split; [ discriminate | reflexivity ].
  - reflexivity.
  - simpl. lia.
  - reflexivity.
  - lia.
Defined.

(** C7, as stated, fails from index 16 on, where the bus address differs
    from the index: at index 16 (bus address 0x40) the staged JAL has
    offset 0x804 - (0x400 + 4*16) = 964, not 0x804 - (0x400 + 4*0x40) =
    772. *)
Lemma dram_write_jump_offset_not_from_bus_address :
  dram_address 16 = 0x40 /\
  resume_jump_offset 16 = 964 /\
  map staged_jump_offset
    (jtag_queue
       (final (dram_write_jump 1 16 true
                 (sample_session
                    (sample_info 5 DBUS_ADDRESS_UNKNOWN DBUS_OP_NOP)
                    (replies [] (answer 0 0))))))
  = [Some 964] /\
  DEBUG_ROM_RESUME - (DEBUG_RAM_START + 4 * dram_address 16) = 772.
Proof. repeat split. Qed.

(** *** Examine after a failed DTM-info scan *)

(** C8 (the code departs from it): when the queue execution of
    [dtminfo_read] fails with [ERROR_FAIL], [dtminfo_read] returns the
    error code as if it were the register (0xfffffffc, what a successful
    scan of that register content returns too), and [riscv_examine]
    decodes [addrbits = 15] from it, goes on to scan the debug bus
    eighteen times and returns [ERROR_OK] with the target examined. *)
Theorem riscv_examine_ignores_dtminfo_failure :
  let t0 := final (riscv_init_target
                     (fresh_target (replies [transport_failure] (answer 0 0)))) in
  let t1 := final (riscv_init_target
                     (fresh_target
                        (replies [mk_reply ERROR_OK 0xfffffffc] (answer 0 0)))) in
  (exists ta tb,
     dtminfo_read t0 = Done 0xfffffffc ta /\
     log ta = [dtminfo_read_failed] /\
     dtminfo_read t1 = Done 0xfffffffc tb) /\
  exists t' i',
    riscv_examine 1 t0 = Done ERROR_OK t' /\
    examined t' = true /\
    arch_info t' = Some i' /\ addrbits i' = 15 /\
    length (jtag_queue t') = 20%nat /\
    jtag_executions t' = 19%nat.
Proof.
  cbv zeta. split.
  - eexists _, _. split; [ vm_compute; reflexivity | ].
    split; vm_compute; reflexivity.
  - eexists _, _. split; [ vm_compute; reflexivity | ].
    repeat split; vm_compute; reflexivity.
Qed.

(** *** The validity mask *)

Lemma same_mask_same_info t t' :
  arch_info t' = arch_info t -> same_mask t t'.
Proof. intros H i Hi. exists i. rewrite H. auto. Qed.

Lemma kept_or_cleared_same_info t t' :
  arch_info t' = arch_info t -> mask_kept_or_cleared t t'.
Proof. intros H. apply same_mask_weaken, same_mask_same_info, H. Qed.

Lemma dbus_write_same_mask fuel address value :
  keeps same_mask (dbus_write fuel address value).
Proof.
  apply keeps_dbus_write with (allowed := fun _ _ => True).
  - exact same_mask_refl.
  - exact same_mask_trans.
  - exact same_mask_log.
  - intros t i op ad d Hi Hab _. apply (same_mask_scan t i); auto.
  - exact I.
Qed.

Lemma dbus_read_same_mask fuel address next_address :
  keeps same_mask (dbus_read fuel address next_address).
Proof.
  apply keeps_dbus_read with (allowed := fun _ _ => True).
  - exact same_mask_refl.
  - exact same_mask_trans.
  - exact same_mask_log.
  - intros t i op ad d Hi Hab _. apply (same_mask_scan t i); auto.
  - exact I.
Qed.

Ltac sm_bind :=
  apply keeps_bind; [ exact same_mask_trans | | ].

Lemma dram_write32_same_mask fuel index value set_interrupt :
  keeps same_mask (dram_write32 fuel index value set_interrupt).
Proof. unfold dram_write32. apply dbus_write_same_mask. Qed.

Lemma dram_read32_same_mask fuel index set_interrupt :
  keeps same_mask (dram_read32 fuel index set_interrupt).
Proof.
  unfold dram_read32.
  sm_bind; [ apply dbus_read_same_mask | intros v ].
  apply keeps_ret, same_mask_refl.
Qed.

Lemma dram_check32_same_mask fuel index expected :
  keeps same_mask (dram_check32 fuel index expected).
Proof.
  unfold dram_check32.
  sm_bind; [ apply dram_read32_same_mask | intros actual ].
  apply keeps_if.
  - apply keeps_LOG_ERROR, same_mask_log.
  - apply keeps_ret, same_mask_refl.
Qed.

Lemma riscv_poll_same_mask fuel : keeps same_mask (riscv_poll fuel).
Proof.
  unfold riscv_poll.
  sm_bind; [ apply keeps_get_info, same_mask_refl | intros info ].
  sm_bind; [ apply keeps_if; apply dbus_read_same_mask | intros value ].
  sm_bind; [ apply keeps_get, same_mask_refl | intros t0 ].
  sm_bind.
  - apply keeps_modify. intros t. apply same_mask_same_info. reflexivity.
  - intros _. apply keeps_ret, same_mask_refl.
Qed.

Ltac kc_bind :=
  apply keeps_bind; [ exact kept_or_cleared_trans | | ].

Lemma kc_weaken {A} (m : M A) :
  keeps same_mask m -> keeps mask_kept_or_cleared m.
Proof. intros H t. apply same_mask_weaken, H. Qed.

Lemma kc_same_info f :
  (forall t, arch_info (f t) = arch_info t) ->
  keeps mask_kept_or_cleared (modify f).
Proof.
  intros H. apply keeps_modify. intros t.
  apply kept_or_cleared_same_info, H.
Qed.

Lemma kc_update_info {A} (f : riscv_info_t -> riscv_info_t) (rest : M A) :
  (forall i, dram_valid (f i) = dram_valid i \/ dram_valid (f i) = 0) ->
  keeps mask_kept_or_cleared rest ->
  keeps mask_kept_or_cleared
    (info <- get_info ;; set_info (f info) ;;; rest).
Proof.
  intros Hf Hrest. apply keeps_with_info; [ exact kept_or_cleared_refl | ].
  intros i t Hi.
  change (final ((set_info (f i) ;;; rest) t))
    with (final (rest (with_arch_info (Some (f i)) t))).
  apply kept_or_cleared_trans with (with_arch_info (Some (f i)) t).
  - intros j Hj. rewrite Hi in Hj. injection Hj as <-.
    exists (f i). split; [ reflexivity | apply Hf ].
  - apply Hrest.
Qed.

Lemma dtminfo_read_kept_or_cleared : keeps mask_kept_or_cleared dtminfo_read.
Proof.
  unfold dtminfo_read.
  kc_bind; [ apply keeps_get, kept_or_cleared_refl | intros t0 ].
  kc_bind; [ apply kc_same_info; reflexivity | intros _ ].
  kc_bind; [ apply kc_same_info; reflexivity | intros _ ].
  kc_bind.
  - intros t. apply kept_or_cleared_same_info. reflexivity.
  - intros reply. apply keeps_if.
    + kc_bind; [ apply keeps_LOG_ERROR, kept_or_cleared_log | intros _ ].
      apply keeps_ret, kept_or_cleared_refl.
    + kc_bind; [ apply kc_same_info; reflexivity | intros _ ].
      apply keeps_ret, kept_or_cleared_refl.
Qed.

Lemma riscv_examine_kept_or_cleared fuel :
  keeps mask_kept_or_cleared (riscv_examine fuel).
Proof.
  unfold riscv_examine.
  kc_bind.
  { unfold target_was_examined.
    kc_bind; [ apply keeps_get, kept_or_cleared_refl | intros t0 ].
    apply keeps_ret, kept_or_cleared_refl. }
  intros was. apply keeps_if; [ apply keeps_ret, kept_or_cleared_refl | ].
  kc_bind; [ apply dtminfo_read_kept_or_cleared | intros dtminfo ].
  apply kc_update_info; [ intros i; left; reflexivity | ].
  kc_bind; [ apply kc_weaken, dbus_read_same_mask | intros v ].
  cbv zeta.
  apply kc_update_info; [ intros i; left; reflexivity | ].
  kc_bind.
  { unfold allocate.
    kc_bind; [ apply keeps_get, kept_or_cleared_refl | intros t0 ].
    apply keeps_ret, kept_or_cleared_refl. }
  intros p.
  apply kc_update_info; [ intros i; left; reflexivity | ].
  destruct p as [n|]; [ | apply keeps_ret, kept_or_cleared_refl ].
  apply kc_update_info; [ intros i; right; reflexivity | ].
  apply keeps_if.
  { kc_bind; [ apply keeps_LOG_ERROR, kept_or_cleared_log | intros _ ].
    apply keeps_ret, kept_or_cleared_refl. }
  do 5 (kc_bind; [ apply kc_weaken, dram_write32_same_mask | intros _ ]).
  kc_bind; [ apply kc_weaken, dram_write32_same_mask | intros _ ].
  do 5 (kc_bind; [ apply kc_weaken, dram_check32_same_mask | intros _ ]).
  kc_bind; [ apply kc_same_info; reflexivity | intros _ ].
  apply keeps_ret, kept_or_cleared_refl.
Qed.

(** C9 (as amended): no call sets a bit of [dram_valid].
    [riscv_init_target] starts the session with the mask 0;
    [dram_write32] (also when the write succeeds), [dram_write_jump],
    [dram_read32] and [riscv_poll] leave the mask as it is, and
    [riscv_examine] leaves it as it is or clears it. *)
Theorem dram_valid_never_set :
  (forall t, heap_available t = true ->
     exists t' i, riscv_init_target t = Done ERROR_OK t' /\
                  arch_info t' = Some i /\ dram_valid i = 0) /\
  (forall fuel index value set_interrupt t i,
     arch_info t = Some i ->
     exists i',
       arch_info (final (dram_write32 fuel index value set_interrupt t))
         = Some i' /\
       dram_valid i' = dram_valid i) /\
  (forall fuel index set_interrupt,
     keeps same_mask (dram_write_jump fuel index set_interrupt)) /\
  (forall fuel index set_interrupt,
     keeps same_mask (dram_read32 fuel index set_interrupt)) /\
  (forall fuel, keeps same_mask (riscv_poll fuel)) /\
  (forall fuel, keeps mask_kept_or_cleared (riscv_examine fuel)).
Proof.
  split; [ | split; [ | split; [ | split; [ | split ] ] ] ].
  - intros t Hheap. unfold riscv_init_target, allocate, bind, get, ret.
    rewrite Hheap. simpl. eexists _, _. repeat split.
  - intros fuel index value set_interrupt t i Hi.
    apply (dram_write32_same_mask fuel index value set_interrupt t i Hi).
  - intros fuel index set_interrupt. apply dram_write32_same_mask.
  - intros. apply dram_read32_same_mask.
  - apply riscv_poll_same_mask.
  - apply riscv_examine_kept_or_cleared.
Qed.

Lemma dram_valid_never_set_witness :
  exists i',
    arch_info
      (final (dram_write32 1 0 0x1234 false
                (sample_session
                   (sample_info 5 DBUS_ADDRESS_UNKNOWN DBUS_OP_NOP)
                   (replies [] (answer 0 0)))))
    = Some i' /\
    dram_valid i' =
    dram_valid (sample_info 5 DBUS_ADDRESS_UNKNOWN DBUS_OP_NOP).
Proof.
  apply (proj1 (proj2 dram_valid_never_set) 1%nat 0 0x1234 false
           (sample_session (sample_info 5 DBUS_ADDRESS_UNKNOWN DBUS_OP_NOP)
              (replies [] (answer 0 0)))
           (sample_info 5 DBUS_ADDRESS_UNKNOWN DBUS_OP_NOP)).
  reflexivity.
Defined.

(** C9, as stated, fails: a write to word 0 that the adapter answers with
    SUCCESS returns without an error logged, and bit 0 of [dram_valid] is
    still clear. *)
Lemma dram_write32_success_leaves_bit_clear :
  exists t' i',
    dram_write32 1 0 0x1234 false
      (sample_session (sample_info 5 DBUS_ADDRESS_UNKNOWN DBUS_OP_NOP)
         (replies [] (answer DBUS_RESULT_SUCCESS 0)))
    = Done tt t' /\
    log t' = [] /\
    arch_info t' = Some i' /\
    Z.testbit (dram_valid i') 0 = false.
Proof. eexists _, _. repeat split. Qed.

(** *** Debug RAM reads *)

(** C10: [dram_read32] does not look at [set_interrupt]: with [true] and
    with [false] it has the same outcome (value returned, scans queued
    and target left behind), and what it queues are READ scans with an
    all-zero data field, so the halt and interrupt bits are never sent. *)
Theorem dram_read32_ignores_set_interrupt fuel t i index :
  arch_info t = Some i -> 0 <= addrbits i ->
  dram_read32 fuel index true t = dram_read32 fuel index false t /\
  forall set_interrupt,
    exists l,
      jtag_queue (final (dram_read32 fuel index set_interrupt t)) =
        jtag_queue t ++ l /\
      Forall read_only_scan l.
Proof.
  intros Hi Hab. split; [ reflexivity | ].
  intros set_interrupt.
  assert (H : keeps queued_reads_only (dram_read32 fuel index set_interrupt)).
  { apply keeps_dram_read32
      with (allowed := fun op d => op = DBUS_OP_READ /\ d = 0).
    - exact queued_reads_only_refl.
    - exact queued_reads_only_trans.
    - exact queued_reads_only_log.
    - intros t0 i0 op ad d Hi0 Hab0 Hop.
      apply (queued_reads_only_scan t0 i0); assumption.
    - split; reflexivity. }
  destruct (H t i Hi Hab) as (i' & l & _ & _ & Hq & Hl).
  exists l. auto.
Qed.

Lemma dram_read32_ignores_set_interrupt_witness :
  dram_read32 3 17 true
    (sample_session (sample_info 5 0x10 DBUS_OP_WRITE)
       (replies [answer 3 0] (answer 0 9)))
  = dram_read32 3 17 false
      (sample_session (sample_info 5 0x10 DBUS_OP_WRITE)
         (replies [answer 3 0] (answer 0 9))) /\
  forall set_interrupt,
    exists l,
      jtag_queue
        (final (dram_read32 3 17 set_interrupt
                  (sample_session (sample_info 5 0x10 DBUS_OP_WRITE)
                     (replies [answer 3 0] (answer 0 9))))) =
        jtag_queue
          (sample_session (sample_info 5 0x10 DBUS_OP_WRITE)
             (replies [answer 3 0] (answer 0 9))) ++ l /\
      Forall read_only_scan l.
Proof.
  apply (dram_read32_ignores_set_interrupt 3
           (sample_session (sample_info 5 0x10 DBUS_OP_WRITE)
              (replies [answer 3 0] (answer 0 9)))
           (sample_info 5 0x10 DBUS_OP_WRITE) 17).
  - reflexivity.
  - simpl. lia.
Defined.

(** *** Termination of the retry loops *)

Lemma terminates_bind_inv {A B} (m : M A) (k : A -> M B) t :
  terminates (bind m k t) = true -> terminates (m t) = true.
Proof. unfold bind. destruct (m t); simpl; auto. Qed.

(** A loop that comes back within [fuel] iterations met an answer other
    than BUSY among the first [fuel] scans. *)
Lemma scan_while_busy_terminates_inv fuel :
  forall t i data_in op address data_out,
    arch_info t = Some i -> addrbits i <> 0 ->
    terminates
      (scan_while_busy fuel data_in op address data_out DBUS_RESULT_BUSY t)
    = true ->
    exists k, (k < fuel)%nat /\ busy_until t 0 k = true.
Proof.
  induction fuel as [|fuel IH]; intros t i data_in op address data_out
    Hi Hab Hterm.
  - discriminate Hterm.
  - cbn [scan_while_busy] in Hterm.
    change (DBUS_RESULT_BUSY =? DBUS_RESULT_BUSY) with true in Hterm.
    cbv iota in Hterm.
    rewrite (bind_done _ _ _ _ _ (dbus_scan_done _ _ _ _ _ _ Hi Hab)) in Hterm.
    cbn [fst snd] in Hterm.
    destruct (reply_result (reply_at t 0) =? DBUS_RESULT_BUSY) eqn:Hres.
    + apply Z.eqb_eq in Hres. rewrite Hres in Hterm.
      pose proof (after_scan_info _ _ op address data_out Hi) as Hi'.
      destruct (IH _ _ _ _ _ _ Hi' Hab Hterm) as (k & Hk & Hb).
      exists (S k). split; [ lia | ].
      simpl. rewrite Hres. change (DBUS_RESULT_BUSY =? DBUS_RESULT_BUSY) with true.
      simpl.
      rewrite <- (busy_until_shift t (after_scan op address data_out t) 0 k).
      * exact Hb.
      * intros n. apply (after_scan_reply_at _ _ _ _ _ _ Hi).
    + exists 0%nat. split; [ lia | ]. simpl. rewrite Hres. reflexivity.
Qed.

Lemma dbus_write_returns_iff t i address value :
  arch_info t = Some i -> addrbits i <> 0 ->
  (exists fuel, terminates (dbus_write fuel address value t) = true) <->
  (exists k, busy_until t 0 k = true).
Proof.
  intros Hi Hab. split.
  - intros (fuel & Hterm). unfold dbus_write in Hterm.
    apply terminates_bind_inv in Hterm.
    destruct (scan_while_busy_terminates_inv _ _ _ _ _ _ _ Hi Hab Hterm)
      as (k & _ & Hb).
    exists k. exact Hb.
  - intros (k & Hb). exists (S k).
    destruct (dbus_write_settles (S k) t i address value k Hi Hab Hb
                ltac:(lia)) as (t' & Hrun & _).
    rewrite Hrun. reflexivity.
Qed.

Lemma dbus_read_terminates_inv fuel t i address next_address :
  arch_info t = Some i -> addrbits i <> 0 ->
  terminates (dbus_read fuel address next_address t) = true ->
  exists k1 k2,
    (cache_shows i address = false ->
     busy_until t 0 k1 = true /\ (k1 < fuel)%nat) /\
    busy_until t (if cache_shows i address then 0 else S k1) k2 = true /\
    (k2 < fuel)%nat.
Proof.
  intros Hi Hab Hterm. unfold dbus_read in Hterm.
  unfold get_info at 1, bind at 1 in Hterm. rewrite Hi in Hterm.
  unfold get at 1, bind at 1 in Hterm.
  rewrite source_test_cache_shows in Hterm.
  destruct (cache_shows i address) eqn:Hc; cbn [negb] in Hterm.
  - unfold bind at 1, ret at 1 in Hterm.
    apply terminates_bind_inv in Hterm.
    destruct (scan_while_busy_terminates_inv _ _ _ _ _ _ _ Hi Hab Hterm)
      as (k2 & Hk2 & Hb).
    exists 0%nat, k2. split; [ discriminate | split; assumption ].
  - pose proof (terminates_bind_inv _ _ _ Hterm) as Hterm1.
    apply terminates_bind_inv in Hterm1.
    destruct (scan_while_busy_terminates_inv _ _ _ _ _ _ _ Hi Hab Hterm1)
      as (k1 & Hk1 & Hb1).
    rewrite (bind_done _ _ t tt
               (after_scans (S k1) DBUS_OP_READ address 0 t)) in Hterm.
    2:{ rewrite (bind_done _ _ _ _ _
                   (scan_while_busy_settles k1 fuel t i None DBUS_OP_READ
                      address 0 Hi Hab Hb1 Hk1)).
        reflexivity. }
    apply terminates_bind_inv in Hterm.
    pose proof (after_scans_info k1 t i DBUS_OP_READ address 0 Hi) as Hi1.
    destruct (scan_while_busy_terminates_inv _ _ _ _ _ _ _ Hi1 Hab Hterm)
      as (k2 & Hk2 & Hb2).
    exists k1, k2. split; [ intros _; split; assumption | ].
    rewrite (busy_until_after_scans _ _ _ _ _ _ _ _ Hi) in Hb2.
    rewrite Nat.add_0_r in Hb2. split; assumption.
Qed.

Lemma dbus_read_returns_iff t i address next_address :
  arch_info t = Some i -> addrbits i <> 0 ->
  (exists fuel, terminates (dbus_read fuel address next_address t) = true) <->
  (exists k1 k2,
     (cache_shows i address = false -> busy_until t 0 k1 = true) /\
     busy_until t (if cache_shows i address then 0 else S k1) k2 = true).
Proof.
  intros Hi Hab. split.
  - intros (fuel & Hterm).
    destruct (dbus_read_terminates_inv _ _ _ _ _ Hi Hab Hterm)
      as (k1 & k2 & H1 & H2 & _).
    exists k1, k2. split; [ intros Hc; apply H1, Hc | exact H2 ].
  - intros (k1 & k2 & H1 & H2).
    destruct (dbus_read_settles (S (k1 + k2)) t i address next_address k1 k2
                Hi Hab) as (v & t' & Hrun & _).
    + intros Hc. split; [ apply H1, Hc | lia ].
    + exact H2.
    + lia.
    + exists (S (k1 + k2)). rewrite Hrun. reflexivity.
Qed.

(** C4 (as amended): the retry loops have no ceiling.  [dbus_write]
    returns exactly when some scan ahead is answered with something other
    than BUSY, and [dbus_read] exactly when that holds for its first loop
    (if entered) and then for its second; a call that returns does so
    normally, with no error raised for lack of a reply. *)
Theorem retry_loops_have_no_ceiling t i address value next_address :
  arch_info t = Some i -> addrbits i <> 0 ->
  ((exists fuel, terminates (dbus_write fuel address value t) = true) <->
   (exists k, busy_until t 0 k = true)) /\
  ((exists fuel,
      terminates (dbus_read fuel address next_address t) = true) <->
   (exists k1 k2,
      (cache_shows i address = false -> busy_until t 0 k1 = true) /\
      busy_until t (if cache_shows i address then 0 else S k1) k2 = true)) /\
  (forall fuel,
     terminates (dbus_write fuel address value t) = true ->
     exists t', dbus_write fuel address value t = Done tt t') /\
  (forall fuel,
     terminates (dbus_read fuel address next_address t) = true ->
     exists v t', dbus_read fuel address next_address t = Done v t').
Proof.
  intros Hi Hab.
  split; [ apply (dbus_write_returns_iff t i); assumption | ].
  split; [ apply (dbus_read_returns_iff t i); assumption | ].
  split.
  - intros fuel Hterm. unfold dbus_write in *.
    pose proof (terminates_bind_inv _ _ _ Hterm) as Hloop.
    destruct (scan_while_busy_terminates_inv _ _ _ _ _ _ _ Hi Hab Hloop)
      as (k & Hk & Hb).
    destruct (dbus_write_settles fuel t i address value k Hi Hab Hb Hk)
      as (t' & Hrun & _).
    exists t'. exact Hrun.
  - intros fuel Hterm.
    destruct (dbus_read_terminates_inv _ _ _ _ _ Hi Hab Hterm)
      as (k1 & k2 & H1 & H2 & Hk2).
    destruct (dbus_read_settles fuel t i address next_address k1 k2
                Hi Hab H1 H2 Hk2) as (v & t' & Hrun & _).
    exists v, t'. exact Hrun.
Qed.

Lemma retry_loops_have_no_ceiling_witness :
  ((exists fuel,
      terminates
        (dbus_write fuel 0x10 0x1234
           (sample_session (sample_info 5 DBUS_ADDRESS_UNKNOWN DBUS_OP_NOP)
              (replies [answer 3 0; answer 3 0] (answer 0 0)))) = true) <->
   (exists k,
      busy_until
        (sample_session (sample_info 5 DBUS_ADDRESS_UNKNOWN DBUS_OP_NOP)
           (replies [answer 3 0; answer 3 0] (answer 0 0))) 0 k = true)) /\
  (exists k,
     busy_until
       (sample_session (sample_info 5 DBUS_ADDRESS_UNKNOWN DBUS_OP_NOP)
          (replies [answer 3 0; answer 3 0] (answer 0 0))) 0 k = true).
Proof.
  split.
  - apply (retry_loops_have_no_ceiling
             (sample_session (sample_info 5 DBUS_ADDRESS_UNKNOWN DBUS_OP_NOP)
                (replies [answer 3 0; answer 3 0] (answer 0 0)))
             (sample_info 5 DBUS_ADDRESS_UNKNOWN DBUS_OP_NOP)
             0x10 0x1234 0).
    + reflexivity.
    + simpl. lia.
  - exists 2%nat. reflexivity.
Defined.

Lemma always_busy_never_settles k :
  forall start, busy_until always_busy_session start k = false.
Proof.
  induction k as [|k IH]; intros start.
  - reflexivity.
  - cbn [busy_until]. rewrite IH. apply andb_false_r.
Qed.

(** C4, as stated, fails: against an adapter that answers BUSY to every
    scan, no amount of fuel lets [dbus_write] or [dbus_read] come back,
    with an error or otherwise. *)
Lemma busy_forever_never_returns :
  ~ (exists fuel,
       terminates (dbus_write fuel 0x10 0x1234 always_busy_session) = true)
  /\
  ~ (exists fuel,
       terminates (dbus_read fuel 0x10 0 always_busy_session) = true).
Proof.
  assert (Hi : arch_info always_busy_session =
               Some (sample_info 5 DBUS_ADDRESS_UNKNOWN DBUS_OP_NOP))
    by reflexivity.
  assert (Hab : addrbits (sample_info 5 DBUS_ADDRESS_UNKNOWN DBUS_OP_NOP)
                <> 0) by (simpl; lia).
  split.
  - intros H.
    apply (dbus_write_returns_iff _ _ 0x10 0x1234 Hi Hab) in H.
    destruct H as (k & Hk).
    rewrite always_busy_never_settles in Hk. discriminate Hk.
  - intros H.
    apply (dbus_read_returns_iff _ _ 0x10 0 Hi Hab) in H.
    destruct H as (k1 & k2 & _ & Hk).
    rewrite always_busy_never_settles in Hk. discriminate Hk.
Qed.

(** * Further properties *)

(** ** Runs of the debug-bus engine, with their log and value *)

Lemma after_scan_log t i op address data_out :
  arch_info t = Some i ->
  log (after_scan op address data_out t) = log t ++ scan_failures t 0 1.
Proof.
  intros Hi. unfold after_scan. rewrite Hi. simpl.
  destruct (retval (reply_at t 0) =? ERROR_OK); simpl.
  - symmetry. apply app_nil_r.
  - reflexivity.
Qed.

Lemma scan_failures_shift t t' start n :
  (forall m, reply_at t' m = reply_at t (S m)) ->
  scan_failures t' start n = scan_failures t (S start) n.
Proof.
  intros H. revert start. induction n as [|n IH]; intros start; simpl.
  - reflexivity.
  - rewrite H, IH. reflexivity.
Qed.

Lemma after_scans_log n :
  forall t i op address data_out,
    arch_info t = Some i ->
    log (after_scans n op address data_out t) = log t ++ scan_failures t 0 n.
Proof.
  induction n as [|n IH]; intros t i op address data_out Hi.
  - simpl. symmetry. apply app_nil_r.
  - cbn [after_scans].
    rewrite (IH _ _ _ _ _ (after_scan_info _ _ op address data_out Hi)).
    rewrite (after_scan_log _ _ _ _ _ Hi).
    rewrite (scan_failures_shift t _ 0 n
               (fun m => after_scan_reply_at t i op address data_out m Hi)).
    cbn [scan_failures]. rewrite <- !app_assoc. reflexivity.
Qed.

Lemma stub_answers_executed t n code :
  stub_answers t n code = true -> retval (reply_at t n) = ERROR_OK.
Proof.
  unfold stub_answers. intros H. apply andb_true_iff in H.
  apply Z.eqb_eq. apply H.
Qed.

Lemma stub_busy_then_busy_until t k code :
  code <> DBUS_RESULT_BUSY ->
  forall start,
    stub_busy_then t start k code = true ->
    busy_until t start k = true /\
    reply_result (reply_at t (start + k)) = code /\
    retval (reply_at t (start + k)) = ERROR_OK /\
    scan_failures t start (S k) = [].
Proof.
  intros Hc. induction k as [|k IH]; intros start H; cbn [stub_busy_then] in H.
  - rewrite Nat.add_0_r.
    pose proof (stub_answers_result _ _ _ H) as Hr.
    pose proof (stub_answers_executed _ _ _ H) as He.
    repeat split.
    + simpl. rewrite Hr. apply negb_true_iff, Z.eqb_neq, Hc.
    + exact Hr.
    + exact He.
    + simpl. rewrite He. reflexivity.
  - apply andb_true_iff in H. destruct H as [H1 H2].
    destruct (IH _ H2) as (Hb & Hr & He & Hf).
    replace (start + S k)%nat with (S start + k)%nat by lia.
    repeat split.
    + cbn [busy_until]. rewrite (stub_answers_result _ _ _ H1), Hb. reflexivity.
    + exact Hr.
    + exact He.
    + cbn [scan_failures] in *.
      rewrite (stub_answers_executed _ _ _ H1). exact Hf.
Qed.

(** [dbus_write] on a run that settles after [k] BUSY answers: the
    target it leaves. *)
Lemma dbus_write_run fuel t i address value k :
  arch_info t = Some i -> addrbits i <> 0 ->
  busy_until t 0 k = true -> (k < fuel)%nat ->
  dbus_write fuel address value t =
  Done tt
    (if reply_result (reply_at t k) =? DBUS_RESULT_SUCCESS
     then after_scans (S k) DBUS_OP_WRITE address value t
     else with_log
            (log (after_scans (S k) DBUS_OP_WRITE address value t)
             ++ [dbus_write_failed value address
                   (reply_result (reply_at t k))])
            (after_scans (S k) DBUS_OP_WRITE address value t)).
Proof.
  intros Hi Hab Hb Hk. unfold dbus_write.
  rewrite (bind_done _ _ _ _ _
             (scan_while_busy_settles k fuel t i None DBUS_OP_WRITE
                address value Hi Hab Hb Hk)).
  cbn [fst snd].
  destruct (reply_result (reply_at t k) =? DBUS_RESULT_SUCCESS); reflexivity.
Qed.

Lemma stored_some t n :
  forall start x,
    retval (reply_at t (start + n)) = ERROR_OK ->
    stored t start (S n) (Some x) = Some (reply_data (reply_at t (start + n))).
Proof.
  induction n as [|n IH]; intros start x He.
  - rewrite Nat.add_0_r in *. cbn [stored]. unfold store. rewrite He.
    reflexivity.
  - replace (start + S n)%nat with (S start + n)%nat in * by lia.
    change (stored t start (S (S n)) (Some x))
      with (stored t (S start) (S n) (store (Some x) (reply_at t start))).
    unfold store at 1.
    destruct (retval (reply_at t start) =? ERROR_OK); apply IH; exact He.
Qed.

(** [dbus_read] on a run that settles: value returned and target left. *)
Lemma dbus_read_run fuel t i address next_address k1 k2 :
  arch_info t = Some i -> addrbits i <> 0 ->
  (cache_shows i address = false ->
   busy_until t 0 k1 = true /\ (k1 < fuel)%nat) ->
  busy_until t (if cache_shows i address then 0 else S k1) k2 = true ->
  (k2 < fuel)%nat ->
  let n1 := if cache_shows i address then 0%nat else S k1 in
  let t1 := after_scans n1 DBUS_OP_READ address 0 t in
  let t2 := after_scans (S k2) DBUS_OP_READ next_address 0 t1 in
  let result := reply_result (reply_at t (n1 + k2)) in
  dbus_read fuel address next_address t =
  Done (deref (stored t n1 (S k2) (Some (uninitialised t))) (uninitialised t))
    (if result =? DBUS_RESULT_SUCCESS then t2
     else with_log (log t2 ++ [dbus_read_failed address result]) t2).
Proof.
  intros Hi Hab H1 H2 Hk2 n1 t1 t2 result.
  unfold dbus_read.
  unfold get_info at 1, bind at 1. rewrite Hi.
  unfold get at 1, bind at 1.
  rewrite source_test_cache_shows.
  assert (Hfirst :
    (if negb (cache_shows i address)
     then scan_while_busy fuel None DBUS_OP_READ address 0 DBUS_RESULT_BUSY
          ;;; ret tt
     else ret tt) t = Done tt t1).
  { unfold t1, n1. destruct (cache_shows i address); cbn [negb].
    - reflexivity.
    - destruct (H1 eq_refl) as [Hb Hlt].
      rewrite (bind_done _ _ _ _ _
                 (scan_while_busy_settles k1 fuel t i None DBUS_OP_READ
                    address 0 Hi Hab Hb Hlt)).
      reflexivity. }
  rewrite (bind_done _ _ _ _ _ Hfirst).
  destruct (after_scans_addrbits n1 t i DBUS_OP_READ address 0 Hi)
    as (i1 & Hi1 & Hab1 & _).
  fold t1 in Hi1.
  assert (Hsh : forall m, reply_at t1 m = reply_at t (n1 + m)).
  { intros m. apply (after_scans_reply_at _ _ _ _ _ _ _ Hi). }
  assert (Hb2 : busy_until t1 0 k2 = true).
  { unfold t1. rewrite (busy_until_after_scans _ _ _ _ _ _ _ _ Hi).
    rewrite Nat.add_0_r. exact H2. }
  assert (Hab1' : addrbits i1 <> 0) by (rewrite Hab1; exact Hab).
  rewrite (bind_done _ _ _ _ _
             (scan_while_busy_settles k2 fuel t1 i1
                (Some (uninitialised t)) DBUS_OP_READ next_address 0
                Hi1 Hab1' Hb2 Hk2)).
  cbn [fst snd]. fold t2. rewrite Hsh. fold result.
  assert (Hst : forall m s x, stored t1 s m x = stored t (n1 + s) m x).
  { induction m as [|m IHm]; intros s x; cbn [stored].
    - reflexivity.
    - rewrite Hsh, IHm. replace (n1 + S s)%nat with (S (n1 + s)) by lia.
      reflexivity. }
  rewrite Hst, Nat.add_0_r.
  destruct (result =? DBUS_RESULT_SUCCESS); reflexivity.
Qed.

Lemma with_log_queue l t : jtag_queue (with_log l t) = jtag_queue t.
Proof. reflexivity. Qed.

Lemma with_log_info l t : arch_info (with_log l t) = arch_info t.
Proof. reflexivity. Qed.

Lemma with_log_log l t : log (with_log l t) = l.
Proof. reflexivity. Qed.

(** X1: when both loops of [dbus_read] settle and the queue execution
    that ends the second loop succeeded, the value returned is the data
    field (bits 2..35) of that last reply, whatever the earlier replies
    carried, and the cache is left at [(next_address, READ)]. *)
Theorem dbus_read_returns_last_data fuel t i address next_address k1 k2 :
  arch_info t = Some i -> addrbits i <> 0 ->
  (cache_shows i address = false ->
   busy_until t 0 k1 = true /\ (k1 < fuel)%nat) ->
  busy_until t (if cache_shows i address then 0 else S k1) k2 = true ->
  (k2 < fuel)%nat ->
  retval (reply_at t ((if cache_shows i address then 0 else S k1) + k2))
    = ERROR_OK ->
  exists t',
    dbus_read fuel address next_address t =
      Done (reply_data
              (reply_at t ((if cache_shows i address then 0 else S k1) + k2)))
           t' /\
    arch_info t' = Some (with_cache next_address DBUS_OP_READ i).
Proof.
  intros Hi Hab H1 H2 Hk2 He.
  pose proof (dbus_read_run fuel t i address next_address k1 k2
                Hi Hab H1 H2 Hk2) as Hrun.
  cbv zeta in Hrun. rewrite Hrun.
  rewrite (stored_some t k2 _ _ He). cbn [deref].
  eexists. split; [ reflexivity | ].
  destruct (dbus_read_settles fuel t i address next_address k1 k2
              Hi Hab H1 H2 Hk2) as (v & t' & Hrun' & _ & Hinfo).
  rewrite Hrun in Hrun'. injection Hrun' as _ <-. exact Hinfo.
Qed.

Lemma dbus_read_returns_last_data_witness :
  exists t',
    dbus_read 3 0x11 0
      (sample_session (sample_info 5 DBUS_ADDRESS_UNKNOWN DBUS_OP_NOP)
         (replies [answer 3 5; answer 0 6; answer 3 7] (answer 0 9)))
    = Done
        (reply_data
           (reply_at
              (sample_session (sample_info 5 DBUS_ADDRESS_UNKNOWN DBUS_OP_NOP)
                 (replies [answer 3 5; answer 0 6; answer 3 7] (answer 0 9)))
              (2 + 1)))
        t' /\
    arch_info t' =
      Some (with_cache 0 DBUS_OP_READ
              (sample_info 5 DBUS_ADDRESS_UNKNOWN DBUS_OP_NOP)).
Proof.
  apply (dbus_read_returns_last_data 3
           (sample_session (sample_info 5 DBUS_ADDRESS_UNKNOWN DBUS_OP_NOP)
              (replies [answer 3 5; answer 0 6; answer 3 7] (answer 0 9)))
           (sample_info 5 DBUS_ADDRESS_UNKNOWN DBUS_OP_NOP) 0x11 0 1 1).
  - reflexivity.
  - simpl. lia.
  - intros _. split; [ reflexivity | lia ].
  - reflexivity.
  - lia.
  - reflexivity.
Defined.

(** X2: when the first queue execution of the second loop of [dbus_read]
    fails (with a code other than 3), nothing was ever stored in the
    local [value]: [dbus_read] still returns normally, and what it
    returns is the uninitialised content of that local. *)
Theorem dbus_read_failed_execution_returns_uninitialised
    fuel t i address next_address k1 :
  arch_info t = Some i -> addrbits i <> 0 ->
  (cache_shows i address = false ->
   busy_until t 0 k1 = true /\ (k1 < fuel)%nat) ->
  (0 < fuel)%nat ->
  retval (reply_at t (if cache_shows i address then 0 else S k1))
    <> ERROR_OK ->
  retval (reply_at t (if cache_shows i address then 0 else S k1))
    <> DBUS_RESULT_BUSY ->
  exists t',
    dbus_read fuel address next_address t = Done (uninitialised t) t'.
Proof.
  intros Hi Hab H1 Hfuel He Hb.
  set (n1 := if cache_shows i address then 0%nat else S k1) in *.
  assert (Hres : reply_result (reply_at t n1) = retval (reply_at t n1)).
  { unfold reply_result. apply Z.eqb_neq in He. rewrite He. reflexivity. }
  assert (H2 : busy_until t n1 0 = true).
  { cbn [busy_until]. rewrite Hres. apply negb_true_iff, Z.eqb_neq, Hb. }
  pose proof (dbus_read_run fuel t i address next_address k1 0
                Hi Hab H1 H2 Hfuel) as Hrun.
  cbv zeta in Hrun. fold n1 in Hrun. rewrite Hrun.
  cbn [stored]. unfold store. apply Z.eqb_neq in He. rewrite He.
  cbn [deref]. eexists. reflexivity.
Qed.

Lemma dbus_read_failed_execution_returns_uninitialised_witness :
  exists t',
    dbus_read 1 0x11 0
      (sample_session (sample_info 5 0x11 DBUS_OP_READ)
         (replies [] transport_failure))
    = Done
        (uninitialised
           (sample_session (sample_info 5 0x11 DBUS_OP_READ)
              (replies [] transport_failure)))
        t'.
Proof.
  apply (dbus_read_failed_execution_returns_uninitialised 1
           (sample_session (sample_info 5 0x11 DBUS_OP_READ)
              (replies [] transport_failure))
           (sample_info 5 0x11 DBUS_OP_READ) 0x11 0 0).
  - reflexivity.
  - simpl. lia.
  - discriminate.
  - lia.
  - discriminate.
  - discriminate.
Defined.

(** X3: a failed queue execution ends the retry loop of [dbus_write] at
    once (unless its code is 3, the value of BUSY): one scan is queued,
    the call returns normally, and the failure shows only in the log, as
    the line of [dbus_scan] followed by the line of [dbus_write]. *)
Theorem dbus_write_failed_execution_stops_retry fuel t i address value :
  arch_info t = Some i -> addrbits i <> 0 -> (0 < fuel)%nat ->
  retval (reply_at t 0) <> ERROR_OK ->
  retval (reply_at t 0) <> DBUS_RESULT_BUSY ->
  exists t',
    dbus_write fuel address value t = Done tt t' /\
    jtag_queue t' =
      jtag_queue t ++ [dbus_cmd (addrbits i) DBUS_OP_WRITE address value] /\
    log t' =
      log t ++ [dbus_scan_failed;
                dbus_write_failed value address (retval (reply_at t 0))].
Proof.
  intros Hi Hab Hfuel He Hb.
  assert (Hres : reply_result (reply_at t 0) = retval (reply_at t 0)).
  { unfold reply_result. apply Z.eqb_neq in He. rewrite He. reflexivity. }
  assert (H0 : busy_until t 0 0 = true).
  { cbn [busy_until]. rewrite Hres. apply negb_true_iff, Z.eqb_neq, Hb. }
  rewrite (dbus_write_run fuel t i address value 0 Hi Hab H0 Hfuel).
  rewrite Hres.
  replace (retval (reply_at t 0) =? DBUS_RESULT_SUCCESS) with false
    by (symmetry; apply Z.eqb_neq; exact He).
  eexists. split; [ reflexivity | ].
  rewrite with_log_queue, with_log_log.
  rewrite (after_scans_queue 1 t i _ _ _ Hi), (after_scans_log 1 t i _ _ _ Hi).
  split; [ reflexivity | ].
  cbn [scan_failures]. apply Z.eqb_neq in He. rewrite He.
  rewrite <- app_assoc. reflexivity.
Qed.

Lemma dbus_write_failed_execution_stops_retry_witness :
  exists t',
    dbus_write 1 0x10 0x1234
      (sample_session (sample_info 5 DBUS_ADDRESS_UNKNOWN DBUS_OP_NOP)
         (replies [] transport_failure))
    = Done tt t' /\
    jtag_queue t' = [] ++ [dbus_cmd 5 DBUS_OP_WRITE 0x10 0x1234] /\
    log t' =
      [] ++ [dbus_scan_failed; dbus_write_failed 0x1234 0x10 ERROR_FAIL].
Proof.
  apply (dbus_write_failed_execution_stops_retry 1
           (sample_session (sample_info 5 DBUS_ADDRESS_UNKNOWN DBUS_OP_NOP)
              (replies [] transport_failure))
           (sample_info 5 DBUS_ADDRESS_UNKNOWN DBUS_OP_NOP) 0x10 0x1234).
  - reflexivity.
  - simpl. lia.
  - lia.
  - discriminate.
  - discriminate.
Defined.

(** X4: the result code that ends the retry loop of [dbus_write] never
    makes the call fail: after [k] BUSY answers and then the code [c],
    [dbus_write] returns normally after [k+1] scans; SUCCESS leaves the
    log as it is, any other code (NO_WRITE, FAILED) adds exactly one
    line with the value, the address and that code. *)
Theorem dbus_write_result_only_logged fuel t i address value k c :
  arch_info t = Some i -> addrbits i <> 0 ->
  c <> DBUS_RESULT_BUSY ->
  stub_busy_then t 0 k c = true -> (k < fuel)%nat ->
  exists t',
    dbus_write fuel address value t = Done tt t' /\
    jtag_queue t' =
      jtag_queue t
      ++ repeat (dbus_cmd (addrbits i) DBUS_OP_WRITE address value) (S k) /\
    log t' =
      log t ++ (if c =? DBUS_RESULT_SUCCESS then []
                else [dbus_write_failed value address c]).
Proof.
  intros Hi Hab Hc Hstub Hk.
  destruct (stub_busy_then_busy_until t k c Hc 0%nat Hstub)
    as (Hb & Hr & _ & Hf).
  cbn [Nat.add] in Hr.
  rewrite (dbus_write_run fuel t i address value k Hi Hab Hb Hk).
  rewrite Hr.
  pose proof (after_scans_queue (S k) t i DBUS_OP_WRITE address value Hi) as Hq.
  pose proof (after_scans_log (S k) t i DBUS_OP_WRITE address value Hi) as Hl.
  rewrite Hf, app_nil_r in Hl.
  destruct (c =? DBUS_RESULT_SUCCESS).
  - eexists. split; [ reflexivity | ]. split; [ exact Hq | ].
    rewrite Hl. symmetry. apply app_nil_r.
  - eexists. split; [ reflexivity | ].
    rewrite with_log_queue, with_log_log. split; [ exact Hq | ].
    rewrite Hl. reflexivity.
Qed.

Lemma dbus_write_result_only_logged_witness :
  exists t',
    dbus_write 2 0x10 0x1234
      (sample_session (sample_info 5 DBUS_ADDRESS_UNKNOWN DBUS_OP_NOP)
         (replies [answer 3 0] (answer DBUS_RESULT_FAILED 0)))
    = Done tt t' /\
    jtag_queue t' = [] ++ repeat (dbus_cmd 5 DBUS_OP_WRITE 0x10 0x1234) 2 /\
    log t' =
      [] ++ (if DBUS_RESULT_FAILED =? DBUS_RESULT_SUCCESS then []
             else [dbus_write_failed 0x1234 0x10 DBUS_RESULT_FAILED]).
Proof.
  apply (dbus_write_result_only_logged 2
           (sample_session (sample_info 5 DBUS_ADDRESS_UNKNOWN DBUS_OP_NOP)
              (replies [answer 3 0] (answer DBUS_RESULT_FAILED 0)))
           (sample_info 5 DBUS_ADDRESS_UNKNOWN DBUS_OP_NOP)
           0x10 0x1234 1 DBUS_RESULT_FAILED).
  - reflexivity.
  - simpl. lia.
  - discriminate.
  - reflexivity.
  - lia.
Defined.

(** ** Poll and halt *)

Lemma riscv_poll_unfold fuel t i :
  arch_info t = Some i ->
  riscv_poll fuel t =
  bind (dbus_read fuel (poll_address i) 0)
    (fun value =>
       t0 <- get ;;
       modify (with_state
                 (poll_state (negb (get_field value DMCONTROL_HALTNOT =? 0))
                    (negb (get_field value DMCONTROL_INTERRUPT =? 0))
                    (state t0))) ;;;
       ret ERROR_OK) t.
Proof.
  intros Hi. unfold riscv_poll, get_info at 1, bind at 1. rewrite Hi.
  unfold poll_address.
  destruct ((dbus_address i <? 0x10) || (dbus_address i =? DMCONTROL));
    reflexivity.
Qed.

Lemma riscv_poll_after_read fuel t i v t1 :
  arch_info t = Some i ->
  dbus_read fuel (poll_address i) 0 t = Done v t1 ->
  riscv_poll fuel t =
  Done ERROR_OK
    (with_state (poll_table (Z.testbit v 33) (Z.testbit v 32) (state t1)) t1).
Proof.
  intros Hi Hread. rewrite (riscv_poll_unfold fuel t i Hi).
  rewrite (bind_done _ _ _ _ _ Hread).
  unfold bind, get, modify, ret.
  rewrite get_field_haltnot, get_field_interrupt.
  destruct (Z.testbit v 33), (Z.testbit v 32); reflexivity.
Qed.

Lemma reply_data_bit r n :
  0 <= n < 34 ->
  Z.testbit (reply_data r) n = Z.testbit (in_value r) (n + 2).
Proof.
  intros Hn. unfold reply_data, DBUS_DATA_START, DBUS_DATA_SIZE.
  rewrite testbit_buf_get_u64 by lia.
  replace (n <? 34) with true by (symmetry; apply Z.ltb_lt; lia).
  reflexivity.
Qed.

(** X5: [riscv_poll] at the level of the wire: when the read it makes
    settles and the last queue execution succeeded, the new state is
    decided by bits 35 (halt-acknowledged) and 34 (interrupt-pending) of
    the word scanned in by that last scan alone, and the cache is left
    at [(0, READ)]. *)
Theorem riscv_poll_decodes_last_scan fuel t i k1 k2 :
  arch_info t = Some i -> addrbits i <> 0 ->
  (cache_shows i (poll_address i) = false ->
   busy_until t 0 k1 = true /\ (k1 < fuel)%nat) ->
  busy_until t (if cache_shows i (poll_address i) then 0 else S k1) k2
    = true ->
  (k2 < fuel)%nat ->
  retval
    (reply_at t ((if cache_shows i (poll_address i) then 0 else S k1) + k2))
    = ERROR_OK ->
  exists t',
    riscv_poll fuel t = Done ERROR_OK t' /\
    state t' =
      poll_table
        (Z.testbit
           (in_value
              (reply_at t
                 ((if cache_shows i (poll_address i) then 0 else S k1) + k2)))
           35)
        (Z.testbit
           (in_value
              (reply_at t
                 ((if cache_shows i (poll_address i) then 0 else S k1) + k2)))
           34)
        (state t) /\
    arch_info t' = Some (with_cache 0 DBUS_OP_READ i).
Proof.
  intros Hi Hab H1 H2 Hk2 He.
  pose proof (dbus_read_run fuel t i (poll_address i) 0 k1 k2
                Hi Hab H1 H2 Hk2) as Hrun.
  cbv zeta in Hrun.
  rewrite (stored_some t k2 _ _ He) in Hrun. cbn [deref] in Hrun.
  destruct (dbus_read_settles fuel t i (poll_address i) 0 k1 k2
              Hi Hab H1 H2 Hk2) as (v & t1 & Hrun' & _ & Hinfo).
  rewrite Hrun in Hrun'. injection Hrun' as Hv Ht1.
  pose proof (dbus_read_same_state fuel (poll_address i) 0 t) as Hst.
  rewrite Hrun in Hst. unfold same_state in Hst. cbn [final] in Hst.
  rewrite (riscv_poll_after_read fuel t i _ _ Hi Hrun).
  eexists. split; [ reflexivity | ].
  rewrite state_with_state, Hst, !reply_data_bit by lia.
  split; [ reflexivity | ].
  rewrite <- Ht1 in Hinfo. exact Hinfo.
Qed.

Lemma riscv_poll_decodes_last_scan_witness :
  exists t',
    riscv_poll 2
      (sample_session (sample_info 5 DMCONTROL DBUS_OP_WRITE)
         (replies [answer 3 0] (answer 0 (2 ^ 33))))
    = Done ERROR_OK t' /\
    state t' =
      poll_table
        (Z.testbit
           (in_value
              (reply_at
                 (sample_session (sample_info 5 DMCONTROL DBUS_OP_WRITE)
                    (replies [answer 3 0] (answer 0 (2 ^ 33))))
                 (0 + 1)))
           35)
        (Z.testbit
           (in_value
              (reply_at
                 (sample_session (sample_info 5 DMCONTROL DBUS_OP_WRITE)
                    (replies [answer 3 0] (answer 0 (2 ^ 33))))
                 (0 + 1)))
           34)
        (state
           (sample_session (sample_info 5 DMCONTROL DBUS_OP_WRITE)
              (replies [answer 3 0] (answer 0 (2 ^ 33))))) /\
    arch_info t' =
      Some (with_cache 0 DBUS_OP_READ (sample_info 5 DMCONTROL DBUS_OP_WRITE)).
Proof.
  apply (riscv_poll_decodes_last_scan 2
           (sample_session (sample_info 5 DMCONTROL DBUS_OP_WRITE)
              (replies [answer 3 0] (answer 0 (2 ^ 33))))
           (sample_info 5 DMCONTROL DBUS_OP_WRITE) 0 1).
  - reflexivity.
  - simpl. lia.
  - discriminate.
  - reflexivity.
  - lia.
  - reflexivity.
Defined.

Lemma riscv_poll_done_inv fuel t i r t' :
  arch_info t = Some i -> addrbits i <> 0 ->
  riscv_poll fuel t = Done r t' ->
  r = ERROR_OK /\
  arch_info t' = Some (with_cache 0 DBUS_OP_READ i).
Proof.
  intros Hi Hab Hpoll.
  assert (Hterm : terminates (dbus_read fuel (poll_address i) 0 t) = true).
  { apply (terminates_bind_inv _
             (fun value =>
                t0 <- get ;;
                modify (with_state
                          (poll_state
                             (negb (get_field value DMCONTROL_HALTNOT =? 0))
                             (negb (get_field value DMCONTROL_INTERRUPT =? 0))
                             (state t0))) ;;;
                ret ERROR_OK)).
    rewrite <- (riscv_poll_unfold fuel t i Hi), Hpoll. reflexivity. }
  destruct (dbus_read_terminates_inv _ _ _ _ _ Hi Hab Hterm)
    as (k1 & k2 & H1 & H2 & Hk2).
  destruct (dbus_read_settles fuel t i (poll_address i) 0 k1 k2
              Hi Hab H1 H2 Hk2) as (v & t1 & Hrun' & _ & Hinfo).
  rewrite (riscv_poll_after_read fuel t i _ _ Hi Hrun') in Hpoll.
  injection Hpoll as <- <-.
  split; [ reflexivity | exact Hinfo ].
Qed.

(** X6: once a poll has returned, the cache stands at [(0, READ)], so
    the next poll reads address 0 without an address scan: it queues one
    READ scan at address 0 per answer, [k+1] scans when [k] answers are
    BUSY, and nothing else. *)
Theorem riscv_poll_after_poll fuel fuel' t i r t' k :
  arch_info t = Some i -> addrbits i <> 0 ->
  riscv_poll fuel t = Done r t' ->
  busy_until t' 0 k = true -> (k < fuel')%nat ->
  exists t'',
    riscv_poll fuel' t' = Done ERROR_OK t'' /\
    jtag_queue t'' =
      jtag_queue t' ++ repeat (dbus_cmd (addrbits i) DBUS_OP_READ 0 0) (S k).
Proof.
  intros Hi Hab Hpoll Hb Hk.
  destruct (riscv_poll_done_inv _ _ _ _ _ Hi Hab Hpoll) as (_ & Hi').
  set (i' := with_cache 0 DBUS_OP_READ i) in *.
  assert (Hshow : cache_shows i' (poll_address i') = true) by reflexivity.
  destruct (dbus_read_settles fuel' t' i' (poll_address i') 0 0 k Hi' Hab)
    as (v & t1 & Hrun & Hq & _).
  - rewrite Hshow. discriminate.
  - rewrite Hshow. exact Hb.
  - exact Hk.
  - rewrite (riscv_poll_after_read fuel' t' i' _ _ Hi' Hrun).
    eexists. split; [ reflexivity | ].
    change (jtag_queue (with_state ?s t1)) with (jtag_queue t1).
    rewrite Hq, Hshow. reflexivity.
Qed.

Lemma riscv_poll_after_poll_witness :
  exists t'',
    riscv_poll 2
      (final (riscv_poll 2
                (sample_session (sample_info 5 DMINFO DBUS_OP_WRITE)
                   (replies [answer 0 0; answer 0 0; answer 3 0]
                      (answer 0 (2 ^ 33))))))
    = Done ERROR_OK t'' /\
    jtag_queue t'' =
      jtag_queue
        (final (riscv_poll 2
                  (sample_session (sample_info 5 DMINFO DBUS_OP_WRITE)
                     (replies [answer 0 0; answer 0 0; answer 3 0]
                        (answer 0 (2 ^ 33))))))
      ++ repeat (dbus_cmd 5 DBUS_OP_READ 0 0) 2.
Proof.
  apply (riscv_poll_after_poll 2 2
           (sample_session (sample_info 5 DMINFO DBUS_OP_WRITE)
              (replies [answer 0 0; answer 0 0; answer 3 0]
                 (answer 0 (2 ^ 33))))
           (sample_info 5 DMINFO DBUS_OP_WRITE) ERROR_OK _ 1).
  - reflexivity.
  - simpl. lia.
  - reflexivity.
  - reflexivity.
  - lia.
Defined.

(** ** Before examine *)

Lemma scan_while_busy_asserts fuel t i data_in op address data_out :
  arch_info t = Some i -> addrbits i = 0 -> (0 < fuel)%nat ->
  scan_while_busy fuel data_in op address data_out DBUS_RESULT_BUSY t =
  Fault AssertionFailed t.
Proof.
  intros Hi Hab Hfuel. destruct fuel as [|fuel]; [ lia | ].
  cbn [scan_while_busy]. change (DBUS_RESULT_BUSY =? DBUS_RESULT_BUSY) with true.
  cbv iota. unfold bind.
  rewrite (dbus_scan_assert _ _ _ _ _ _ Hi Hab). reflexivity.
Qed.

Lemma dbus_write_asserts fuel t i address value :
  arch_info t = Some i -> addrbits i = 0 -> (0 < fuel)%nat ->
  dbus_write fuel address value t = Fault AssertionFailed t.
Proof.
  intros Hi Hab Hfuel. unfold dbus_write, bind.
  rewrite (scan_while_busy_asserts _ _ _ _ _ _ _ Hi Hab Hfuel). reflexivity.
Qed.

Lemma dbus_read_asserts fuel t i address next_address :
  arch_info t = Some i -> addrbits i = 0 -> (0 < fuel)%nat ->
  dbus_read fuel address next_address t = Fault AssertionFailed t.
Proof.
  intros Hi Hab Hfuel. unfold dbus_read.
  unfold get_info at 1, bind at 1. rewrite Hi.
  unfold get at 1, bind at 1.
  destruct (negb (address =? dbus_address i)
            || dbus_op_eqb (dbus_op i) DBUS_OP_NOP).
  - unfold bind.
    rewrite (scan_while_busy_asserts _ _ _ _ _ _ _ Hi Hab Hfuel). reflexivity.
  - unfold bind at 1, ret at 1. unfold bind.
    rewrite (scan_while_busy_asserts _ _ _ _ _ _ _ Hi Hab Hfuel). reflexivity.
Qed.

Lemma dram_write32_eq fuel index value set_interrupt :
  dram_write32 fuel index value set_interrupt =
  dbus_write fuel (dram_address index) (dram_word value set_interrupt).
Proof. destruct set_interrupt; reflexivity. Qed.

(** X7: [riscv_init_target] leaves the address width 0 (the structure
    comes from [calloc]) and only [riscv_examine] sets it, so on a target
    that was initialised but not examined [riscv_poll] and [riscv_halt]
    stop at the assertion of [dbus_scan], before anything is queued. *)
Theorem poll_and_halt_before_examine_assert t fuel halt_insn :
  heap_available t = true -> (0 < fuel)%nat ->
  exists t1,
    riscv_init_target t = Done ERROR_OK t1 /\
    jtag_queue t1 = jtag_queue t /\
    riscv_poll fuel t1 = Fault AssertionFailed t1 /\
    riscv_halt halt_insn fuel t1 = Fault AssertionFailed t1.
Proof.
  intros Hheap Hfuel.
  unfold riscv_init_target, allocate, bind at 1, bind at 1, get at 1, ret at 1.
  rewrite Hheap. unfold bind, set_info, modify, get, ret.
  eexists. split; [ reflexivity | ]. split; [ reflexivity | ].
  match goal with |- riscv_poll _ ?u = _ /\ _ => set (t1 := u) end.
  assert (Hi : arch_info t1 =
               Some (mk_info 0 0 DBUS_ADDRESS_UNKNOWN DBUS_OP_NOP 0 None 0))
    by reflexivity.
  split.
  - rewrite (riscv_poll_unfold fuel t1 _ Hi). unfold bind.
    rewrite (dbus_read_asserts _ _ _ _ _ Hi eq_refl Hfuel). reflexivity.
  - unfold riscv_halt, bind. rewrite dram_write32_eq.
    rewrite (dbus_write_asserts _ _ _ _ _ Hi eq_refl Hfuel). reflexivity.
Qed.

Lemma poll_and_halt_before_examine_assert_witness :
  exists t1,
    riscv_init_target (fresh_target (replies [] (answer 0 0)))
    = Done ERROR_OK t1 /\
    jtag_queue t1 = jtag_queue (fresh_target (replies [] (answer 0 0))) /\
    riscv_poll 1 t1 = Fault AssertionFailed t1 /\
    riscv_halt 0 1 t1 = Fault AssertionFailed t1.
Proof.
  apply (poll_and_halt_before_examine_assert
           (fresh_target (replies [] (answer 0 0))) 1 0).
  - reflexivity.
  - lia.
Defined.

(** ** Halt *)

Lemma busy_until_with_log l t start k :
  busy_until (with_log l t) start k = busy_until t start k.
Proof.
  revert start. induction k as [|k IH]; intros start; cbn [busy_until].
  - reflexivity.
  - rewrite IH. reflexivity.
Qed.

Lemma dbus_write_same_state fuel address value :
  keeps same_state (dbus_write fuel address value).
Proof.
  apply keeps_dbus_write with (allowed := fun _ _ => True); unfold same_state.
  - reflexivity.
  - intros a b c H1 H2. congruence.
  - reflexivity.
  - intros t i op ad d _ _ _. apply after_scan_state.
  - exact I.
Qed.

Lemma riscv_halt_same_state halt_insn fuel :
  keeps same_state (riscv_halt halt_insn fuel).
Proof.
  unfold riscv_halt, dram_write_jump. rewrite !dram_write32_eq.
  assert (Htrans : forall a b c : target,
            same_state a b -> same_state b c -> same_state a c).
  { unfold same_state. intros a b c H1 H2. congruence. }
  apply keeps_bind; [ exact Htrans | apply dbus_write_same_state | intros _ ].
  apply keeps_bind; [ exact Htrans | apply dbus_write_same_state | intros _ ].
  apply keeps_ret. reflexivity.
Qed.

(** X8: [riscv_halt] only stages code: when its two writes settle it
    returns [ERROR_OK] whatever result codes ended them, having queued
    WRITE scans of the halt instruction at bus address 0 without the
    interrupt bit, then WRITE scans at bus address 1 of the jump to the
    resume vector (offset 0x400) with the interrupt bit; [target->state]
    is the same afterwards, and also when the call does not return. *)
Theorem riscv_halt_stages_and_keeps_state halt_insn fuel t i k1 k2 :
  arch_info t = Some i -> addrbits i <> 0 ->
  busy_until t 0 k1 = true -> (k1 < fuel)%nat ->
  busy_until t (S k1) k2 = true -> (k2 < fuel)%nat ->
  (exists t',
     riscv_halt halt_insn fuel t = Done ERROR_OK t' /\
     jtag_queue t' =
       jtag_queue t
       ++ repeat (dbus_cmd (addrbits i) DBUS_OP_WRITE 0
                    (Z.lor DMCONTROL_HALTNOT halt_insn)) (S k1)
       ++ repeat (dbus_cmd (addrbits i) DBUS_OP_WRITE 1
                    (Z.lor (Z.lor DMCONTROL_HALTNOT (jal 0 0x400))
                       DMCONTROL_INTERRUPT)) (S k2) /\
     state t' = state t) /\
  forall fuel' u, state (final (riscv_halt halt_insn fuel' u)) = state u.
Proof.
  intros Hi Hab Hb1 Hk1 Hb2 Hk2. split.
  - assert (Hhalt : riscv_halt halt_insn fuel =
              (dbus_write fuel 0 (Z.lor DMCONTROL_HALTNOT halt_insn) ;;;
               dbus_write fuel 1
                 (Z.lor (Z.lor DMCONTROL_HALTNOT (jal 0 0x400))
                    DMCONTROL_INTERRUPT) ;;;
               ret ERROR_OK)).
    { unfold riscv_halt, dram_write_jump. rewrite !dram_write32_eq.
      replace (resume_jump_offset 1) with 0x400 by (vm_compute; reflexivity).
      replace (dram_address 0) with 0 by (vm_compute; reflexivity).
      replace (dram_address 1) with 1 by (vm_compute; reflexivity).
      reflexivity. }
    set (w0 := Z.lor DMCONTROL_HALTNOT halt_insn) in *.
    set (w1 := Z.lor (Z.lor DMCONTROL_HALTNOT (jal 0 0x400))
                 DMCONTROL_INTERRUPT) in *.
    destruct (dbus_write_settles fuel t i 0 w0 k1 Hi Hab Hb1 Hk1)
      as (t1 & Hrun1 & Hq1 & Hi1).
    assert (Hb2' : busy_until t1 0 k2 = true).
    { pose proof (dbus_write_run fuel t i 0 w0 k1 Hi Hab Hb1 Hk1) as Hr.
      rewrite Hr in Hrun1. injection Hrun1 as <-.
      assert (Hbu : busy_until (after_scans (S k1) DBUS_OP_WRITE 0 w0 t) 0 k2
                    = true).
      { rewrite (busy_until_after_scans _ _ _ _ _ _ _ _ Hi).
        rewrite Nat.add_0_r. exact Hb2. }
      destruct (reply_result (reply_at t k1) =? DBUS_RESULT_SUCCESS);
        [ exact Hbu | rewrite busy_until_with_log; exact Hbu ]. }
    destruct (dbus_write_settles fuel t1 _ 1 w1 k2 Hi1 Hab Hb2' Hk2)
      as (t2 & Hrun2 & Hq2 & _).
    assert (Hdone : riscv_halt halt_insn fuel t = Done ERROR_OK t2).
    { rewrite Hhalt.
      rewrite (bind_done _ _ _ _ _ Hrun1), (bind_done _ _ _ _ _ Hrun2).
      reflexivity. }
    exists t2. split; [ exact Hdone | split ].
    + rewrite Hq2, Hq1, <- app_assoc. reflexivity.
    + pose proof (riscv_halt_same_state halt_insn fuel t) as Hst.
      rewrite Hdone in Hst. exact Hst.
  - intros fuel' u. apply riscv_halt_same_state.
Qed.

Lemma riscv_halt_stages_and_keeps_state_witness :
  (exists t',
     riscv_halt 0x7b01e073 2
       (sample_session (sample_info 5 0 DBUS_OP_READ)
          (replies [answer 3 0] (answer 0 0)))
     = Done ERROR_OK t' /\
     jtag_queue t' =
       [] ++ repeat (dbus_cmd 5 DBUS_OP_WRITE 0
                       (Z.lor DMCONTROL_HALTNOT 0x7b01e073)) 2
          ++ repeat (dbus_cmd 5 DBUS_OP_WRITE 1
                       (Z.lor (Z.lor DMCONTROL_HALTNOT (jal 0 0x400))
                          DMCONTROL_INTERRUPT)) 1 /\
     state t' = TARGET_UNKNOWN) /\
  forall fuel' u, state (final (riscv_halt 0x7b01e073 fuel' u)) = state u.
Proof.
  apply (riscv_halt_stages_and_keeps_state 0x7b01e073 2
           (sample_session (sample_info 5 0 DBUS_OP_READ)
              (replies [answer 3 0] (answer 0 0)))
           (sample_info 5 0 DBUS_OP_READ) 1 0).
  - reflexivity.
  - simpl. lia.
  - reflexivity.
  - lia.
  - reflexivity.
  - lia.
Defined.

(** ** The field macros *)

Lemma lowest_bit_of_field_mask n lo :
  0 < n -> 0 <= lo ->
  Z.land (Z.shiftl (Z.ones n) lo)
         (Z.lnot (Z.shiftl (Z.shiftl (Z.ones n) lo) 1)) = 2 ^ lo.
Proof.
  intros Hn Hlo. apply Z.bits_inj'. intros m Hm.
  assert (Hones : forall x, Z.testbit (Z.ones n) x = (0 <=? x) && (x <? n)).
  { intros x. destruct (Z.leb_spec 0 x).
    - rewrite Z.testbit_ones_nonneg by lia. reflexivity.
    - rewrite Z.testbit_neg_r by lia. reflexivity. }
  assert (Hfield : forall x, Z.testbit (Z.shiftl (Z.ones n) lo) x =
                             (lo <=? x) && (x <? lo + n)).
  { intros x. destruct (Z.leb_spec 0 x).
    - rewrite Z.shiftl_spec, Hones by lia.
      destruct (Z.leb_spec 0 (x - lo)), (Z.ltb_spec (x - lo) n),
        (Z.leb_spec lo x), (Z.ltb_spec x (lo + n)); cbn; try reflexivity; lia.
    - rewrite Z.testbit_neg_r by lia.
      destruct (Z.leb_spec lo x); [ lia | reflexivity ]. }
  rewrite Z.land_spec, Z.lnot_spec, Hfield by lia.
  rewrite (Z.shiftl_spec _ 1), Hfield by lia.
  rewrite Z.pow2_bits_eqb by lia.
  destruct (Z.eqb_spec lo m), (Z.leb_spec lo m), (Z.ltb_spec m (lo + n)),
    (Z.leb_spec lo (m - 1)), (Z.ltb_spec (m - 1) (lo + n));
    cbn; try reflexivity; lia.
Qed.

Lemma get_field_of_field_mask reg n lo :
  0 < n -> 0 <= lo ->
  get_field reg (Z.shiftl (Z.ones n) lo) = (reg / 2 ^ lo) mod 2 ^ n.
Proof.
  intros Hn Hlo. unfold get_field.
  rewrite lowest_bit_of_field_mask, land_field_mask by lia.
  rewrite Z.quot_div_nonneg.
  - apply Z.div_mul. lia.
  - pose proof (Z.mod_pos_bound (reg / 2 ^ lo) (2 ^ n) ltac:(lia)). lia.
  - lia.
Qed.

(** X9: for a mask of [n] contiguous bits from bit [lo] on, [get_field]
    reads the field back that [set_field] wrote, reduced to [n] bits;
    [set_field] changes no bit outside the mask, and [get_field] is the
    field [(reg >> lo) mod 2^n]. *)
Theorem get_field_set_field reg val n lo :
  0 < n -> 0 <= lo ->
  get_field (set_field reg (Z.shiftl (Z.ones n) lo) val)
    (Z.shiftl (Z.ones n) lo) = val mod 2 ^ n /\
  Z.land (set_field reg (Z.shiftl (Z.ones n) lo) val)
    (Z.lnot (Z.shiftl (Z.ones n) lo)) =
  Z.land reg (Z.lnot (Z.shiftl (Z.ones n) lo)) /\
  get_field reg (Z.shiftl (Z.ones n) lo) = (reg / 2 ^ lo) mod 2 ^ n.
Proof.
  intros Hn Hlo.
  assert (Hbits : forall m, 0 <= m ->
            Z.testbit (set_field reg (Z.shiftl (Z.ones n) lo) val) m =
            if (lo <=? m) && (m <? lo + n) then Z.testbit val (m - lo)
            else Z.testbit reg m).
  { intros m Hm. unfold set_field.
    rewrite lowest_bit_of_field_mask by lia.
    rewrite Z.lor_spec, !Z.land_spec, Z.lnot_spec by lia.
    rewrite <- Z.shiftl_mul_pow2, !Z.shiftl_spec by lia.
    destruct (Z.leb_spec lo m); cbn [andb].
    - rewrite Z.testbit_ones_nonneg by lia.
      destruct (Z.ltb_spec (m - lo) n).
      + replace (m <? lo + n) with true by (symmetry; apply Z.ltb_lt; lia).
        cbn. rewrite andb_false_r, andb_true_r. reflexivity.
      + replace (m <? lo + n) with false by (symmetry; apply Z.ltb_ge; lia).
        cbn. rewrite andb_true_r, andb_false_r, orb_false_r. reflexivity.
    - rewrite !(Z.testbit_neg_r _ (m - lo)) by lia.
      cbn. rewrite andb_true_r, orb_false_r. reflexivity. }
  split; [ | split ].
  - rewrite get_field_of_field_mask by lia.
    apply Z.bits_inj'. intros m Hm.
    rewrite !Z.testbit_mod_pow2 by lia.
    destruct (Z.ltb_spec m n); [ | reflexivity ]. cbn [andb].
    rewrite <- Z.shiftr_div_pow2, Z.shiftr_spec, Hbits by lia.
    replace (lo <=? m + lo) with true by (symmetry; apply Z.leb_le; lia).
    replace (m + lo <? lo + n) with true by (symmetry; apply Z.ltb_lt; lia).
    cbn. f_equal. lia.
  - apply Z.bits_inj'. intros m Hm.
    rewrite !Z.land_spec, Hbits, Z.lnot_spec, Z.shiftl_spec by lia.
    destruct (Z.leb_spec lo m); cbn [andb]; [ | reflexivity ].
    rewrite Z.testbit_ones_nonneg by lia.
    destruct (Z.ltb_spec m (lo + n)).
    + replace (m - lo <? n) with true by (symmetry; apply Z.ltb_lt; lia).
      cbn. rewrite !andb_false_r. reflexivity.
    + reflexivity.
  - apply get_field_of_field_mask; lia.
Qed.

Lemma get_field_set_field_witness :
  get_field (set_field 0xffffffff (Z.shiftl (Z.ones 6) 10) 17)
    (Z.shiftl (Z.ones 6) 10) = 17 mod 2 ^ 6 /\
  Z.land (set_field 0xffffffff (Z.shiftl (Z.ones 6) 10) 17)
    (Z.lnot (Z.shiftl (Z.ones 6) 10)) =
  Z.land 0xffffffff (Z.lnot (Z.shiftl (Z.ones 6) 10)) /\
  get_field 0xffffffff (Z.shiftl (Z.ones 6) 10) =
    (0xffffffff / 2 ^ 10) mod 2 ^ 6.
Proof.
  apply (get_field_set_field 0xffffffff 17 6 10); lia.
Defined.

(** ** What a Debug RAM write puts on the wire *)

Lemma testbit_above v n m :
  0 <= v < 2 ^ n -> 0 <= n <= m -> Z.testbit v m = false.
Proof.
  intros Hv Hm. rewrite <- (Z.mod_small v (2 ^ n)) by lia.
  apply Z.mod_pow2_bits_high. lia.
Qed.

Lemma lor_disjoint_add a b : Z.land a b = 0 -> Z.lor a b = a + b.
Proof.
  intros H. rewrite <- Z.lxor_lor by exact H.
  symmetry. apply Z.add_nocarry_lxor. exact H.
Qed.

Lemma dram_word_value value set_interrupt :
  0 <= value < 2 ^ 32 ->
  dram_word value set_interrupt =
  2 ^ 33 + (if set_interrupt then 2 ^ 32 else 0) + value.
Proof.
  intros Hv.
  assert (H33 : Z.lor DMCONTROL_HALTNOT value = 2 ^ 33 + value).
  { apply lor_disjoint_add. rewrite Z.land_comm, <- (Z.shiftl_1_l 33).
    rewrite land_bit_mask by lia.
    rewrite (testbit_above value 32 33) by lia. reflexivity. }
  unfold dram_word. destruct set_interrupt; [ | rewrite H33; lia ].
  rewrite lor_disjoint_add.
  - rewrite H33. unfold DMCONTROL_INTERRUPT. rewrite Z.shiftl_1_l. lia.
  - unfold DMCONTROL_INTERRUPT. rewrite land_bit_mask by lia.
    rewrite Z.lor_spec, (testbit_above value 32 32) by lia.
    reflexivity.
Qed.

(** X10: the scans of [dram_write32] carry, in the 34-bit data field,
    the 32-bit value with bit 33 (halt notification) always set and bit
    32 (interrupt) set exactly when [set_interrupt] is; their operation
    is WRITE and their address field is [dram_address index]. *)
Theorem dram_write32_wire fuel t i index value set_interrupt k :
  arch_info t = Some i -> 0 < addrbits i ->
  0 <= value < 2 ^ 32 ->
  busy_until t 0 k = true -> (k < fuel)%nat ->
  exists t' c,
    dram_write32 fuel index value set_interrupt t = Done tt t' /\
    jtag_queue t' = jtag_queue t ++ repeat c (S k) /\
    scan_op c = Some (dbus_op_code DBUS_OP_WRITE) /\
    scan_address c = Some (dram_address index mod 2 ^ addrbits i) /\
    scan_data c =
      Some (2 ^ 33 + (if set_interrupt then 2 ^ 32 else 0) + value).
Proof.
  intros Hi Hab Hv Hb Hk.
  destruct (dbus_write_settles fuel t i (dram_address index)
              (dram_word value set_interrupt) k Hi ltac:(lia) Hb Hk)
    as (t' & Hrun & Hq & _).
  exists t', (dbus_cmd (addrbits i) DBUS_OP_WRITE (dram_address index)
                (dram_word value set_interrupt)).
  rewrite dram_write32_eq.
  split; [ exact Hrun | ]. split; [ exact Hq | ].
  destruct (dbus_cmd_fields (addrbits i) DBUS_OP_WRITE (dram_address index)
              (dram_word value set_interrupt) ltac:(lia)) as (Ho & Ha & Hd).
  split; [ exact Ho | ]. split; [ exact Ha | ].
  rewrite Hd, dram_word_value by exact Hv.
  f_equal. apply Z.mod_small. destruct set_interrupt; lia.
Qed.

Lemma dram_write32_wire_witness :
  exists t' c,
    dram_write32 1 17 0xdeadbeef true
      (sample_session (sample_info 7 DBUS_ADDRESS_UNKNOWN DBUS_OP_NOP)
         (replies [] (answer 0 0)))
    = Done tt t' /\
    jtag_queue t' = [] ++ repeat c 1 /\
    scan_op c = Some (dbus_op_code DBUS_OP_WRITE) /\
    scan_address c = Some (dram_address 17 mod 2 ^ 7) /\
    scan_data c = Some (2 ^ 33 + (if true then 2 ^ 32 else 0) + 0xdeadbeef).
Proof.
  apply (dram_write32_wire 1
           (sample_session (sample_info 7 DBUS_ADDRESS_UNKNOWN DBUS_OP_NOP)
              (replies [] (answer 0 0)))
           (sample_info 7 DBUS_ADDRESS_UNKNOWN DBUS_OP_NOP)
           17 0xdeadbeef true 0).
  - reflexivity.
  - simpl. lia.
  - lia.
  - reflexivity.
  - lia.
Defined.

Lemma buf_get_u64_div_mod buffer first num :
  0 <= first -> 0 <= num ->
  buf_get_u64 buffer first num = (buffer / 2 ^ first) mod 2 ^ num.
Proof.
  intros Hf Hn. unfold buf_get_u64.
  rewrite Z.land_ones, Z.shiftr_div_pow2 by lia. reflexivity.
Qed.

(** X11: the array [out] of [dbus_scan] is not initialised, yet no stale
    bit of it is ever sent: the three stores cover the whole scanned
    field, so the bits shifted out are the same for every initial
    content of the array, and they decode to the operation, the data and
    the address that were asked for. *)
Theorem dbus_scan_sends_no_stale_bits buffer0 abits op address data_out :
  0 <= abits ->
  dbus_out_from buffer0 abits op address data_out
    mod 2 ^ (abits + DBUS_OP_SIZE + DBUS_DATA_SIZE) =
  dbus_op_code op + 2 ^ 2 * (data_out mod 2 ^ 34)
  + 2 ^ 36 * (address mod 2 ^ abits).
Proof.
  intros Hab. unfold DBUS_OP_SIZE, DBUS_DATA_SIZE.
  rewrite dbus_out_any_buffer by exact Hab.
  pose proof (wire_op_field abits op address data_out Hab) as Ho.
  pose proof (wire_data_field abits op address data_out Hab) as Hd.
  pose proof (wire_address_field abits op address data_out Hab) as Ha.
  unfold DBUS_OP_START, DBUS_OP_SIZE, DBUS_DATA_START, DBUS_DATA_SIZE,
    DBUS_ADDRESS_START in *.
  rewrite buf_get_u64_div_mod in Ho, Hd, Ha by lia.
  pose proof (Z.mod_pos_bound (dbus_out abits op address data_out)
                (2 ^ (abits + 2 + 34)) ltac:(lia)) as Bw.
  set (w := dbus_out abits op address data_out mod 2 ^ (abits + 2 + 34)) in *.
  rewrite <- Ho, <- Hd, <- Ha.
  rewrite Z.div_1_r.
  assert (Hhigh : (w / 2 ^ 36) mod 2 ^ abits = w / 2 ^ 36).
  { apply Z.mod_small. split.
    - apply Z.div_pos; lia.
    - apply Z.div_lt_upper_bound; [ lia | ].
      rewrite <- Z.pow_add_r by lia.
      replace (36 + abits) with (abits + 2 + 34) by lia. lia. }
  rewrite Hhigh.
  replace (w / 2 ^ 36) with (w / 2 ^ 2 / 2 ^ 34)
    by (rewrite Z.div_div by lia; reflexivity).
  pose proof (Z.div_mod w (2 ^ 2) ltac:(lia)) as E1.
  pose proof (Z.div_mod (w / 2 ^ 2) (2 ^ 34) ltac:(lia)) as E2.
  lia.
Qed.

Lemma dbus_scan_sends_no_stale_bits_witness :
  dbus_out_from 0xffffffffffffffff 5 DBUS_OP_WRITE 0x10 0x1234
    mod 2 ^ (5 + DBUS_OP_SIZE + DBUS_DATA_SIZE) =
  dbus_op_code DBUS_OP_WRITE + 2 ^ 2 * (0x1234 mod 2 ^ 34)
  + 2 ^ 36 * (0x10 mod 2 ^ 5).
Proof.
  apply (dbus_scan_sends_no_stale_bits 0xffffffffffffffff 5 DBUS_OP_WRITE
           0x10 0x1234).
  lia.
Defined.

(** ** Examine *)

Lemma bind_done_inv {A B} (m : M A) (k : A -> M B) t b t' :
  bind m k t = Done b t' ->
  exists a t1, m t = Done a t1 /\ k a t1 = Done b t'.
Proof.
  unfold bind. destruct (m t) as [a t1|f t1|t1]; intros H;
    [ exists a, t1; auto | discriminate | discriminate ].
Qed.

Ltac invert_binds :=
  repeat match goal with
  | H : bind _ _ _ = Done _ _ |- _ =>
      apply bind_done_inv in H;
      let a := fresh "a" in let u := fresh "u" in let E := fresh "E" in
      destruct H as (a & u & E & H)
  end.

Lemma riscv_examine_ok_examined fuel t t' :
  riscv_examine fuel t = Done ERROR_OK t' -> examined t' = true.
Proof.
  intros H. unfold riscv_examine in H.
  apply bind_done_inv in H. destruct H as (was & t0 & Hwas & H).
  unfold target_was_examined, bind, get, ret in Hwas.
  injection Hwas as <- <-.
  destruct (examined t) eqn:Hex.
  - injection H as <-. exact Hex.
  - repeat match goal with
    | H : bind _ _ _ = Done _ _ |- _ =>
        apply bind_done_inv in H;
        let a := fresh "a" in let u := fresh "u" in let E := fresh "E" in
        destruct H as (a & u & E & H)
    | H : (match ?p with Some _ => _ | None => _ end) _ = Done _ _ |- _ =>
        destruct p
    | H : (if ?c then _ else _) _ = Done _ _ |- _ => destruct c
    | H : ret ERROR_FAIL _ = Done ERROR_OK _ |- _ => discriminate H
    end.
    unfold ret in H. injection H as <-.
    match goal with
    | E : target_set_examined _ = Done _ _ |- _ =>
        unfold target_set_examined, modify in E; inversion E
    end.
    reflexivity.
Qed.

(** X12: [riscv_examine] is idempotent: once a call has returned
    [ERROR_OK] the target is marked examined, and every further call
    returns [ERROR_OK] at once, leaving the target as it is (no scan, no
    allocation, no change of the session). *)
Theorem riscv_examine_idempotent fuel fuel' t t' :
  riscv_examine fuel t = Done ERROR_OK t' ->
  riscv_examine fuel' t' = Done ERROR_OK t'.
Proof.
  intros H. apply riscv_examine_ok_examined in H.
  unfold riscv_examine, target_was_examined, bind, get, ret.
  rewrite H. reflexivity.
Qed.

Lemma riscv_examine_idempotent_witness :
  riscv_examine 5
    (final (riscv_examine 1
              (final (riscv_init_target
                        (fresh_target
                           (replies [mk_reply ERROR_OK 0x51] (answer 0 0)))))))
  = Done ERROR_OK
      (final (riscv_examine 1
                (final (riscv_init_target
                          (fresh_target
                             (replies [mk_reply ERROR_OK 0x51]
                                (answer 0 0))))))).
Proof.
  apply (riscv_examine_idempotent 1 5
           (final (riscv_init_target
                     (fresh_target
                        (replies [mk_reply ERROR_OK 0x51] (answer 0 0)))))).
  vm_compute. reflexivity.
Defined.

(** *** Steps of a run without BUSY *)






















(** ** The ESP32-H2 reset cause *)

Lemma reset_cause_range (v : Z) : 0 <= ESP32H2_RESET_CAUSE v < 32.
Proof.
  unfold ESP32H2_RESET_CAUSE.
  replace ESP32H2_RTCCNTL_RESET_CAUSE_MASK with (Z.ones 5) by reflexivity.
  rewrite Z.land_ones by lia.
  apply Z.mod_pos_bound. reflexivity.
Qed.

Lemma reset_cause_mod (v : Z) : ESP32H2_RESET_CAUSE v = v mod 32.
Proof.
  unfold ESP32H2_RESET_CAUSE.
  replace ESP32H2_RTCCNTL_RESET_CAUSE_MASK with (Z.ones 5) by reflexivity.
  rewrite Z.land_ones by lia. reflexivity.
Qed.

Lemma reset_cause_idem (v : Z) :
  ESP32H2_RESET_CAUSE (ESP32H2_RESET_CAUSE v) = ESP32H2_RESET_CAUSE v.
Proof.
  rewrite !reset_cause_mod. apply Z.mod_mod. lia.
Qed.

Lemma reset_reason_of_cause (v : Z) :
  esp32h2_get_reset_reason v =
  esp32h2_get_reset_reason (ESP32H2_RESET_CAUSE v).
Proof.
  unfold esp32h2_get_reset_reason. cbv zeta.
  rewrite reset_cause_idem. reflexivity.
Qed.

Lemma five_bit_values_complete (c : Z) :
  0 <= c < 32 -> In c five_bit_values.
Proof.
  intros H. unfold five_bit_values.
  apply in_map_iff. exists (Z.to_nat c). split; [lia |].
  apply in_seq. lia.
Qed.

Lemma is_reset_reason_In (c : Z) :
  is_reset_reason c = true <-> In c esp32h2_reset_reasons.
Proof.
  unfold is_reset_reason. rewrite existsb_exists. split.
  - intros [x [Hin Heq]]. apply Z.eqb_eq in Heq. subst. exact Hin.
  - intros Hin. exists c. split; [exact Hin | apply Z.eqb_refl].
Qed.

Lemma reset_reason_check_all :
  forallb reset_reason_check five_bit_values = true.
Proof. vm_compute. reflexivity. Qed.

(** X15: [esp32h2_get_reset_reason] looks at bits 0..4 of its argument
    alone; it answers "Unknown reset cause" exactly when those bits are
    none of the enumerators of [enum esp32h2_reset_reason]; and no two
    enumerators share a text, so the text of a known cause identifies
    it. *)
Theorem esp32h2_get_reset_reason_cause (v : Z) :
  esp32h2_get_reset_reason v = esp32h2_get_reset_reason (v mod 32)
  /\ (esp32h2_get_reset_reason v = "Unknown reset cause"%string <->
      ~ In (ESP32H2_RESET_CAUSE v) esp32h2_reset_reasons)
  /\ (forall w : Z,
        In (ESP32H2_RESET_CAUSE v) esp32h2_reset_reasons ->
        esp32h2_get_reset_reason v = esp32h2_get_reset_reason w ->
        ESP32H2_RESET_CAUSE v = ESP32H2_RESET_CAUSE w).
Proof.
  pose proof reset_reason_check_all as Hall.
  rewrite forallb_forall in Hall.
  pose proof (Hall _ (five_bit_values_complete _ (reset_cause_range v)))
    as Hv.
  unfold reset_reason_check in Hv.
  apply andb_true_iff in Hv. destruct Hv as [Hunk Hinj].
  rewrite <- reset_reason_of_cause in Hunk.
  split; [| split].
  - rewrite (reset_reason_of_cause v), reset_cause_mod.
    reflexivity.
  - apply Bool.eqb_prop in Hunk.
    rewrite <- is_reset_reason_In.
    rewrite <- String.eqb_eq, Hunk.
    destruct (is_reset_reason (ESP32H2_RESET_CAUSE v)); simpl;
      split; congruence.
  - intros w Hin Heq.
    rewrite forallb_forall in Hinj.
    pose proof (Hinj _ (five_bit_values_complete _ (reset_cause_range w)))
      as Hw.
    rewrite <- !reset_reason_of_cause in Hw.
    apply is_reset_reason_In in Hin. rewrite Hin in Hw.
    apply String.eqb_eq in Heq. rewrite Heq in Hw. simpl in Hw.
    apply Z.eqb_eq in Hw. exact Hw.
Qed.

(** ** The register filter of [esp32h2_examine] *)

Lemma listed_In (name : string) (names : list string) :
  listed name names = true <-> In name names.
Proof.
  induction names as [| n rest IH]; simpl.
  - split; [discriminate | tauto].
  - destruct (String.eqb name n) eqn:E.
    + apply String.eqb_eq in E. subst. tauto.
    + apply String.eqb_neq in E. rewrite IH. split.
      * tauto.
      * intros [H | H]; [congruence | exact H].
Qed.

Lemma keep_existent_name (r : reg) : reg_name (keep_existent r) = reg_name r.
Proof.
  unfold keep_existent. destruct (reg_exist r); reflexivity.
Qed.

Lemma keep_existent_exist (r : reg) :
  reg_exist (keep_existent r) =
  reg_exist r && listed (reg_name r) s_existent_regs.
Proof.
  unfold keep_existent. destruct (reg_exist r) eqn:E; simpl.
  - reflexivity.
  - exact E.
Qed.

Lemma keep_existent_idem (r : reg) :
  keep_existent (keep_existent r) = keep_existent r.
Proof.
  unfold keep_existent.
  destruct (reg_exist r) eqn:E.
  - cbn [reg_exist reg_name].
    destruct (listed (reg_name r) s_existent_regs); reflexivity.
  - rewrite E. reflexivity.
Qed.

(** X16: [esp32h2_examine] returns what [riscv_target.examine] returned.
    After a failure the register list is as it was.  After a success the
    list has the same registers under the same names in the same order,
    and a register exists afterwards exactly when it existed before and
    [s_existent_regs] names it: the filter only ever disables, so a
    register the generic code left absent stays absent even when the
    table names it.  Filtering a filtered list changes nothing. *)
Theorem esp32h2_examine_filter (examine_ret : Z) (reg_list : list reg) :
  fst (esp32h2_examine examine_ret reg_list) = examine_ret
  /\ (examine_ret <> ERROR_OK ->
      snd (esp32h2_examine examine_ret reg_list) = reg_list)
  /\ map reg_name (snd (esp32h2_examine examine_ret reg_list)) =
     map reg_name reg_list
  /\ (examine_ret = ERROR_OK ->
      forall (i : nat) (r : reg),
        nth_error (snd (esp32h2_examine examine_ret reg_list)) i = Some r ->
        exists r0 : reg,
          nth_error reg_list i = Some r0
          /\ reg_name r = reg_name r0
          /\ (reg_exist r = true <->
              reg_exist r0 = true /\ In (reg_name r0) s_existent_regs))
  /\ snd (esp32h2_examine ERROR_OK
            (snd (esp32h2_examine ERROR_OK reg_list))) =
     snd (esp32h2_examine ERROR_OK reg_list).
Proof.
  unfold esp32h2_examine.
  destruct (examine_ret =? ERROR_OK) eqn:E; cbn [negb fst snd].
  - apply Z.eqb_eq in E. subst examine_ret.
    split; [reflexivity |]. split; [congruence |].
    split; [| split].
    + rewrite map_map. apply map_ext. exact keep_existent_name.
    + intros _ i r H.
      rewrite nth_error_map in H.
      destruct (nth_error reg_list i) as [r0 |] eqn:N; [| discriminate].
      simpl in H. injection H as <-.
      exists r0. split; [reflexivity |].
      split; [apply keep_existent_name |].
      rewrite keep_existent_exist, andb_true_iff, listed_In. tauto.
    + change (negb (ERROR_OK =? ERROR_OK)) with false. cbn [snd].
      rewrite map_map. apply map_ext. exact keep_existent_idem.
  - apply Z.eqb_neq in E.
    split; [reflexivity |]. split; [reflexivity |].
    split; [reflexivity |]. split; [congruence |].
    change (negb (ERROR_OK =? ERROR_OK)) with false. cbn [snd].
    rewrite map_map. apply map_ext. exact keep_existent_idem.
Qed.

Lemma esp32h2_examine_filter_witness :
  ERROR_FAIL <> ERROR_OK
  /\ snd (esp32h2_examine ERROR_FAIL [mk_reg "mstatus" true; mk_reg "fcsr" true])
     = [mk_reg "mstatus" true; mk_reg "fcsr" true].
Proof.
  assert (H : ERROR_FAIL <> ERROR_OK) by (vm_compute; discriminate).
  split; [exact H |].
  exact (proj1 (proj2 (esp32h2_examine_filter ERROR_FAIL
                         [mk_reg "mstatus" true; mk_reg "fcsr" true])) H).
Defined.

(** ** The watchdogs of the ESP32-H2 *)

Lemma app_one_length {A : Type} (l : list A) (x : A) :
  length (l ++ [x]) = S (length l).
Proof. rewrite length_app. simpl. lia. Qed.

Lemma esp32h2_wdt_disable_write_all (s : esp32h2) :
  esp32h2_wdt_disable s = write_all wdt_table s.
Proof. reflexivity. Qed.

Lemma wdt_writes_table : wdt_writes = map write_of wdt_table.
Proof. reflexivity. Qed.

Lemma answered_ok_ext (s s' : esp32h2) (n start : nat) :
  esp_answers s = esp_answers s' ->
  answered_ok s start n = answered_ok s' start n.
Proof.
  intros H. revert start. induction n as [| n IH]; intros start; simpl.
  - reflexivity.
  - rewrite H, IH. reflexivity.
Qed.

(** The run of a sequence of checked writes in closed form. *)
Lemma write_all_run (writes : list (Z * Z * string)) (s : esp32h2) :
  let L := length (esp_calls s) in
  let n := answered_ok s L (length writes) in
  let r := fst (write_all writes s) in
  let s' := snd (write_all writes s) in
  esp_calls s' = esp_calls s ++ firstn (S n) (map write_of writes)
  /\ esp_answers s' = esp_answers s
  /\ was_reset s' = was_reset s
  /\ has_dmi s' = has_dmi s
  /\ has_post_reset s' = has_post_reset s
  /\ has_rtos_cleanup s' = has_rtos_cleanup s
  /\ (n = length writes -> r = ERROR_OK /\ esp_log s' = esp_log s)
  /\ (n <> length writes ->
      r <> ERROR_OK
      /\ r = res (esp_answers s (L + n))
      /\ exists text : string, esp_log s' = esp_log s ++ [esp_error text r]).
Proof.
  revert s. induction writes as [| [[address value] text] rest IH];
    intros s; cbv zeta.
  - cbn [write_all length answered_ok fst snd map firstn].
    rewrite app_nil_r. repeat split; congruence.
  - cbn [write_all length answered_ok map].
    destruct (esp_call_of (target_write_u32 address value) s) as [a s1] eqn:C.
    assert (Ea : a = esp_answers s (length (esp_calls s)))
      by (unfold esp_call_of in C; congruence).
    assert (Es : s1 = snd (esp_call_of (target_write_u32 address value) s))
      by (rewrite C; reflexivity).
    assert (Hc1 : esp_calls s1 =
                  esp_calls s ++ [target_write_u32 address value])
      by (rewrite Es; reflexivity).
    assert (Ha1 : esp_answers s1 = esp_answers s)
      by (rewrite Es; reflexivity).
    assert (Hl1 : esp_log s1 = esp_log s) by (rewrite Es; reflexivity).
    assert (Hw1 : was_reset s1 = was_reset s) by (rewrite Es; reflexivity).
    assert (Hd1 : has_dmi s1 = has_dmi s) by (rewrite Es; reflexivity).
    assert (Hp1 : has_post_reset s1 = has_post_reset s)
      by (rewrite Es; reflexivity).
    assert (Hr1 : has_rtos_cleanup s1 = has_rtos_cleanup s)
      by (rewrite Es; reflexivity).
    clear C Es. subst a.
    destruct (res (esp_answers s (length (esp_calls s))) =? ERROR_OK) eqn:E;
      cbn [negb].
    + specialize (IH s1). cbv zeta in IH.
      rewrite Hc1, app_one_length, Ha1, Hl1, Hw1, Hd1, Hp1, Hr1 in IH.
      rewrite (answered_ok_ext s1 s _ _ Ha1) in IH.
      set (n := answered_ok s (S (length (esp_calls s))) (length rest)) in *.
      destruct IH as (Hc & Ha & Hw & Hd & Hp & Hr & Hok & Hfail).
      split.
      { rewrite Hc, <- app_assoc. reflexivity. }
      repeat (split; [assumption |]).
      split.
      * intros Hn. apply Hok. lia.
      * intros Hn. destruct Hfail as (H1 & H2 & H3); [lia |].
        repeat split; try assumption.
        rewrite H2. f_equal. f_equal. lia.
    + apply Z.eqb_neq in E.
      cbn [fst snd esp_log_add esp_calls esp_answers esp_log was_reset
           has_dmi has_post_reset has_rtos_cleanup firstn].
      rewrite Hc1, Ha1, Hl1.
      repeat split; try assumption; try discriminate.
      * rewrite Nat.add_0_r. reflexivity.
      * eexists. reflexivity.
Qed.

Lemma calls_since_app (s s' : esp32h2) (cs : list esp_call) :
  esp_calls s' = esp_calls s ++ cs -> calls_since s s' = cs.
Proof.
  intros H. unfold calls_since. rewrite H.
  rewrite skipn_app, skipn_all, Nat.sub_diag. reflexivity.
Qed.

(** X17: [esp32h2_wdt_disable] issues the eight watchdog writes in
    program order and stops at the first one that is not answered
    [ERROR_OK]: with [n] the number of leading writes answered
    [ERROR_OK], the calls made are the first [n + 1] of the eight (all of
    them when [n = 8]).  It returns [ERROR_OK] exactly when all eight are
    answered [ERROR_OK], and then logs nothing; otherwise it returns the
    code of the failing write and logs one error carrying that code.  A
    later watchdog is therefore left enabled whenever an earlier write
    fails. *)
Theorem esp32h2_wdt_disable_stops_at_first_failure (s : esp32h2) :
  let L := length (esp_calls s) in
  let n := answered_ok s L 8 in
  let r := fst (esp32h2_wdt_disable s) in
  let s' := snd (esp32h2_wdt_disable s) in
  calls_since s s' = firstn (S n) wdt_writes
  /\ (r = ERROR_OK <-> n = 8%nat)
  /\ (n = 8%nat -> esp_log s' = esp_log s)
  /\ (n <> 8%nat ->
      r = res (esp_answers s (L + n))
      /\ exists text : string, esp_log s' = esp_log s ++ [esp_error text r]).
Proof.
  cbv zeta. rewrite esp32h2_wdt_disable_write_all, wdt_writes_table.
  pose proof (write_all_run wdt_table s) as H. cbv zeta in H.
  change (length wdt_table) with 8%nat in H.
  destruct H as (Hc & _ & _ & _ & _ & _ & Hok & Hfail).
  split; [apply calls_since_app; exact Hc |].
  split; [| split].
  - split.
    + intros Hr.
      destruct (Nat.eq_dec (answered_ok s (length (esp_calls s)) 8) 8)
        as [E | E]; [exact E |].
      destruct (Hfail E) as (Hne & _). contradiction.
    + intros E. apply Hok. exact E.
  - intros E. apply Hok. exact E.
  - intros E. destruct (Hfail E) as (_ & H2 & H3). split; assumption.
Qed.

(** ** [esp32h2_poll] *)

Lemma extends_by_nil (s : esp32h2) : extends_by [] s s.
Proof. unfold extends_by. rewrite app_nil_r. tauto. Qed.

Lemma extends_by_trans (a b : list esp_call) (s s1 s2 : esp32h2) :
  extends_by a s s1 -> extends_by b s1 s2 -> extends_by (a ++ b) s s2.
Proof.
  unfold extends_by.
  intros (A1 & A2 & A3 & A4 & A5 & A6) (B1 & B2 & B3 & B4 & B5 & B6).
  rewrite B1, A1, app_assoc. repeat split; congruence.
Qed.

Lemma extends_by_call (c : esp_call) (s : esp32h2) :
  extends_by [c] s (snd (esp_call_of c s)).
Proof. unfold extends_by, esp_call_of. simpl. tauto. Qed.

Lemma extends_by_log (l : esp_log_line) (cs : list esp_call)
    (s s' : esp32h2) :
  extends_by cs s s' -> extends_by cs s (esp_log_add l s').
Proof. unfold extends_by, esp_log_add. simpl. tauto. Qed.

Lemma extends_by_length (cs : list esp_call) (s s' : esp32h2) :
  extends_by cs s s' ->
  length (esp_calls s') = (length (esp_calls s) + length cs)%nat.
Proof. intros (H & _). rewrite H. apply length_app. Qed.

Lemma esp_call_of_fst (c : esp_call) (s : esp32h2) :
  fst (esp_call_of c s) = esp_answers s (length (esp_calls s)).
Proof. reflexivity. Qed.

Lemma write_all_extends (s : esp32h2) :
  extends_by (firstn (S (answered_ok s (length (esp_calls s)) 8)) wdt_writes)
    s (snd (esp32h2_wdt_disable s)).
Proof.
  rewrite esp32h2_wdt_disable_write_all, wdt_writes_table.
  pose proof (write_all_run wdt_table s) as H. cbv zeta in H.
  change (length wdt_table) with 8%nat in H.
  unfold extends_by. tauto.
Qed.

Lemma halt_and_disable_extends (strap_reg dmstatus allhalted : Z)
    (s : esp32h2) :
  extends_by
    (if ESP32H2_IS_FLASH_BOOT strap_reg
        && (get_field dmstatus allhalted =? 0)
     then esp_riscv_core_halt ::
          (if res (esp_answers s (length (esp_calls s))) =? ERROR_OK
           then firstn (S (answered_ok s (S (length (esp_calls s))) 8))
                  wdt_writes
           else [])
     else [])
    s (halt_and_disable strap_reg dmstatus allhalted s).
Proof.
  unfold halt_and_disable.
  destruct (ESP32H2_IS_FLASH_BOOT strap_reg
            && (get_field dmstatus allhalted =? 0)).
  - pose proof (extends_by_call esp_riscv_core_halt s) as Hc.
    pose proof (esp_call_of_fst esp_riscv_core_halt s) as Ha.
    destruct (esp_call_of esp_riscv_core_halt s) as [a s1].
    cbn [fst snd] in Hc, Ha. subst a.
    destruct (res (esp_answers s (length (esp_calls s))) =? ERROR_OK).
    + pose proof (write_all_extends s1) as Hw.
      rewrite (extends_by_length _ _ _ Hc) in Hw.
      rewrite (answered_ok_ext s1 s) in Hw by apply Hc.
      replace (length (esp_calls s) + length [esp_riscv_core_halt])%nat
        with (S (length (esp_calls s))) in Hw by (simpl; lia).
      destruct (esp32h2_wdt_disable s1) as [r s2]. cbn [snd] in Hw.
      change (esp_riscv_core_halt :: ?l) with ([esp_riscv_core_halt] ++ l).
      destruct (negb (r =? ERROR_OK)).
      * apply extends_by_log. eapply extends_by_trans; eassumption.
      * eapply extends_by_trans; eassumption.
    + apply extends_by_log. exact Hc.
  - apply extends_by_nil.
Qed.

Lemma post_reset_hooks_extends (s : esp32h2) :
  extends_by (hook_calls s) s (post_reset_hooks s).
Proof.
  unfold post_reset_hooks, hook_calls. cbv zeta.
  assert (H1 : extends_by
                 (if has_post_reset s then [semi_ops_post_reset] else [])
                 s
                 (if has_post_reset s
                  then snd (esp_call_of semi_ops_post_reset s) else s)).
  { destruct (has_post_reset s);
      [apply extends_by_call | apply extends_by_nil]. }
  set (s1 := if has_post_reset s
             then snd (esp_call_of semi_ops_post_reset s) else s) in *.
  assert (Hr : has_rtos_cleanup s1 = has_rtos_cleanup s) by apply H1.
  rewrite Hr.
  eapply extends_by_trans; [exact H1 |].
  destruct (has_rtos_cleanup s).
  - pose proof (extends_by_call rtos_post_reset_cleanup s1) as Hc.
    destruct (esp_call_of rtos_post_reset_cleanup s1) as [a s2].
    cbn [snd] in Hc.
    destruct (negb (res a =? ERROR_OK));
      [apply extends_by_log |]; exact Hc.
  - apply extends_by_nil.
Qed.

Lemma ebreaks_and_resume_extends (strap_reg dmstatus allhalted : Z)
    (s : esp32h2) :
  extends_by
    (if ESP32H2_IS_FLASH_BOOT strap_reg then
       esp_riscv_core_ebreaks_enable ::
       (if get_field dmstatus allhalted =? 0
        then [esp_riscv_core_resume] else [])
     else [])
    s (ebreaks_and_resume strap_reg dmstatus allhalted s).
Proof.
  unfold ebreaks_and_resume.
  destruct (ESP32H2_IS_FLASH_BOOT strap_reg); [| apply extends_by_nil].
  pose proof (extends_by_call esp_riscv_core_ebreaks_enable s) as Hc.
  destruct (esp_call_of esp_riscv_core_ebreaks_enable s) as [a s1].
  cbn [snd] in Hc. cbv zeta.
  assert (H1 : extends_by [esp_riscv_core_ebreaks_enable] s
                 (if negb (res a =? ERROR_OK)
                  then esp_log_add
                         (esp_error "Failed to enable EBREAKS handling"
                            (res a)) s1
                  else s1)).
  { destruct (negb (res a =? ERROR_OK));
      [apply extends_by_log |]; exact Hc. }
  set (s2 := if negb (res a =? ERROR_OK) then _ else s1) in *.
  change (esp_riscv_core_ebreaks_enable :: ?l)
    with ([esp_riscv_core_ebreaks_enable] ++ l).
  eapply extends_by_trans; [exact H1 |].
  destruct (get_field dmstatus allhalted =? 0); [| apply extends_by_nil].
  pose proof (extends_by_call esp_riscv_core_resume s2) as Hc2.
  destruct (esp_call_of esp_riscv_core_resume s2) as [a2 s3].
  cbn [snd] in Hc2.
  destruct (negb (res a2 =? ERROR_OK));
    [apply extends_by_log |]; exact Hc2.
Qed.

Lemma read_strap_and_cause_extends (s : esp32h2) :
  fst (read_strap_and_cause s) =
    (let a := esp_answers s (length (esp_calls s)) in
     if res a =? ERROR_OK then u32 (value_read a)
     else ESP32H2_FLASH_BOOT_MODE)
  /\ extends_by
       [target_read_u32 ESP32H2_GPIO_STRAP_REG;
        target_read_u32 ESP32H2_RTCCNTL_RESET_STATE_REG]
       s (snd (read_strap_and_cause s)).
Proof.
  unfold read_strap_and_cause.
  pose proof (extends_by_call (target_read_u32 ESP32H2_GPIO_STRAP_REG) s)
    as Hc.
  pose proof (esp_call_of_fst (target_read_u32 ESP32H2_GPIO_STRAP_REG) s)
    as Ha.
  destruct (esp_call_of (target_read_u32 ESP32H2_GPIO_STRAP_REG) s)
    as [a s1].
  cbn [fst snd] in Hc, Ha. subst a. cbv zeta.
  set (a := esp_answers s (length (esp_calls s))).
  assert (H1 :
    exists s2,
      (if negb (res a =? ERROR_OK)
       then (ESP32H2_FLASH_BOOT_MODE,
             esp_log_add
               (esp_warning "Failed to read ESP32H2_GPIO_STRAP_REG" (res a))
               s1)
       else (u32 (value_read a), s1))
      = (if res a =? ERROR_OK then u32 (value_read a)
         else ESP32H2_FLASH_BOOT_MODE, s2)
      /\ extends_by [target_read_u32 ESP32H2_GPIO_STRAP_REG] s s2).
  { destruct (res a =? ERROR_OK); cbn [negb]; eexists; split;
      try reflexivity; [| apply extends_by_log]; exact Hc. }
  destruct H1 as (s2 & -> & H2).
  pose proof
    (extends_by_call (target_read_u32 ESP32H2_RTCCNTL_RESET_STATE_REG) s2)
    as Hc2.
  destruct (esp_call_of (target_read_u32 ESP32H2_RTCCNTL_RESET_STATE_REG) s2)
    as [a2 s3].
  cbn [fst snd] in *.
  split; [reflexivity |].
  change [target_read_u32 ESP32H2_GPIO_STRAP_REG;
          target_read_u32 ESP32H2_RTCCNTL_RESET_STATE_REG]
    with ([target_read_u32 ESP32H2_GPIO_STRAP_REG]
          ++ [target_read_u32 ESP32H2_RTCCNTL_RESET_STATE_REG]).
  destruct (negb (res a2 =? ERROR_OK)); apply extends_by_log;
    eapply extends_by_trans; eassumption.
Qed.

Lemma esp32h2_poll_reset_handling (DM_DMSTATUS DM_DMSTATUS_ALLHALTED : Z)
    (s : esp32h2) :
  esp32h2_poll DM_DMSTATUS DM_DMSTATUS_ALLHALTED s =
  (let '(a, s1) :=
     esp_call_of esp_riscv_poll
       (reset_handling DM_DMSTATUS DM_DMSTATUS_ALLHALTED s) in
   (res a, s1)).
Proof.
  unfold esp32h2_poll, reset_handling.
  destruct (was_reset s && has_dmi s); [| reflexivity].
  destruct (esp_call_of (dmi_read DM_DMSTATUS) s) as [a s1].
  cbv zeta.
  destruct (negb (res a =? ERROR_OK)); [reflexivity |].
  unfold read_strap_and_cause, halt_and_disable, post_reset_hooks,
    ebreaks_and_resume.
  destruct (esp_call_of (target_read_u32 ESP32H2_GPIO_STRAP_REG)
              (with_was_reset false s1)) as [a2 s2].
  destruct (negb (res a2 =? ERROR_OK));
    destruct (esp_call_of _ _) as [a3 s3];
    reflexivity.
Qed.

Lemma hook_calls_ext (s s' : esp32h2) :
  has_post_reset s' = has_post_reset s ->
  has_rtos_cleanup s' = has_rtos_cleanup s ->
  hook_calls s' = hook_calls s.
Proof. unfold hook_calls. intros -> ->. reflexivity. Qed.

Lemma reset_handling_out_of_reset (DM_DMSTATUS DM_DMSTATUS_ALLHALTED : Z)
    (s : esp32h2) :
  was_reset s = true ->
  has_dmi s = true ->
  res (esp_answers s (length (esp_calls s))) = ERROR_OK ->
  let s' := reset_handling DM_DMSTATUS DM_DMSTATUS_ALLHALTED s in
  esp_calls s' =
    esp_calls s
    ++ [dmi_read DM_DMSTATUS; target_read_u32 ESP32H2_GPIO_STRAP_REG;
        target_read_u32 ESP32H2_RTCCNTL_RESET_STATE_REG]
    ++ halt_calls DM_DMSTATUS_ALLHALTED s
    ++ hook_calls s
    ++ resume_calls DM_DMSTATUS_ALLHALTED s
  /\ esp_answers s' = esp_answers s
  /\ was_reset s' = false
  /\ has_dmi s' = has_dmi s
  /\ has_post_reset s' = has_post_reset s
  /\ has_rtos_cleanup s' = has_rtos_cleanup s.
Proof.
  intros Hw Hd Hok. cbv zeta. unfold reset_handling.
  rewrite Hw, Hd. cbn [andb].
  pose proof (extends_by_call (dmi_read DM_DMSTATUS) s) as Hc.
  pose proof (esp_call_of_fst (dmi_read DM_DMSTATUS) s) as Ha.
  destruct (esp_call_of (dmi_read DM_DMSTATUS) s) as [a s1].
  cbn [fst snd] in Hc, Ha. subst a. cbv zeta.
  rewrite Hok. change (negb (ERROR_OK =? ERROR_OK)) with false. cbv iota.
  destruct Hc as (C1 & C2 & C3 & C4 & C5 & C6).
  pose proof (read_strap_and_cause_extends (with_was_reset false s1))
    as [Hs Hr].
  destruct (read_strap_and_cause (with_was_reset false s1)) as [strap s2].
  cbn [fst snd] in Hs, Hr. cbv zeta in Hs.
  change (esp_calls (with_was_reset false s1)) with (esp_calls s1) in Hs.
  change (esp_answers (with_was_reset false s1)) with (esp_answers s1) in Hs.
  rewrite C1, app_one_length, C2 in Hs.
  fold (strap_seen s) in Hs. fold (dmstatus_seen s).
  destruct Hr as (R1 & R2 & R3 & R4 & R5 & R6).
  change (esp_calls (with_was_reset false s1)) with (esp_calls s1) in R1.
  change (esp_answers (with_was_reset false s1)) with (esp_answers s1) in R2.
  change (was_reset (with_was_reset false s1)) with false in R3.
  change (has_dmi (with_was_reset false s1)) with (has_dmi s1) in R4.
  change (has_post_reset (with_was_reset false s1))
    with (has_post_reset s1) in R5.
  change (has_rtos_cleanup (with_was_reset false s1))
    with (has_rtos_cleanup s1) in R6.
  pose proof (halt_and_disable_extends strap (dmstatus_seen s)
                DM_DMSTATUS_ALLHALTED s2) as Hh.
  set (s3 := halt_and_disable strap (dmstatus_seen s)
               DM_DMSTATUS_ALLHALTED s2) in *.
  pose proof (post_reset_hooks_extends s3) as Hp.
  set (s4 := post_reset_hooks s3) in *.
  pose proof (ebreaks_and_resume_extends strap (dmstatus_seen s)
                DM_DMSTATUS_ALLHALTED s4) as He.
  set (s5 := ebreaks_and_resume strap (dmstatus_seen s)
               DM_DMSTATUS_ALLHALTED s4) in *.
  assert (Hlen2 : length (esp_calls s2) = (length (esp_calls s) + 3)%nat).
  { rewrite R1, C1, !length_app. simpl. lia. }
  rewrite Hlen2, R2, C2 in Hh.
  rewrite (answered_ok_ext s2 s) in Hh by congruence.
  replace (S (length (esp_calls s) + 3)) with (length (esp_calls s) + 4)%nat
    in Hh by lia.
  subst strap.
  fold (halt_calls DM_DMSTATUS_ALLHALTED s) in Hh.
  fold (resume_calls DM_DMSTATUS_ALLHALTED s) in He.
  destruct Hh as (H1 & H2 & H3 & H4 & H5 & H6).
  rewrite (hook_calls_ext s s3) in Hp by congruence.
  destruct Hp as (P1 & P2 & P3 & P4 & P5 & P6).
  destruct He as (E1 & E2 & E3 & E4 & E5 & E6).
  split.
  { rewrite E1, P1, H1, R1, C1. rewrite <- !app_assoc. reflexivity. }
  repeat split; congruence.
Qed.

Lemma reset_handling_dmstatus_failure
    (DM_DMSTATUS DM_DMSTATUS_ALLHALTED : Z) (s : esp32h2) :
  was_reset s = true ->
  has_dmi s = true ->
  res (esp_answers s (length (esp_calls s))) <> ERROR_OK ->
  reset_handling DM_DMSTATUS DM_DMSTATUS_ALLHALTED s =
  esp_log_add
    (esp_error "Failed to read DMSTATUS"
       (res (esp_answers s (length (esp_calls s)))))
    (snd (esp_call_of (dmi_read DM_DMSTATUS) s)).
Proof.
  intros Hw Hd Hfail. unfold reset_handling.
  rewrite Hw, Hd. cbn [andb].
  unfold esp_call_of at 1. cbv zeta.
  apply Z.eqb_neq in Hfail. rewrite Hfail. reflexivity.
Qed.

Lemma reset_handling_no_reset (DM_DMSTATUS DM_DMSTATUS_ALLHALTED : Z)
    (s : esp32h2) :
  was_reset s && has_dmi s = false ->
  reset_handling DM_DMSTATUS DM_DMSTATUS_ALLHALTED s = s.
Proof. intros H. unfold reset_handling. rewrite H. reflexivity. Qed.

Lemma In_firstn {A : Type} (x : A) (n : nat) (l : list A) :
  In x (firstn n l) -> In x l.
Proof.
  revert l. induction n as [| n IH]; intros [| y l]; simpl; try tauto.
  intros [H | H]; [left; exact H | right; apply IH; exact H].
Qed.

Lemma wdt_writes_are_writes (c : esp_call) :
  In c wdt_writes -> exists a v : Z, c = target_write_u32 a v.
Proof.
  unfold wdt_writes. simpl.
  intros H. repeat (destruct H as [H | H]; [eexists; eexists; symmetry;
                                            exact H |]).
  contradiction.
Qed.

Lemma halt_calls_cases (allhalted : Z) (s : esp32h2) (c : esp_call) :
  In c (halt_calls allhalted s) ->
  ESP32H2_IS_FLASH_BOOT (strap_seen s) = true
  /\ (get_field (dmstatus_seen s) allhalted =? 0) = true
  /\ (c = esp_riscv_core_halt
      \/ (res (esp_answers s (length (esp_calls s) + 3)) = ERROR_OK
          /\ In c wdt_writes)).
Proof.
  unfold halt_calls. cbv zeta.
  destruct (ESP32H2_IS_FLASH_BOOT (strap_seen s)); cbn [andb];
    [| contradiction].
  destruct (get_field (dmstatus_seen s) allhalted =? 0); [| contradiction].
  intros [H | H]; [auto |].
  destruct (res (esp_answers s (length (esp_calls s) + 3)) =? ERROR_OK)
    eqn:E; [| contradiction].
  apply Z.eqb_eq in E. apply In_firstn in H. auto.
Qed.

Lemma hook_calls_cases (s : esp32h2) (c : esp_call) :
  In c (hook_calls s) ->
  c = semi_ops_post_reset \/ c = rtos_post_reset_cleanup.
Proof.
  unfold hook_calls.
  destruct (has_post_reset s), (has_rtos_cleanup s); simpl; intuition.
Qed.

Lemma resume_calls_cases (allhalted : Z) (s : esp32h2) (c : esp_call) :
  In c (resume_calls allhalted s) ->
  ESP32H2_IS_FLASH_BOOT (strap_seen s) = true
  /\ (c = esp_riscv_core_ebreaks_enable
      \/ (c = esp_riscv_core_resume
          /\ (get_field (dmstatus_seen s) allhalted =? 0) = true)).
Proof.
  unfold resume_calls.
  destruct (ESP32H2_IS_FLASH_BOOT (strap_seen s)); [| contradiction].
  destruct (get_field (dmstatus_seen s) allhalted =? 0); simpl; intuition.
Qed.

(** What [reset_handling] does in every case. *)
Lemma reset_handling_extends (DM_DMSTATUS DM_DMSTATUS_ALLHALTED : Z)
    (s : esp32h2) :
  exists pre : list esp_call,
    esp_calls (reset_handling DM_DMSTATUS DM_DMSTATUS_ALLHALTED s) =
      esp_calls s ++ pre
    /\ ~ In esp_riscv_poll pre
    /\ esp_answers (reset_handling DM_DMSTATUS DM_DMSTATUS_ALLHALTED s) =
       esp_answers s
    /\ has_dmi (reset_handling DM_DMSTATUS DM_DMSTATUS_ALLHALTED s) =
       has_dmi s.
Proof.
  destruct (was_reset s && has_dmi s) eqn:E.
  - apply andb_true_iff in E. destruct E as [Hw Hd].
    destruct (Z.eq_dec (res (esp_answers s (length (esp_calls s)))) ERROR_OK)
      as [Hok | Hfail].
    + destruct (reset_handling_out_of_reset DM_DMSTATUS DM_DMSTATUS_ALLHALTED
                  s Hw Hd Hok) as (Hc & Ha & _ & Hd' & _).
      eexists. split; [exact Hc |]. split; [| split; assumption].
      intros H. rewrite !in_app_iff in H.
      destruct H as [H | [H | [H | H]]].
      * simpl in H. intuition discriminate.
      * apply halt_calls_cases in H.
        destruct H as (_ & _ & [H | [_ H]]); [discriminate |].
        apply wdt_writes_are_writes in H. destruct H as (a & v & H).
        discriminate.
      * apply hook_calls_cases in H. intuition discriminate.
      * apply resume_calls_cases in H.
        destruct H as (_ & [H | [H _]]); discriminate.
    + rewrite (reset_handling_dmstatus_failure _ _ _ Hw Hd Hfail).
      exists [dmi_read DM_DMSTATUS].
      split; [reflexivity |]. split; [| split; reflexivity].
      simpl. intuition discriminate.
  - rewrite (reset_handling_no_reset _ _ _ E).
    exists []. rewrite app_nil_r. simpl. tauto.
Qed.

Lemma esp32h2_poll_fst (DM_DMSTATUS DM_DMSTATUS_ALLHALTED : Z)
    (s : esp32h2) :
  fst (esp32h2_poll DM_DMSTATUS DM_DMSTATUS_ALLHALTED s) =
  res (esp_answers (reset_handling DM_DMSTATUS DM_DMSTATUS_ALLHALTED s)
         (length
            (esp_calls
               (reset_handling DM_DMSTATUS DM_DMSTATUS_ALLHALTED s)))).
Proof. rewrite esp32h2_poll_reset_handling. reflexivity. Qed.

Lemma esp32h2_poll_snd (DM_DMSTATUS DM_DMSTATUS_ALLHALTED : Z)
    (s : esp32h2) :
  snd (esp32h2_poll DM_DMSTATUS DM_DMSTATUS_ALLHALTED s) =
  snd (esp_call_of esp_riscv_poll
         (reset_handling DM_DMSTATUS DM_DMSTATUS_ALLHALTED s)).
Proof. rewrite esp32h2_poll_reset_handling. reflexivity. Qed.

Lemma esp32h2_poll_calls (DM_DMSTATUS DM_DMSTATUS_ALLHALTED : Z)
    (s : esp32h2) (pre : list esp_call) :
  esp_calls (reset_handling DM_DMSTATUS DM_DMSTATUS_ALLHALTED s) =
    esp_calls s ++ pre ->
  calls_since s (snd (esp32h2_poll DM_DMSTATUS DM_DMSTATUS_ALLHALTED s)) =
    pre ++ [esp_riscv_poll].
Proof.
  intros H. apply calls_since_app.
  rewrite esp32h2_poll_snd. cbn [esp_call_of snd esp_calls].
  rewrite H, app_assoc. reflexivity.
Qed.

(** X18: [esp32h2_poll] returns what [esp_riscv_poll] returns, whatever
    happened before: [esp_riscv_poll] is the last call of every poll and
    is called once, and no failure of the reset handling reaches the
    caller.  When no reset is pending, or the debug module interface is
    not set up, it is the only call, and neither the log nor [was_reset]
    changes. *)
Theorem esp32h2_poll_delegates (DM_DMSTATUS DM_DMSTATUS_ALLHALTED : Z)
    (s : esp32h2) :
  let r := fst (esp32h2_poll DM_DMSTATUS DM_DMSTATUS_ALLHALTED s) in
  let s' := snd (esp32h2_poll DM_DMSTATUS DM_DMSTATUS_ALLHALTED s) in
  (exists pre : list esp_call,
     calls_since s s' = pre ++ [esp_riscv_poll]
     /\ ~ In esp_riscv_poll pre
     /\ r = res (esp_answers s (length (esp_calls s) + length pre)))
  /\ (was_reset s && has_dmi s = false ->
      calls_since s s' = [esp_riscv_poll]
      /\ esp_log s' = esp_log s
      /\ was_reset s' = was_reset s).
Proof.
  cbv zeta. split.
  - destruct (reset_handling_extends DM_DMSTATUS DM_DMSTATUS_ALLHALTED s)
      as (pre & Hc & Hn & Ha & _).
    exists pre. split; [apply esp32h2_poll_calls; exact Hc |].
    split; [exact Hn |].
    rewrite esp32h2_poll_fst, Ha, Hc, length_app. reflexivity.
  - intros H.
    split.
    + apply (esp32h2_poll_calls _ _ _ []).
      rewrite (reset_handling_no_reset _ _ _ H), app_nil_r. reflexivity.
    + rewrite esp32h2_poll_snd, (reset_handling_no_reset _ _ _ H).
      split; reflexivity.
Qed.

(** X19: the calls of the first poll after a reset, when the read of
    DMSTATUS succeeds.  The poll reads DMSTATUS, the strapping register
    and the reset cause; if the chip boots from flash and is not halted
    it requests a halt and, the halt granted, writes the watchdogs up to
    the first failing write; it runs the semihosting and the RTOS hook,
    if set; if the chip boots from flash it enables the ebreaks and, the
    core not having been halted, requests a resume; and it ends with
    [esp_riscv_poll].  [was_reset] is cleared whatever the answers to the
    later calls. *)
Theorem esp32h2_poll_out_of_reset (DM_DMSTATUS DM_DMSTATUS_ALLHALTED : Z)
    (s : esp32h2) :
  was_reset s = true ->
  has_dmi s = true ->
  res (esp_answers s (length (esp_calls s))) = ERROR_OK ->
  let s' := snd (esp32h2_poll DM_DMSTATUS DM_DMSTATUS_ALLHALTED s) in
  was_reset s' = false
  /\ calls_since s s' =
     [dmi_read DM_DMSTATUS; target_read_u32 ESP32H2_GPIO_STRAP_REG;
      target_read_u32 ESP32H2_RTCCNTL_RESET_STATE_REG]
     ++ halt_calls DM_DMSTATUS_ALLHALTED s
     ++ hook_calls s
     ++ resume_calls DM_DMSTATUS_ALLHALTED s
     ++ [esp_riscv_poll].
Proof.
  intros Hw Hd Hok. cbv zeta.
  destruct (reset_handling_out_of_reset DM_DMSTATUS DM_DMSTATUS_ALLHALTED
              s Hw Hd Hok) as (Hc & _ & Hw' & _).
  split.
  - rewrite esp32h2_poll_snd. exact Hw'.
  - rewrite (esp32h2_poll_calls _ _ _ _ Hc).
    rewrite <- !app_assoc. reflexivity.
Qed.

Lemma esp32h2_poll_out_of_reset_witness :
  was_reset (snd (esp32h2_poll 0x11 0x200 esp32h2_just_reset)) = false
  /\ calls_since esp32h2_just_reset
       (snd (esp32h2_poll 0x11 0x200 esp32h2_just_reset)) =
     [dmi_read 0x11; target_read_u32 ESP32H2_GPIO_STRAP_REG;
      target_read_u32 ESP32H2_RTCCNTL_RESET_STATE_REG]
     ++ halt_calls 0x200 esp32h2_just_reset
     ++ hook_calls esp32h2_just_reset
     ++ resume_calls 0x200 esp32h2_just_reset
     ++ [esp_riscv_poll].
Proof.
  apply (esp32h2_poll_out_of_reset 0x11 0x200 esp32h2_just_reset);
    reflexivity.
Defined.

(** X20: a failed read of DMSTATUS puts the reset handling off to the
    next poll.  The poll logs the failure, makes no call but the read and
    [esp_riscv_poll], and leaves [was_reset] set, so that the next poll
    tries again. *)
Theorem esp32h2_poll_dmstatus_failure (DM_DMSTATUS DM_DMSTATUS_ALLHALTED : Z)
    (s : esp32h2) :
  was_reset s = true ->
  has_dmi s = true ->
  res (esp_answers s (length (esp_calls s))) <> ERROR_OK ->
  let s' := snd (esp32h2_poll DM_DMSTATUS DM_DMSTATUS_ALLHALTED s) in
  calls_since s s' = [dmi_read DM_DMSTATUS; esp_riscv_poll]
  /\ was_reset s' = true
  /\ esp_log s' =
     esp_log s
     ++ [esp_error "Failed to read DMSTATUS"
           (res (esp_answers s (length (esp_calls s))))]
  /\ fst (esp32h2_poll DM_DMSTATUS DM_DMSTATUS_ALLHALTED s) =
     res (esp_answers s (S (length (esp_calls s)))).
Proof.
  intros Hw Hd Hfail. cbv zeta.
  pose proof (reset_handling_dmstatus_failure DM_DMSTATUS
                DM_DMSTATUS_ALLHALTED s Hw Hd Hfail) as H.
  split; [| split; [| split]].
  - apply (esp32h2_poll_calls _ _ _ [dmi_read DM_DMSTATUS]).
    rewrite H. reflexivity.
  - rewrite esp32h2_poll_snd, H. exact Hw.
  - rewrite esp32h2_poll_snd, H. reflexivity.
  - rewrite esp32h2_poll_fst, H.
    cbn [esp_log_add esp_call_of snd esp_calls esp_answers].
    rewrite app_one_length. reflexivity.
Qed.

Lemma esp32h2_poll_dmstatus_failure_witness :
  calls_since esp32h2_unreachable
    (snd (esp32h2_poll 0x11 0x200 esp32h2_unreachable)) =
    [dmi_read 0x11; esp_riscv_poll]
  /\ was_reset (snd (esp32h2_poll 0x11 0x200 esp32h2_unreachable)) = true
  /\ esp_log (snd (esp32h2_poll 0x11 0x200 esp32h2_unreachable)) =
     esp_log esp32h2_unreachable
     ++ [esp_error "Failed to read DMSTATUS"
           (res (esp_answers esp32h2_unreachable
                   (length (esp_calls esp32h2_unreachable))))]
  /\ fst (esp32h2_poll 0x11 0x200 esp32h2_unreachable) =
     res (esp_answers esp32h2_unreachable
            (S (length (esp_calls esp32h2_unreachable)))).
Proof.
  apply (esp32h2_poll_dmstatus_failure 0x11 0x200 esp32h2_unreachable);
    [reflexivity | reflexivity | vm_compute; discriminate].
Defined.

(** X21: the reset handling runs once per reset.  After a poll that
    read DMSTATUS, the next poll calls [esp_riscv_poll] alone; once
    [esp32h2_on_reset] has run again, the next poll starts over with the
    read of DMSTATUS. *)
Theorem esp32h2_poll_once_per_reset (DM_DMSTATUS DM_DMSTATUS_ALLHALTED : Z)
    (s : esp32h2) :
  was_reset s = true ->
  has_dmi s = true ->
  res (esp_answers s (length (esp_calls s))) = ERROR_OK ->
  let s1 := snd (esp32h2_poll DM_DMSTATUS DM_DMSTATUS_ALLHALTED s) in
  let s2 := snd (esp32h2_on_reset s1) in
  calls_since s1 (snd (esp32h2_poll DM_DMSTATUS DM_DMSTATUS_ALLHALTED s1)) =
    [esp_riscv_poll]
  /\ fst (esp32h2_on_reset s1) = ERROR_OK
  /\ exists rest : list esp_call,
       calls_since s2
         (snd (esp32h2_poll DM_DMSTATUS DM_DMSTATUS_ALLHALTED s2)) =
       dmi_read DM_DMSTATUS :: rest.
Proof.
  intros Hw Hd Hok. cbv zeta.
  destruct (reset_handling_out_of_reset DM_DMSTATUS DM_DMSTATUS_ALLHALTED
              s Hw Hd Hok) as (_ & _ & Hw' & Hd' & _).
  set (s1 := snd (esp32h2_poll DM_DMSTATUS DM_DMSTATUS_ALLHALTED s)).
  assert (Hw1 : was_reset s1 = false).
  { unfold s1. rewrite esp32h2_poll_snd. exact Hw'. }
  assert (Hd1 : has_dmi s1 = true).
  { unfold s1. rewrite esp32h2_poll_snd.
    cbn [esp_call_of snd has_dmi]. rewrite Hd'. exact Hd. }
  split; [| split].
  - apply (esp32h2_poll_calls _ _ _ []).
    rewrite reset_handling_no_reset, app_nil_r; [reflexivity |].
    rewrite Hw1. reflexivity.
  - reflexivity.
  - set (s2 := snd (esp32h2_on_reset s1)).
    assert (Hw2 : was_reset s2 = true) by reflexivity.
    assert (Hd2 : has_dmi s2 = true) by exact Hd1.
    destruct (Z.eq_dec (res (esp_answers s2 (length (esp_calls s2))))
                ERROR_OK) as [Hok2 | Hfail2].
    + destruct (reset_handling_out_of_reset DM_DMSTATUS
                  DM_DMSTATUS_ALLHALTED s2 Hw2 Hd2 Hok2) as (Hc & _).
      eexists. rewrite (esp32h2_poll_calls _ _ _ _ Hc). reflexivity.
    + eexists.
      rewrite (esp32h2_poll_calls _ _ _ [dmi_read DM_DMSTATUS]);
        [reflexivity |].
      rewrite (reset_handling_dmstatus_failure _ _ _ Hw2 Hd2 Hfail2).
      reflexivity.
Qed.

Lemma esp32h2_poll_once_per_reset_witness :
  calls_since (snd (esp32h2_poll 0x11 0x200 esp32h2_just_reset))
    (snd (esp32h2_poll 0x11 0x200
            (snd (esp32h2_poll 0x11 0x200 esp32h2_just_reset)))) =
  [esp_riscv_poll].
Proof.
  exact (proj1 (esp32h2_poll_once_per_reset 0x11 0x200 esp32h2_just_reset
                  eq_refl eq_refl eq_refl)).
Defined.

(** X22: what the first poll after a reset may do to the chip, when the
    read of DMSTATUS succeeds.  A watchdog register is written only if
    the chip boots from flash, was not halted and granted the halt, and
    only with a write of [esp32h2_wdt_disable].  The resume is requested
    exactly when the halt was requested, also when the halt was refused.
    The ebreaks are enabled exactly when the chip boots from flash, and a
    failed read of the strapping register counts as flash boot. *)
Theorem esp32h2_poll_touches_chip (DM_DMSTATUS DM_DMSTATUS_ALLHALTED : Z)
    (s : esp32h2) :
  was_reset s = true ->
  has_dmi s = true ->
  res (esp_answers s (length (esp_calls s))) = ERROR_OK ->
  let cs :=
    calls_since s (snd (esp32h2_poll DM_DMSTATUS DM_DMSTATUS_ALLHALTED s)) in
  let flash_boot := ESP32H2_IS_FLASH_BOOT (strap_seen s) in
  let running := get_field (dmstatus_seen s) DM_DMSTATUS_ALLHALTED =? 0 in
  (forall a v : Z,
     In (target_write_u32 a v) cs ->
     flash_boot = true /\ running = true
     /\ res (esp_answers s (length (esp_calls s) + 3)) = ERROR_OK
     /\ In (target_write_u32 a v) wdt_writes)
  /\ (In esp_riscv_core_halt cs <-> flash_boot = true /\ running = true)
  /\ (In esp_riscv_core_resume cs <-> In esp_riscv_core_halt cs)
  /\ (In esp_riscv_core_ebreaks_enable cs <-> flash_boot = true)
  /\ (res (esp_answers s (S (length (esp_calls s)))) <> ERROR_OK ->
      flash_boot = true).
Proof.
  intros Hw Hd Hok. cbv zeta.
  destruct (reset_handling_out_of_reset DM_DMSTATUS DM_DMSTATUS_ALLHALTED
              s Hw Hd Hok) as (Hc & _).
  rewrite (esp32h2_poll_calls _ _ _ _ Hc).
  assert (Hhalt : In esp_riscv_core_halt
                    (([dmi_read DM_DMSTATUS;
                       target_read_u32 ESP32H2_GPIO_STRAP_REG;
                       target_read_u32 ESP32H2_RTCCNTL_RESET_STATE_REG]
                      ++ halt_calls DM_DMSTATUS_ALLHALTED s
                      ++ hook_calls s
                      ++ resume_calls DM_DMSTATUS_ALLHALTED s)
                     ++ [esp_riscv_poll]) <->
                  ESP32H2_IS_FLASH_BOOT (strap_seen s) = true
                  /\ (get_field (dmstatus_seen s) DM_DMSTATUS_ALLHALTED =? 0)
                     = true).
  { rewrite !in_app_iff. split.
    - intros [[H | [H | [H | H]]] | H].
      + simpl in H. intuition discriminate.
      + apply halt_calls_cases in H. tauto.
      + apply hook_calls_cases in H. intuition discriminate.
      + apply resume_calls_cases in H.
        destruct H as (_ & [H | [H _]]); discriminate.
      + simpl in H. intuition discriminate.
    - intros [Hf Hr]. left. right. left.
      unfold halt_calls. cbv zeta. rewrite Hf, Hr. left. reflexivity. }
  split; [| split; [exact Hhalt | split; [| split]]].
  - intros a v H. rewrite !in_app_iff in H.
    destruct H as [[H | [H | [H | H]]] | H].
    + simpl in H. intuition discriminate.
    + apply halt_calls_cases in H.
      destruct H as (Hf & Hr & [H | [Hh H]]); [discriminate |]. tauto.
    + apply hook_calls_cases in H. intuition discriminate.
    + apply resume_calls_cases in H.
      destruct H as (_ & [H | [H _]]); discriminate.
    + simpl in H. intuition discriminate.
  - rewrite Hhalt. rewrite !in_app_iff. split.
    + intros [[H | [H | [H | H]]] | H].
      * simpl in H. intuition discriminate.
      * apply halt_calls_cases in H.
        destruct H as (_ & _ & [H | [_ H]]); [discriminate |].
        apply wdt_writes_are_writes in H. destruct H as (a & v & H).
        discriminate.
      * apply hook_calls_cases in H. intuition discriminate.
      * apply resume_calls_cases in H.
        destruct H as (Hf & [H | [_ Hr]]); [discriminate | tauto].
      * simpl in H. intuition discriminate.
    + intros [Hf Hr]. left. right. right. right.
      unfold resume_calls. rewrite Hf, Hr. right. left. reflexivity.
  - rewrite !in_app_iff. split.
    + intros [[H | [H | [H | H]]] | H].
      * simpl in H. intuition discriminate.
      * apply halt_calls_cases in H. tauto.
      * apply hook_calls_cases in H. intuition discriminate.
      * apply resume_calls_cases in H. tauto.
      * simpl in H. intuition discriminate.
    + intros Hf. left. right. right. right.
      unfold resume_calls. rewrite Hf. left. reflexivity.
  - intros Hfail. unfold strap_seen. cbv zeta.
    apply Z.eqb_neq in Hfail. rewrite Hfail. reflexivity.
Qed.

Lemma esp32h2_poll_touches_chip_witness :
  In esp_riscv_core_resume
    (calls_since esp32h2_just_reset
       (snd (esp32h2_poll 0x11 0x200 esp32h2_just_reset)))
  <-> In esp_riscv_core_halt
        (calls_since esp32h2_just_reset
           (snd (esp32h2_poll 0x11 0x200 esp32h2_just_reset))).
Proof.
  exact (proj1 (proj2 (proj2
           (esp32h2_poll_touches_chip 0x11 0x200 esp32h2_just_reset
              eq_refl eq_refl eq_refl)))).
Defined.

(** ** [esp_rom_spiflash_erase_area] *)

Lemma u32_small (z : Z) : 0 <= z < 2 ^ 32 -> u32 z = z.
Proof. intros H. unfold u32. apply Z.mod_small. exact H. Qed.

Lemma s32_small (z : Z) : - 2 ^ 31 <= z < 2 ^ 31 -> s32 z = z.
Proof.
  intros H. unfold s32. rewrite Z.mod_small; lia.
Qed.

Lemma rom_do_eq (c : rom_call) (f : rom) :
  rom_do c f =
  (rom_ok f (length (rom_calls f)), mk_rom (rom_calls f ++ [c]) (rom_ok f)).
Proof. reflexivity. Qed.

Lemma run_calls_app (a b : list rom_call) (f : rom) :
  run_calls (a ++ b) f =
  (let '(ok, f1) := run_calls a f in
   if ok then run_calls b f1 else (false, f1)).
Proof.
  revert f. induction a as [| c a IH]; intros f; cbn [run_calls app].
  - reflexivity.
  - destruct (rom_do c f) as [ok f1].
    destruct ok; cbn [negb]; [apply IH | reflexivity].
Qed.


Lemma zrange_length (s : Z) (n : nat) : length (zrange s n) = n.
Proof.
  revert s. induction n as [| n IH]; intros s; simpl; [| rewrite IH];
    reflexivity.
Qed.

Lemma zrange_In (s : Z) (n : nat) (x : Z) :
  In x (zrange s n) <-> s <= x < s + Z.of_nat n.
Proof.
  revert s. induction n as [| n IH]; intros s; simpl.
  - lia.
  - rewrite IH. lia.
Qed.

(** The first loop, in closed form. *)
Lemma erase_head_run (k : nat) :
  forall (fuel : nat) (s : Z) (f : rom),
    (k < fuel)%nat ->
    0 <= s ->
    s + Z.of_nat k < 2 ^ 32 ->
    Z.of_nat k < 2 ^ 31 ->
    erase_head fuel s (Z.of_nat k) f =
    Returns
      (let '(ok, f') :=
         run_calls (map esp_rom_spiflash_erase_sector (zrange s k)) f in
       (if ok then Some (s + Z.of_nat k) else None, f')).
Proof.
  induction k as [| k IH]; intros fuel s f Hfuel Hs Hsum Hk;
    (destruct fuel as [| fuel]; [lia |]).
  - simpl. rewrite Z.add_0_r. reflexivity.
  - cbn [erase_head zrange map run_calls].
    replace (0 =? Z.of_nat (S k)) with false by (symmetry; apply Z.eqb_neq; lia).
    cbn [negb].
    destruct (rom_do (esp_rom_spiflash_erase_sector s) f) as [ok f1].
    destruct ok; cbn [negb]; [| reflexivity].
    rewrite u32_small by lia.
    replace (Z.of_nat (S k) - 1) with (Z.of_nat k) by lia.
    rewrite s32_small by lia.
    rewrite IH by lia.
    replace (s + 1 + Z.of_nat k) with (s + Z.of_nat (S k)) by lia.
    reflexivity.
Qed.

(** The last loop, in closed form. *)
Lemma erase_tail_run (k : nat) :
  forall (fuel : nat) (s : Z) (f : rom),
    (k < fuel)%nat ->
    0 <= s ->
    s + Z.of_nat k < 2 ^ 32 ->
    Z.of_nat k < 2 ^ 31 ->
    erase_tail fuel s (Z.of_nat k) f =
    Returns
      (let '(ok, f') :=
         run_calls (map esp_rom_spiflash_erase_sector (zrange s k)) f in
       (if ok then ESP_ROM_SPIFLASH_RESULT_OK
        else ESP_ROM_SPIFLASH_RESULT_ERR, f')).
Proof.
  induction k as [| k IH]; intros fuel s f Hfuel Hs Hsum Hk;
    (destruct fuel as [| fuel]; [lia |]).
  - simpl. reflexivity.
  - cbn [erase_tail zrange map run_calls].
    replace (0 <? Z.of_nat (S k)) with true by (symmetry; apply Z.ltb_lt; lia).
    destruct (rom_do (esp_rom_spiflash_erase_sector s) f) as [ok f1].
    destruct ok; cbn [negb]; [| reflexivity].
    rewrite u32_small by lia.
    replace (Z.of_nat (S k) - 1) with (Z.of_nat k) by lia.
    rewrite s32_small by lia.
    rewrite IH by lia.
    reflexivity.
Qed.

(** The number of block erases for [t] sectors left. *)
Lemma blocks_step (spb t : Z) :
  0 < spb -> spb < t ->
  (if t =? 0 then 0 else (t - 1) / spb) =
  1 + (if t - spb =? 0 then 0 else (t - spb - 1) / spb).
Proof.
  intros Hspb Ht.
  replace (t =? 0) with false by (symmetry; apply Z.eqb_neq; lia).
  replace (t - spb =? 0) with false by (symmetry; apply Z.eqb_neq; lia).
  replace (t - 1) with ((t - spb - 1) + 1 * spb) by lia.
  rewrite Z.div_add by lia. lia.
Qed.

Lemma blocks_none (spb t : Z) :
  0 < spb -> 0 <= t <= spb ->
  (if t =? 0 then 0 else (t - 1) / spb) = 0.
Proof.
  intros Hspb Ht. destruct (t =? 0) eqn:E; [reflexivity |].
  apply Z.eqb_neq in E. apply Z.div_small. lia.
Qed.

(** The middle loop, in closed form. *)
Lemma erase_blocks_run (spb : Z) (k : nat) :
  0 < spb < 2 ^ 31 ->
  forall (fuel : nat) (s t : Z) (f : rom),
    (k < fuel)%nat ->
    0 <= s ->
    0 <= t < 2 ^ 31 ->
    s + t < 2 ^ 32 ->
    Z.of_nat k = (if t =? 0 then 0 else (t - 1) / spb) ->
    erase_blocks fuel spb s t f =
    Returns
      (let '(ok, f') :=
         run_calls (map esp_rom_spiflash_erase_block (zrange (s / spb) k)) f in
       (if ok then Some (s + Z.of_nat k * spb, t - Z.of_nat k * spb)
        else None, f')).
Proof.
  intros Hspb.
  induction k as [| k IH]; intros fuel s t f Hfuel Hs Ht Hsum Hk;
    (destruct fuel as [| fuel]; [lia |]).
  - cbn [erase_blocks zrange map run_calls].
    rewrite u32_small by lia.
    assert (Hle : t <= spb).
    { destruct (Z_le_gt_dec t spb) as [H | H]; [exact H |].
      rewrite blocks_step in Hk by lia.
      assert (0 <= (if t - spb =? 0 then 0 else (t - spb - 1) / spb)).
      { destruct (t - spb =? 0); [lia |]. apply Z.div_pos; lia. }
      lia. }
    replace (t >? spb) with false by (symmetry; rewrite Z.gtb_ltb; apply Z.ltb_ge; lia).
    change (Z.of_nat 0) with 0. rewrite Z.mul_0_l, Z.add_0_r, Z.sub_0_r.
    reflexivity.
  - cbn [erase_blocks zrange map run_calls].
    rewrite u32_small by lia.
    assert (Hgt : spb < t).
    { destruct (Z_lt_le_dec spb t) as [H | H]; [exact H |].
      rewrite blocks_none in Hk by lia. lia. }
    replace (t >? spb) with true by (symmetry; rewrite Z.gtb_ltb; apply Z.ltb_lt; lia).
    destruct (rom_do (esp_rom_spiflash_erase_block (s / spb)) f) as [ok f1].
    destruct ok; cbn [negb]; [| reflexivity].
    rewrite (u32_small (s + spb)) by lia.
    rewrite (u32_small (t - spb)) by lia.
    rewrite s32_small by lia.
    rewrite IH; [| lia | lia | lia | lia |].
    + replace ((s + spb) / spb) with (s / spb + 1).
      2:{ replace (s + spb) with (s + 1 * spb) by lia.
          rewrite Z.div_add by lia. reflexivity. }
      replace (s + spb + Z.of_nat k * spb) with (s + Z.of_nat (S k) * spb)
        by lia.
      replace (t - spb - Z.of_nat k * spb) with (t - Z.of_nat (S k) * spb)
        by lia.
      reflexivity.
    + rewrite blocks_step in Hk by lia. lia.
Qed.

Lemma sectors_of_area_bounds (chip : esp_rom_spiflash_chip_t) (area_len : Z) :
  0 < sector_size chip ->
  0 <= area_len < 2 ^ 31 ->
  0 <= sectors_of_area chip area_len < 2 ^ 31
  /\ area_len <= sectors_of_area chip area_len * sector_size chip
  /\ sectors_of_area chip area_len * sector_size chip
     < area_len + sector_size chip.
Proof.
  intros Hss Hlen. unfold sectors_of_area.
  pose proof (Z.div_mod area_len (sector_size chip) ltac:(lia)) as Hdm.
  pose proof (Z.mod_pos_bound area_len (sector_size chip) Hss) as Hm.
  assert (Hq : 0 <= area_len / sector_size chip) by (apply Z.div_pos; lia).
  destruct (0 =? area_len mod sector_size chip) eqn:E.
  - apply Z.eqb_eq in E. nia.
  - apply Z.eqb_neq in E.
    assert (2 <= sector_size chip) by lia.
    nia.
Qed.

Lemma geometry_facts (chip : esp_rom_spiflash_chip_t) (start_addr area_len : Z) :
  sane_geometry chip ->
  countable_area chip start_addr area_len ->
  1 <= sectors_per_block chip < 2 ^ 31
  /\ 0 <= first_sector chip start_addr
  /\ 0 <= sectors_of_area chip area_len
  /\ 0 <= head_sectors chip start_addr area_len
       <= sectors_of_area chip area_len
  /\ 1 <= sectors_per_block chip
          - first_sector chip start_addr mod sectors_per_block chip
       <= sectors_per_block chip
  /\ 0 <= whole_blocks chip start_addr area_len
  /\ whole_blocks chip start_addr area_len * sectors_per_block chip
     <= sectors_of_area chip area_len
        - head_sectors chip start_addr area_len.
Proof.
  intros (Hss & Hbs) (Hstart & Hlen & Hcount & Hfit).
  assert (Hspb : 1 <= sectors_per_block chip < 2 ^ 31).
  { unfold sectors_per_block. split.
    - apply Z.div_le_lower_bound; lia.
    - apply Z.div_lt_upper_bound; nia. }
  assert (Hs0 : 0 <= first_sector chip start_addr).
  { unfold first_sector. apply Z.div_pos; lia. }
  assert (Hn : 0 <= sectors_of_area chip area_len).
  { unfold sectors_of_area.
    assert (0 <= area_len / sector_size chip) by (apply Z.div_pos; lia).
    destruct (0 =? area_len mod sector_size chip); lia. }
  pose proof (Z.mod_pos_bound (first_sector chip start_addr)
                (sectors_per_block chip) ltac:(lia)) as Hm.
  assert (Hhead : 0 <= head_sectors chip start_addr area_len
                  <= sectors_of_area chip area_len).
  { unfold head_sectors. lia. }
  repeat (split; [lia |]).
  unfold whole_blocks. cbv zeta.
  set (rest := sectors_of_area chip area_len
               - head_sectors chip start_addr area_len) in *.
  destruct (rest =? 0) eqn:E.
  - lia.
  - apply Z.eqb_neq in E.
    pose proof (Z.div_mod (rest - 1) (sectors_per_block chip) ltac:(lia)).
    pose proof (Z.mod_pos_bound (rest - 1) (sectors_per_block chip)
                  ltac:(lia)).
    assert (0 <= (rest - 1) / sectors_per_block chip)
      by (apply Z.div_pos; lia).
    split; nia.
Qed.

(** The erase, in closed form: the planned calls, up to the first that
    fails. *)
Lemma esp_rom_spiflash_erase_area_plan (fuel : nat)
    (chip : esp_rom_spiflash_chip_t) (start_addr area_len : Z) (f : rom) :
  sane_geometry chip ->
  countable_area chip start_addr area_len ->
  u32 (start_addr + area_len) <= chip_size chip ->
  start_addr mod sector_size chip = 0 ->
  (Z.to_nat (sectors_of_area chip area_len) < fuel)%nat ->
  esp_rom_spiflash_erase_area fuel chip start_addr area_len f =
  Returns
    (let '(ok, f') := run_calls (erase_plan chip start_addr area_len) f in
     (if ok then ESP_ROM_SPIFLASH_RESULT_OK
      else ESP_ROM_SPIFLASH_RESULT_ERR, f')).
Proof.
  intros Hsane Harea Hfit Halign Hfuel.
  pose proof (geometry_facts chip start_addr area_len Hsane Harea)
    as (Hspb & Hs0 & Hn & Hhead & Hraw & Hblk & Hblk2).
  destruct Hsane as (Hss & Hbs).
  destruct Harea as (Hstart & Hlen & Hcount & Hnum).
  unfold esp_rom_spiflash_erase_area.
  replace (u32 (start_addr + area_len) >? chip_size chip) with false
    by (symmetry; rewrite Z.gtb_ltb; apply Z.ltb_ge; lia).
  replace (sector_size chip =? 0) with false
    by (symmetry; apply Z.eqb_neq; lia).
  rewrite Halign. change (negb (0 =? 0)) with false. cbv iota.
  unfold erase_plan. cbv zeta. cbn [run_calls].
  destruct (rom_do esp_rom_spiflash_unlock f) as [ok f1].
  destruct ok; cbn [negb]; [| reflexivity].
  fold (sectors_per_block chip). fold (first_sector chip start_addr).
  replace (sectors_per_block chip =? 0) with false
    by (symmetry; apply Z.eqb_neq; lia).
  assert (Htot : s32 (if 0 =? area_len mod sector_size chip
                      then area_len / sector_size chip
                      else u32 (1 + area_len / sector_size chip))
                 = sectors_of_area chip area_len).
  { unfold sectors_of_area in *.
    destruct (0 =? area_len mod sector_size chip).
    - apply s32_small. lia.
    - rewrite u32_small by lia. apply s32_small. lia. }
  rewrite Htot.
  rewrite (u32_small (sectors_per_block chip - _)) by lia.
  rewrite (s32_small (sectors_per_block chip - _)) by lia.
  assert (Hmin : (if sectors_per_block chip
                     - first_sector chip start_addr mod sectors_per_block chip
                     >=? sectors_of_area chip area_len
                  then sectors_of_area chip area_len
                  else sectors_per_block chip
                       - first_sector chip start_addr
                         mod sectors_per_block chip)
                 = head_sectors chip start_addr area_len).
  { unfold head_sectors.
    destruct (_ >=? _) eqn:E.
    - apply Z.geb_le in E. lia.
    - rewrite Z.geb_leb in E. apply Z.leb_gt in E. lia. }
  rewrite Hmin.
  rewrite (s32_small (sectors_of_area chip area_len - _)) by lia.
  set (s0 := first_sector chip start_addr) in *.
  set (spb := sectors_per_block chip) in *.
  set (n := sectors_of_area chip area_len) in *.
  set (head := head_sectors chip start_addr area_len) in *.
  set (blocks := whole_blocks chip start_addr area_len) in *.
  rewrite <- (Z2Nat.id head) at 1 by lia.
  rewrite erase_head_run by lia.
  rewrite Z2Nat.id by lia.
  rewrite run_calls_app.
  destruct (run_calls (map esp_rom_spiflash_erase_sector
                         (zrange s0 (Z.to_nat head))) f1) as [ok1 f2].
  destruct ok1; [| reflexivity].
  assert (Hble : blocks <= n - head) by nia.
  assert (Hk : Z.of_nat (Z.to_nat blocks) =
               (if n - head =? 0 then 0 else (n - head - 1) / spb)).
  { rewrite Z2Nat.id by lia. reflexivity. }
  rewrite (erase_blocks_run spb (Z.to_nat blocks) ltac:(lia) fuel
             (s0 + head) (n - head) f2 ltac:(lia) ltac:(lia) ltac:(lia)
             ltac:(lia) Hk).
  rewrite Z2Nat.id by lia.
  rewrite run_calls_app.
  destruct (run_calls (map esp_rom_spiflash_erase_block
                         (zrange ((s0 + head) / spb) (Z.to_nat blocks))) f2)
    as [ok2 f3].
  destruct ok2; [| reflexivity].
  rewrite <- (Z2Nat.id (n - head - blocks * spb)) at 1 by lia.
  rewrite erase_tail_run by lia.
  reflexivity.
Qed.

Lemma rom_ok_run_ext (f f' : rom) (n start : nat) :
  rom_ok f = rom_ok f' -> rom_ok_run f start n = rom_ok_run f' start n.
Proof.
  intros H. revert start. induction n as [| n IH]; intros start; simpl.
  - reflexivity.
  - rewrite H, IH. reflexivity.
Qed.


Lemma rom_ok_run_all (f : rom) (n start : nat) :
  (forall i : nat, rom_ok f i = true) -> rom_ok_run f start n = n.
Proof.
  intros H. revert start. induction n as [| n IH]; intros start; simpl.
  - reflexivity.
  - rewrite H, IH. reflexivity.
Qed.

(** Calls made in a row, in closed form. *)
Lemma run_calls_run (cs : list rom_call) (f : rom) :
  let k := rom_ok_run f (length (rom_calls f)) (length cs) in
  rom_calls (snd (run_calls cs f)) = rom_calls f ++ firstn (S k) cs
  /\ rom_ok (snd (run_calls cs f)) = rom_ok f
  /\ fst (run_calls cs f) = (k =? length cs)%nat.
Proof.
  revert f. induction cs as [| c cs IH]; intros f; cbv zeta.
  - cbn [run_calls snd fst length rom_ok_run firstn].
    rewrite app_nil_r. repeat split; reflexivity.
  - cbn [run_calls length rom_ok_run].
    rewrite rom_do_eq.
    destruct (rom_ok f (length (rom_calls f))) eqn:E; cbn [negb].
    + specialize (IH (mk_rom (rom_calls f ++ [c]) (rom_ok f))).
      cbv zeta in IH. cbn [rom_calls rom_ok] in IH.
      rewrite app_one_length in IH.
      rewrite (rom_ok_run_ext _ f) in IH by reflexivity.
      destruct IH as (H1 & H2 & H3).
      split; [| split].
      * rewrite H1, <- app_assoc. reflexivity.
      * exact H2.
      * rewrite H3. reflexivity.
    + cbn [snd fst rom_calls rom_ok firstn].
      repeat split; reflexivity.
Qed.


Ltac solve_bounds :=
  vm_compute; repeat split;
  first [reflexivity | discriminate | intro; discriminate | lia].





Lemma sectors_of_area_covers (chip : esp_rom_spiflash_chip_t) (area_len : Z) :
  0 < sector_size chip ->
  0 <= area_len ->
  area_len <= sectors_of_area chip area_len * sector_size chip
  /\ sectors_of_area chip area_len * sector_size chip
     < area_len + sector_size chip.
Proof.
  intros Hss Hlen. unfold sectors_of_area.
  pose proof (Z.div_mod area_len (sector_size chip) ltac:(lia)) as Hdm.
  pose proof (Z.mod_pos_bound area_len (sector_size chip) Hss) as Hm.
  destruct (0 =? area_len mod sector_size chip) eqn:E.
  - apply Z.eqb_eq in E. nia.
  - apply Z.eqb_neq in E. nia.
Qed.

Lemma erase_area_all_ok (fuel : nat) (chip : esp_rom_spiflash_chip_t)
    (start_addr area_len : Z) (f : rom) :
  sane_geometry chip ->
  countable_area chip start_addr area_len ->
  u32 (start_addr + area_len) <= chip_size chip ->
  start_addr mod sector_size chip = 0 ->
  (forall i : nat, rom_ok f i = true) ->
  (Z.to_nat (sectors_of_area chip area_len) < fuel)%nat ->
  exists f' : rom,
    esp_rom_spiflash_erase_area fuel chip start_addr area_len f =
      Returns (ESP_ROM_SPIFLASH_RESULT_OK, f')
    /\ rom_calls f' = rom_calls f ++ erase_plan chip start_addr area_len.
Proof.
  intros Hsane Harea Hfit Halign Hok Hfuel.
  rewrite (esp_rom_spiflash_erase_area_plan fuel chip start_addr area_len f
             Hsane Harea Hfit Halign Hfuel).
  pose proof (run_calls_run (erase_plan chip start_addr area_len) f) as H.
  cbv zeta in H. rewrite (rom_ok_run_all f _ _ Hok) in H.
  destruct (run_calls (erase_plan chip start_addr area_len) f) as [ok f'].
  cbn [fst snd] in H. destruct H as (H1 & _ & H3).
  rewrite Nat.eqb_refl in H3. subst ok.
  exists f'. split; [reflexivity |].
  rewrite H1, firstn_all2 by lia. reflexivity.
Qed.



(** X25: the size check of [esp_rom_spiflash_erase_area] is made in
    32-bit arithmetic.  An area that runs past the end of the 32-bit
    address space, and so past the end of every chip, is accepted when
    its end, wrapped, is within the chip: with a ROM whose calls succeed
    the function returns [ESP_ROM_SPIFLASH_RESULT_OK], and the call
    after the unlock asks the ROM to erase the sector at [start_addr]. *)
Theorem esp_rom_spiflash_erase_area_size_check_wraps (fuel : nat)
    (chip : esp_rom_spiflash_chip_t) (start_addr area_len : Z) (f : rom) :
  sane_geometry chip ->
  countable_area chip start_addr area_len ->
  chip_size chip < 2 ^ 32 ->
  0 < area_len ->
  2 ^ 32 <= start_addr + area_len ->
  start_addr + area_len - 2 ^ 32 <= chip_size chip ->
  start_addr mod sector_size chip = 0 ->
  (forall i : nat, rom_ok f i = true) ->
  (Z.to_nat (sectors_of_area chip area_len) < fuel)%nat ->
  chip_size chip < start_addr + area_len
  /\ exists (f' : rom) (rest : list rom_call),
       esp_rom_spiflash_erase_area fuel chip start_addr area_len f =
         Returns (ESP_ROM_SPIFLASH_RESULT_OK, f')
       /\ rom_calls f' =
          rom_calls f
          ++ esp_rom_spiflash_unlock
             :: esp_rom_spiflash_erase_sector (start_addr / sector_size chip)
             :: rest.
Proof.
  intros Hsane Harea Hcs Hpos Hwrap Hend Halign Hok Hfuel.
  split; [lia |].
  assert (Hfit : u32 (start_addr + area_len) <= chip_size chip).
  { destruct Harea as (Hstart & Hlen & _).
    unfold u32.
    replace (start_addr + area_len)
      with (start_addr + area_len - 2 ^ 32 + 1 * 2 ^ 32) by lia.
    rewrite Z.mod_add by lia. rewrite Z.mod_small; lia. }
  destruct (erase_area_all_ok fuel chip start_addr area_len f
              Hsane Harea Hfit Halign Hok Hfuel) as (f' & Hrun & Hcalls).
  pose proof (geometry_facts chip start_addr area_len Hsane Harea)
    as (Hspb & Hs0 & Hn & Hhead & Hraw & Hblk & Hblk2).
  assert (Hn1 : 1 <= sectors_of_area chip area_len).
  { destruct Hsane as (Hss & _).
    pose proof (sectors_of_area_covers chip area_len ltac:(lia) ltac:(lia)).
    nia. }
  assert (Hh1 : 1 <= head_sectors chip start_addr area_len).
  { unfold head_sectors. lia. }
  exists f'. unfold erase_plan in Hcalls. cbv zeta in Hcalls.
  destruct (Z.to_nat (head_sectors chip start_addr area_len)) as [| h] eqn:E;
    [lia |].
  cbn [zrange map app] in Hcalls.
  eexists. split; [exact Hrun | exact Hcalls].
Qed.

Lemma esp_rom_spiflash_erase_area_size_check_wraps_witness :
  chip_size chip_4MiB < 0xFFFFF000 + 0x2000
  /\ exists (f' : rom) (rest : list rom_call),
       esp_rom_spiflash_erase_area 3 chip_4MiB 0xFFFFF000 0x2000 rom_all_ok =
         Returns (ESP_ROM_SPIFLASH_RESULT_OK, f')
       /\ rom_calls f' =
          rom_calls rom_all_ok
          ++ esp_rom_spiflash_unlock
             :: esp_rom_spiflash_erase_sector
                  (0xFFFFF000 / sector_size chip_4MiB)
             :: rest.
Proof.
  apply (esp_rom_spiflash_erase_area_size_check_wraps 3 chip_4MiB
           0xFFFFF000 0x2000 rom_all_ok); solve_bounds.
Defined.

(** ** The trace buffers of the stub *)

(** X26: [esp_apptrace_get_up_buffers] cuts the stack data pool into two
    buffers of the same size that lie inside the pool, the second
    beginning where the first ends, so that no address belongs to both;
    together they take the whole pool when its size is even, and all but
    its last byte when it is odd. *)
Theorem esp_apptrace_get_up_buffers_split (data sz : Z) :
  0 <= sz ->
  let bufs := esp_apptrace_get_up_buffers (stub_stack_data_pool_init data sz) in
  block_sz (fst bufs) = block_sz (snd bufs)
  /\ block_start (fst bufs) = data
  /\ block_start (snd bufs) = block_start (fst bufs) + block_sz (fst bufs)
  /\ (forall a : Z, in_block (fst bufs) a -> data <= a < data + sz)
  /\ (forall a : Z, in_block (snd bufs) a -> data <= a < data + sz)
  /\ (forall a : Z, in_block (fst bufs) a -> ~ in_block (snd bufs) a)
  /\ block_sz (fst bufs) + block_sz (snd bufs) = sz - sz mod 2.
Proof.
  intros Hsz. cbv zeta.
  unfold esp_apptrace_get_up_buffers, stub_stack_data_pool_init, in_block.
  cbn [fst snd block_start block_sz s_stack_data_pool s_stack_data_pool_sz].
  pose proof (Z.div_mod sz 2 ltac:(lia)) as Hdm.
  pose proof (Z.mod_pos_bound sz 2 ltac:(lia)) as Hm.
  repeat split; try lia.
Qed.

Lemma esp_apptrace_get_up_buffers_split_witness :
  block_sz (fst (esp_apptrace_get_up_buffers
                   (stub_stack_data_pool_init 0x3FC80000 1025))) +
  block_sz (snd (esp_apptrace_get_up_buffers
                   (stub_stack_data_pool_init 0x3FC80000 1025))) =
  1025 - 1025 mod 2.
Proof.
  apply (esp_apptrace_get_up_buffers_split 0x3FC80000 1025).
  vm_compute. discriminate.
Defined.
